(** * GitLab Registry Explorer: the tree provider of [src/extension.ts]

    A shallow embedding of the extension's provider class
    ([GitLabRegistryProvider]), of its helpers ([formatBytes],
    [TreeItemWithContext]) and of the parts of the JavaScript platform
    they call (string methods, [Array.prototype.sort], [Date],
    [Number.prototype.toFixed]), followed by the properties of the
    specification.

    Conventions.
    - A JavaScript string is a [string]: its characters in UTF-8, one
      [ascii] per byte.  [trim] removes the white space and the line
      terminators of ECMAScript, those outside ASCII included;
      [toLowerCase] is that of JavaScript on ASCII text: it lowers A to
      Z and keeps every other byte.
    - A JavaScript number that holds an identifier, a length or a byte
      count is a [Z]; a number that went through [/] is a [Q] (every
      division of the source is by 1024, which is exact on doubles); the
      result of [Date.prototype.getTime] and of a comparator is a
      [jsnum], a [Z] or [NaN].
    - [undefined] in an optional field is [None]. *)

From Stdlib Require Import ZArith QArith Qround Qabs String Ascii List Lia.
From Stdlib Require Import Permutation DecimalString.
From stdpp Require Import gmap strings sorting.

Import ListNotations.
Local Open Scope string_scope.
Local Open Scope list_scope.
Local Open Scope Z_scope.

(** ** JavaScript strings *)

Module JsString.

Definition is_upper (c : ascii) : bool :=
  let n := nat_of_ascii c in (65 <=? n)%nat && (n <=? 90)%nat.

Definition lower_char (c : ascii) : ascii :=
  if is_upper c then ascii_of_nat (nat_of_ascii c + 32) else c.

(** [s.toLowerCase()] *)
Fixpoint toLowerCase (s : string) : string :=
  match s with
  | EmptyString => EmptyString
  | String c s' => String (lower_char c) (toLowerCase s')
  end.

(** White space and line terminators ([WhiteSpace] and [LineTerminator]
    of ECMAScript), by the bytes of their UTF-8 form.  One byte: TAB, LF,
    VT, FF, CR and SPACE. *)
Definition is_space (c : ascii) : bool :=
  let n := nat_of_ascii c in
  ((9 <=? n)%nat && (n <=? 13)%nat) || (n =? 32)%nat.

(** Two bytes: U+00A0, which is C2 A0. *)
Definition is_space2 (c1 c2 : ascii) : bool :=
  (nat_of_ascii c1 =? 194)%nat && (nat_of_ascii c2 =? 160)%nat.

(** Three bytes: U+1680 (E1 9A 80), U+2000 to U+200A (E2 80 80 to
    E2 80 8A), U+2028, U+2029 and U+202F (E2 80 A8, A9 and AF), U+205F
    (E2 81 9F), U+3000 (E3 80 80) and U+FEFF (EF BB BF). *)
Definition is_space3 (c1 c2 c3 : ascii) : bool :=
  let n1 := nat_of_ascii c1 in
  let n2 := nat_of_ascii c2 in
  let n3 := nat_of_ascii c3 in
  ((n1 =? 225) && (n2 =? 154) && (n3 =? 128))%nat
  || ((n1 =? 226) && (n2 =? 128)
      && (((128 <=? n3) && (n3 <=? 138)) || (n3 =? 168) || (n3 =? 169) || (n3 =? 175)))%nat
  || ((n1 =? 226) && (n2 =? 129) && (n3 =? 159))%nat
  || ((n1 =? 227) && (n2 =? 128) && (n3 =? 128))%nat
  || ((n1 =? 239) && (n2 =? 187) && (n3 =? 191))%nat.

(** The rest of [s] after the white space character it begins with. *)
Definition white_space (s : string) : option string :=
  match s with
  | String c1 s1 =>
      if is_space c1 then Some s1
      else match s1 with
           | String c2 s2 =>
               if is_space2 c1 c2 then Some s2
               else match s2 with
                    | String c3 s3 => if is_space3 c1 c2 c3 then Some s3 else None
                    | EmptyString => None
                    end
           | EmptyString => None
           end
  | EmptyString => None
  end.

(** [s.trimStart()]: the white space characters that [s] begins with
    are dropped. *)
Fixpoint trimStart (s : string) : string :=
  match s with
  | String c1 s1 =>
      if is_space c1 then trimStart s1
      else match s1 with
           | String c2 s2 =>
               if is_space2 c1 c2 then trimStart s2
               else match s2 with
                    | String c3 s3 => if is_space3 c1 c2 c3 then trimStart s3 else s
                    | EmptyString => s
                    end
           | EmptyString => s
           end
  | EmptyString => EmptyString
  end.

(** Nothing but white space; the empty string is such a string. *)
Fixpoint all_space (s : string) : bool :=
  match s with
  | String c1 s1 =>
      if is_space c1 then all_space s1
      else match s1 with
           | String c2 s2 =>
               if is_space2 c1 c2 then all_space s2
               else match s2 with
                    | String c3 s3 => is_space3 c1 c2 c3 && all_space s3
                    | EmptyString => false
                    end
           | EmptyString => false
           end
  | EmptyString => true
  end.

(** [s.trimEnd()]: nothing is left of white space; else the first byte
    stays and the rest is trimmed. *)
Fixpoint trimEnd (s : string) : string :=
  match s with
  | EmptyString => EmptyString
  | String c s' => if all_space s then EmptyString else String c (trimEnd s')
  end.

(** [s.trim()] *)
Definition trim (s : string) : string := trimEnd (trimStart s).

(** [s.startsWith(p)] *)
Definition startsWith (s p : string) : bool := String.prefix p s.

(** [s.includes(q)] *)
Fixpoint includes (s q : string) : bool :=
  startsWith s q ||
  match s with
  | EmptyString => false
  | String _ s' => includes s' q
  end.

(** [s.slice(n)] for [0 <= n] *)
Fixpoint slice_from (n : nat) (s : string) : string :=
  match n, s with
  | O, _ => s
  | S n', String _ s' => slice_from n' s'
  | S _, EmptyString => EmptyString
  end.

(** [s.split(sep)] for a one-character separator: never empty. *)
Fixpoint split (sep : ascii) (s : string) : list string :=
  match s with
  | EmptyString => [EmptyString]
  | String c s' =>
      if Ascii.eqb c sep then EmptyString :: split sep s'
      else match split sep s' with
           | [] => [String c EmptyString]
           | seg :: segs => String c seg :: segs
           end
  end.

(** [s.split(sep)[0]] *)
Definition split_first (sep : ascii) (s : string) : string :=
  match split sep s with
  | [] => EmptyString
  | seg :: _ => seg
  end.

(** [s.split(sep).pop()] *)
Definition split_pop (sep : ascii) (s : string) : string :=
  List.last (split sep s) EmptyString.

(** [s.lastIndexOf(sep)] for a one-character separator: -1 when [sep]
    does not occur. *)
Fixpoint lastIndexOf (sep : ascii) (s : string) : Z :=
  match s with
  | EmptyString => -1
  | String c s' =>
      let i := lastIndexOf sep s' in
      if (0 <=? i)%Z then i + 1
      else if Ascii.eqb c sep then 0 else -1
  end.

(** [s.substring(0, e)]: a negative [e] counts as 0. *)
Definition substring_to (e : Z) (s : string) : string :=
  String.substring 0 (Z.to_nat (Z.max 0 e)) s.

(** Truthiness of a string: the empty string is the only falsy one. *)
Definition truthy (s : string) : bool :=
  match s with EmptyString => false | _ => true end.

(** The default order of [Array.prototype.sort]: code units compared
    from the left. *)
Fixpoint ltb (a b : string) : bool :=
  match a, b with
  | _, EmptyString => false
  | EmptyString, String _ _ => true
  | String x a', String y b' =>
      (nat_of_ascii x <? nat_of_ascii y)%nat ||
      ((nat_of_ascii x =? nat_of_ascii y)%nat && ltb a' b')
  end.

(** Decimal digits of an integer, as a template literal prints it. *)
Definition of_Z (z : Z) : string := NilZero.string_of_int (Z.to_int z).

End JsString.

(** ** JavaScript numbers *)

(** The value of [getTime()] and of a comparison function. *)
Inductive jsnum : Type :=
| NaN : jsnum
| Num : Z -> jsnum.

Definition jsnum_sub (a b : jsnum) : jsnum :=
  match a, b with
  | Num x, Num y => Num (x - y)
  | _, _ => NaN
  end.

Module JsNumber.

Definition is_digit (c : ascii) : bool :=
  let n := nat_of_ascii c in (48 <=? n)%nat && (n <=? 57)%nat.

Fixpoint all_digits (s : string) : bool :=
  match s with
  | EmptyString => true
  | String c s' => is_digit c && all_digits s'
  end.

Fixpoint zeros (n : nat) : string :=
  match n with O => EmptyString | S n' => String "0" (zeros n') end.

(** *** [Number::toString] from 10^21 on

    A Number [x] of at least 10^21 is an integer, [m * 2^e] with
    [2^52 <= m < 2^53]; its decimal form is made of the fewest digits
    that still read back as [x], in exponent notation. *)

(** The Number value of the integer [v] is [x]: [v] is nearer to [x]
    than to the Number below and to the Number above, or half way to
    one of them when the significand [m] of [x] is even.  Distances are
    doubled; the Number below is half as far when [m] is [2^52]. *)
Definition rounds_to (x v : Z) : bool :=
  let e := Z.log2 x - 52 in
  let m := x / 2 ^ e in
  let below := if m =? 2 ^ 52 then 2 ^ (e - 1) else 2 ^ e in
  let above := 2 ^ e in
  let d := 2 * (v - x) in
  if Z.even m then (- below <=? d) && (d <=? above)
  else (- below <? d) && (d <? above).

(** The integer [s * 10^(n-k)] with the least [k], from [k] on, that
    reads back as [x], where [n] is the number of digits of [x]; the
    nearer to [x] when there are two.  Seventeen digits are always
    enough. *)
Fixpoint shortest (fuel : nat) (k : Z) (x n : Z) : Z :=
  match fuel with
  | O => x
  | S fuel' =>
      let p := 10 ^ (n - k) in
      let lo := x / p * p in
      let hi := lo + p in
      if rounds_to x lo && rounds_to x hi then
        if x - lo <=? hi - x then lo else hi
      else if rounds_to x lo then lo
      else if rounds_to x hi then hi
      else shortest fuel' (k + 1) x n
  end.

(** The digits of an integer without the zeros at its end. *)
Fixpoint strip_zeros (digits : string) : string :=
  match digits with
  | EmptyString => EmptyString
  | String d digits' =>
      match strip_zeros digits' with
      | EmptyString => if Ascii.eqb d "0" then EmptyString else String d EmptyString
      | rest => String d rest
      end
  end.

(** [Number::toString(x)] for [10^21 <= x]: the first digit, a point and
    the other digits when there are any, [e+] and the exponent. *)
Definition toString_exponent (x : Z) : string :=
  let n := Z.of_nat (String.length (JsString.of_Z x)) in
  let v := JsString.of_Z (shortest 17 1 x n) in
  let e := JsString.of_Z (Z.of_nat (String.length v - 1)) in
  match strip_zeros v with
  | EmptyString => EmptyString
  | String d EmptyString => String d EmptyString +:+ "e+" +:+ e
  | String d rest => String d EmptyString +:+ "." +:+ rest +:+ "e+" +:+ e
  end.

(** [x.toFixed(2)] as ECMAScript defines it: the sign, and then the
    digits with two decimals below 10^21, or [Number::toString] of the
    absolute value from 10^21 on. *)
Definition toFixed2 (x : Q) : string :=
  let s := if Qle_bool 0 x then "" else "-" in
  let x := Qabs x in
  if Qle_bool (inject_Z (10 ^ 21)) x then s +:+ toString_exponent (Qfloor x)
  else
  (* the integer n for which n / 100 - x is closest to zero, the larger
     of the two when there are two *)
  let n := Qfloor (x * 100 + (1 # 2)) in
  let m := if (n =? 0)%Z then "0" else JsString.of_Z n in
  let k := String.length m in
  let m := if (k <=? 2)%nat then zeros (3 - k) +:+ m else m in
  let k := String.length m in
  let a := String.substring 0 (k - 2) m in
  let b := String.substring (k - 2) 2 m in
  s +:+ a +:+ "." +:+ b.

End JsNumber.

(** ** [formatBytes] *)

Definition units : list string := ["B"; "KB"; "MB"; "GB"; "TB"].

(** The loop [while (size >= 1024 && unitIndex < units.length - 1)]:
    [unitIndex] grows at every turn and is bounded, so [fuel] turns with
    [fuel = units.length] are more than the loop can take (see
    [formatBytes_loop_done]). *)
Fixpoint formatBytes_loop (fuel : nat) (size : Q) (unitIndex : nat) : Q * nat :=
  match fuel with
  | O => (size, unitIndex)
  | S fuel' =>
      if Qle_bool 1024 size && (unitIndex <? List.length units - 1)%nat
      then formatBytes_loop fuel' (size / 1024) (S unitIndex)
      else (size, unitIndex)
  end.

Definition formatBytes (bytes : option Z) : string :=
  match bytes with
  | None => "Unknown size"
  | Some 0 => "Unknown size"
  | Some b =>
      let '(size, unitIndex) := formatBytes_loop (List.length units) (inject_Z b) 0 in
      JsNumber.toFixed2 size +:+ " " +:+ nth unitIndex units "undefined"
  end.

(** ** [Date] *)

Module JsDate.

Definition digit (c : ascii) : option Z :=
  let n := nat_of_ascii c in
  if (48 <=? n)%nat && (n <=? 57)%nat then Some (Z.of_nat n - 48) else None.

(** Reads exactly [n] decimal digits. *)
Fixpoint number (n : nat) (acc : Z) (s : string) : option (Z * string) :=
  match n with
  | O => Some (acc, s)
  | S n' =>
      match s with
      | String c s' => d ← digit c; number n' (10 * acc + d) s'
      | EmptyString => None
      end
  end.

Definition expect (c : ascii) (s : string) : option string :=
  match s with
  | String c' s' => if Ascii.eqb c c' then Some s' else None
  | EmptyString => None
  end.

Definition leap (y : Z) : bool :=
  ((y mod 4 =? 0) && negb (y mod 100 =? 0)) || (y mod 400 =? 0).

Definition days_in_month (y m : Z) : Z :=
  if m =? 2 then (if leap y then 29 else 28)
  else if (m =? 4) || (m =? 6) || (m =? 9) || (m =? 11) then 30 else 31.

(** Days from 1970-01-01 to the given day of the proleptic Gregorian
    calendar. *)
Definition days_from_epoch (y m d : Z) : Z :=
  let y := if m <=? 2 then y - 1 else y in
  let era := y / 400 in
  let yoe := y - era * 400 in
  let doy := (153 * (if 2 <? m then m - 3 else m + 9) + 2) / 5 + d - 1 in
  let doe := yoe * 365 + yoe / 4 - yoe / 100 + doy in
  era * 146097 + doe - 719468.

(** The offset from UTC, in minutes: [Z] or [+HH:mm] or [-HH:mm]. *)
Definition offset (s : string) : option Z :=
  match s with
  | String "Z" EmptyString => Some 0
  | String sign s' =>
      sg ← (if Ascii.eqb sign "+" then Some 1
            else if Ascii.eqb sign "-" then Some (-1) else None);
      '(h, s1) ← number 2 0 s';
      s2 ← expect ":" s1;
      '(m, s3) ← number 2 0 s2;
      match s3 with
      | EmptyString =>
          if (h <=? 23) && (m <=? 59) then Some (sg * (60 * h + m)) else None
      | _ => None
      end
  | EmptyString => None
  end.

(** Seconds and milliseconds, both optional: [:ss] and [.sss]. *)
Definition seconds (s : string) : option (Z * string) :=
  match expect ":" s with
  | None => Some (0, s)
  | Some s1 =>
      '(sec, s2) ← number 2 0 s1;
      match expect "." s2 with
      | None => Some (1000 * sec, s2)
      | Some s3 => '(ms, s4) ← number 3 0 s3; Some (1000 * sec + ms, s4)
      end
  end.

(** Milliseconds since the epoch of a string in the date-time format of
    ECMAScript, [YYYY-MM-DD] alone (UTC) or followed by
    [THH:mm], [THH:mm:ss] or [THH:mm:ss.sss] and an offset ([Z],
    [+HH:mm], [-HH:mm]); this is how GitLab writes [created_at]. *)
Definition parse (s : string) : option Z :=
  '(y, s) ← number 4 0 s;
  s ← expect "-" s;
  '(m, s) ← number 2 0 s;
  s ← expect "-" s;
  '(d, s) ← number 2 0 s;
  if negb ((1 <=? m) && (m <=? 12) && (1 <=? d) && (d <=? days_in_month y m))
  then None
  else
    let day := 86400000 * days_from_epoch y m d in
    match s with
    | EmptyString => Some day
    | String "T" s =>
        '(h, s) ← number 2 0 s;
        s ← expect ":" s;
        '(mi, s) ← number 2 0 s;
        '(ms, s) ← seconds s;
        off ← offset s;
        if (h <=? 23) && (mi <=? 59) && (ms <=? 59999)
        then Some (day + 3600000 * h + 60000 * mi + ms - 60000 * off)
        else None
    | _ => None
    end.

(** [new Date(s).getTime()]: [NaN] for an invalid date; the empty
    string is one.  Strings outside the format above, which a
    JavaScript engine is free to read by heuristics of its own, count
    as invalid. *)
Definition getTime (s : string) : jsnum :=
  match parse s with
  | Some t => Num t
  | None => NaN
  end.

End JsDate.

(** ** Arrays *)

Module JsArray.
Section Sort.
Context {A : Type}.

(** A comparison function, [(a, b) => number]. *)
Variable comparefn : A -> A -> jsnum.

(** [SortCompare] with a comparison function: [NaN] counts as [+0]. *)
Definition Compare (x y : A) : Z :=
  match comparefn x y with
  | NaN => 0
  | Num v => v
  end.

(** [Array.prototype.sort] as V8, the engine extensions run on, does
    it (builtins/array-sort.tq).  An array shorter than 64 elements
    is one run: [CountAndMakeRun] finds the longest ascending or
    strictly descending prefix (reversed when descending), and
    [BinaryInsertionSort] inserts the remaining elements one by one.
    On 64 elements and more V8 cuts the array into such runs and
    merges them; the merge is not modelled, so that on those arrays
    [sort] is V8's result only when [comparefn] is consistent (a
    stable sort has then one possible result). *)
Fixpoint run_length (isDescending : bool) (previousElement : A)
         (rest : list A) (runLength : nat) : nat :=
  match rest with
  | [] => runLength
  | currentElement :: rest' =>
      let order := Compare currentElement previousElement in
      if (if isDescending then 0 <=? order else order <? 0)
      then runLength
      else run_length isDescending currentElement rest' (S runLength)
  end.

(** The array after the call, and the length of the run it starts
    with. *)
Definition CountAndMakeRun (workArray : list A) : list A * nat :=
  match workArray with
  | elementHigh :: elementLow :: rest =>
      let order := Compare elementLow elementHigh in
      let isDescending := order <? 0 in
      let runLength := run_length isDescending elementLow rest 2 in
      if isDescending
      then (rev (firstn runLength workArray) ++ skipn runLength workArray,
            runLength)
      else (workArray, runLength)
  | _ => (workArray, List.length workArray)
  end.

(** The insertion point of [pivot] in [workArray[left..right)]; the
    interval shrinks at every turn, [fuel] bounds its length. *)
Fixpoint insertion_point (fuel : nat) (pivot : A) (workArray : list A)
         (left right : nat) : nat :=
  match fuel with
  | O => left
  | S fuel' =>
      if (left <? right)%nat then
        let mid := (left + (right - left) / 2)%nat in
        match workArray !! mid with
        | Some e =>
            if Compare pivot e <? 0
            then insertion_point fuel' pivot workArray left mid
            else insertion_point fuel' pivot workArray (mid + 1) right
        | None => left
        end
      else left
  end.

(** [sorted] is [workArray[low..start)] and [rest] is
    [workArray[start..high)]. *)
Fixpoint BinaryInsertionSort (sorted rest : list A) : list A :=
  match rest with
  | [] => sorted
  | pivot :: rest' =>
      let start := List.length sorted in
      let left := insertion_point start pivot sorted 0 start in
      BinaryInsertionSort (firstn left sorted ++ pivot :: skipn left sorted)
                          rest'
  end.

Definition sort (array : list A) : list A :=
  if (List.length array <? 2)%nat then array
  else
    let '(workArray, runLength) := CountAndMakeRun array in
    BinaryInsertionSort (firstn runLength workArray) (skipn runLength workArray).
End Sort.

(** [array.sort()], without comparison function, of an array of
    strings. *)
Definition sort_strings : list string -> list string :=
  sort (fun a b => Num (if JsString.ltb a b then -1
                        else if JsString.ltb b a then 1 else 0)).

(** [array.slice(0, end)]: a negative [end] counts from the end. *)
Definition slice_to {A} (end_ : Z) (array : list A) : list A :=
  let len := Z.of_nat (List.length array) in
  let final := if end_ <? 0 then Z.max (len + end_) 0 else Z.min end_ len in
  firstn (Z.to_nat final) array.

(** [set.add(x)] on a [Set] kept in insertion order, as [Array.from]
    reads it. *)
Definition Set_add (x : string) (set : list string) : list string :=
  if existsb (String.eqb x) set then set else set ++ [x].
End JsArray.

(** ** The records of the GitLab API *)

Module Namespace.
Record t := mk { full_path : string }.
End Namespace.

Module GitLabProject.
Record t := mk {
  id : Z;
  name : string;
  path_with_namespace : string;
  namespace : Namespace.t;
  container_registry_enabled : bool
}.
End GitLabProject.

Module GitLabRegistryRepo.
Record t := mk { id : Z; name : string; path : string }.
End GitLabRegistryRepo.

Module GitLabTag.
Record t := mk {
  name : string;
  created_at : option string;
  total_size : option Z
}.

(** [{ name: tag.name }] *)
Definition name_only (n : string) : t := mk n None None.
End GitLabTag.

(** ** The host: network, stores, settings, notifications *)

(** What [await fetch(url)] can come to: the promise rejects (the
    request did not get through), or it gives a response whose [ok] is
    false, or one whose [ok] is true and whose JSON body is [body]. *)
Inductive Fetched (A : Type) : Type :=
| NetworkFailure : Fetched A
| HttpError : Fetched A
| HttpOk (body : A) : Fetched A.
Arguments NetworkFailure {A}.
Arguments HttpError {A}.
Arguments HttpOk {A} body.

Inductive Request : Type :=
| GET_projects (page : Z)
| GET_repositories (projectId : Z)
| GET_tags (projectId repoId page : Z)
| GET_tag (projectId repoId : Z) (tagName : string).

(** The remote registry, as the answers it gives to a bearer of [token].
    A paginated listing is the list of its pages, first page first; every
    page past the last one is empty. *)
Record Server := {
  projects : string -> list (Fetched (list GitLabProject.t));
  repositories : string -> Z -> Fetched (list GitLabRegistryRepo.t);
  tags : string -> Z -> Z -> list (Fetched (list GitLabTag.t));
  tag_detail : string -> Z -> Z -> string -> Fetched GitLabTag.t
}.

(** What the provider does to the outside, in the order it does it. *)
Inductive Effect : Type :=
| Fetch (token : string) (request : Request)
| GlobalStateUpdate (cachedProjects : list GitLabProject.t)
| Fire
| ShowErrorMessage (message : string)
| ExecuteCommand (command : string)
| ConsoleError (message : string).

(** [contributes.configuration] of package.json: the settings the
    extension declares, with their defaults. *)
Definition contributes_configuration : list (string * Z) :=
  [("gitlabRegistryExplorer.maxTagsToDisplay", 20)].

(** ** The provider and its surroundings

    The five private fields of [GitLabRegistryProvider], then what it
    reaches through [this.context] and [vscode]: the secret storage
    (key [gitlabToken]), the global state (key [cachedProjects]), the
    settings the user has given a value to, and the log of effects. *)
Record State := mkState {
  cachedProjects : list GitLabProject.t;
  cachedTags : gmap Z (list GitLabTag.t);
  showAllTagsForRepo : gset Z;
  searchQuery : string;
  filterTagsQueries : gmap Z string;
  secrets_gitlabToken : option string;
  globalState_cachedProjects : option (list GitLabProject.t);
  settings : gmap string Z;
  log : list Effect
}.

Definition set_cachedProjects (v : list GitLabProject.t) (s : State) : State :=
  mkState v (cachedTags s) (showAllTagsForRepo s) (searchQuery s)
          (filterTagsQueries s) (secrets_gitlabToken s)
          (globalState_cachedProjects s) (settings s) (log s).

Definition set_cachedTags (v : gmap Z (list GitLabTag.t)) (s : State) : State :=
  mkState (cachedProjects s) v (showAllTagsForRepo s) (searchQuery s)
          (filterTagsQueries s) (secrets_gitlabToken s)
          (globalState_cachedProjects s) (settings s) (log s).

Definition set_showAllTagsForRepo (v : gset Z) (s : State) : State :=
  mkState (cachedProjects s) (cachedTags s) v (searchQuery s)
          (filterTagsQueries s) (secrets_gitlabToken s)
          (globalState_cachedProjects s) (settings s) (log s).

Definition set_searchQuery (v : string) (s : State) : State :=
  mkState (cachedProjects s) (cachedTags s) (showAllTagsForRepo s) v
          (filterTagsQueries s) (secrets_gitlabToken s)
          (globalState_cachedProjects s) (settings s) (log s).

Definition set_filterTagsQueries (v : gmap Z string) (s : State) : State :=
  mkState (cachedProjects s) (cachedTags s) (showAllTagsForRepo s)
          (searchQuery s) v (secrets_gitlabToken s)
          (globalState_cachedProjects s) (settings s) (log s).

Definition set_secrets_gitlabToken (v : option string) (s : State) : State :=
  mkState (cachedProjects s) (cachedTags s) (showAllTagsForRepo s)
          (searchQuery s) (filterTagsQueries s) v
          (globalState_cachedProjects s) (settings s) (log s).

Definition set_globalState_cachedProjects (v : option (list GitLabProject.t))
           (s : State) : State :=
  mkState (cachedProjects s) (cachedTags s) (showAllTagsForRepo s)
          (searchQuery s) (filterTagsQueries s) (secrets_gitlabToken s)
          v (settings s) (log s).

Definition set_log (v : list Effect) (s : State) : State :=
  mkState (cachedProjects s) (cachedTags s) (showAllTagsForRepo s)
          (searchQuery s) (filterTagsQueries s) (secrets_gitlabToken s)
          (globalState_cachedProjects s) (settings s) v.

Definition effect (e : Effect) (s : State) : State := set_log (log s ++ [e]) s.

(** [vscode.workspace.getConfiguration(section).get(key, defaultValue)]:
    the value the user has set, else the default that package.json
    declares for the setting, else [defaultValue]. *)
Definition getConfiguration_get (section key : string) (defaultValue : Z)
           (s : State) : Z :=
  let setting := section +:+ "." +:+ key in
  match settings s !! setting with
  | Some v => v
  | None =>
      match List.find (fun d => String.eqb (fst d) setting) contributes_configuration with
      | Some d => snd d
      | None => defaultValue
      end
  end.

(** ** Asynchronous code

    An [async] function runs on the state and settles: it is fulfilled
    with a value or rejected.  [await] is [≫=]; a rejection passes
    through, no function of the source catches one. *)
Inductive Settled (A : Type) : Type :=
| Fulfilled (value : A) : Settled A
| Rejected : Settled A.
Arguments Fulfilled {A} value.
Arguments Rejected {A}.

Definition Async (A : Type) : Type := State -> Settled A * State.

#[global] Instance Async_ret : MRet Async :=
  fun A (a : A) s => (Fulfilled a, s).

#[global] Instance Async_bind : MBind Async :=
  fun A B (f : A -> Async B) (m : Async A) s =>
    match m s with
    | (Fulfilled a, s') => f a s'
    | (Rejected, s') => (Rejected, s')
    end.

(** A synchronous step in asynchronous code. *)
Definition perform (f : State -> State) : Async unit :=
  fun s => (Fulfilled tt, f s).

Definition read {A} (f : State -> A) : Async A :=
  fun s => (Fulfilled (f s), s).

(** [Promise.all(tasks)]: the tasks have all started when it is awaited,
    in the order of the array; it is rejected as soon as one of them
    is. *)
Fixpoint Promise_all {A} (tasks : list (Async A)) : Async (list A) :=
  fun s =>
    match tasks with
    | [] => (Fulfilled [], s)
    | task :: tasks' =>
        let '(r, s1) := task s in
        let '(rs, s2) := Promise_all tasks' s1 in
        (match r, rs with
         | Fulfilled a, Fulfilled l => Fulfilled (a :: l)
         | _, _ => Rejected
         end, s2)
    end.

(** [await fetch(url, { headers: { 'PRIVATE-TOKEN': token } })] where the
    server's answer is [answer]: [None] for a response that is not [ok],
    else the body that [res.json()] gives. *)
Definition fetch {A} (token : string) (request : Request) (answer : Fetched A)
  : Async (option A) :=
  fun s =>
    let s' := effect (Fetch token request) s in
    match answer with
    | NetworkFailure => (Rejected, s')
    | HttpError => (Fulfilled None, s')
    | HttpOk body => (Fulfilled (Some body), s')
    end.

(** ** [TreeItemWithContext] *)

Module Ctx.
Inductive t := folder | project | repo | tag | filter | showAllTags.

#[global] Instance eq_dec : EqDecision t.
Proof. solve_decision. Defined.

Definition to_string (c : t) : string :=
  match c with
  | folder => "folder"
  | project => "project"
  | repo => "repo"
  | tag => "tag"
  | filter => "filter"
  | showAllTags => "showAllTags"
  end.
End Ctx.

Inductive TreeItemCollapsibleState := Collapsible_None | Collapsed | Expanded.

(** [command]: its [arguments] are the item itself and are left out. *)
Record Command := { command_id : string; command_title : string }.

(** A number used as a condition: [undefined] and 0 are falsy. *)
Definition truthy_id (i : option Z) : bool :=
  match i with
  | Some z => negb (z =? 0)
  | None => false
  end.

Definition truthy_opt (o : option string) : bool :=
  match o with
  | Some s => JsString.truthy s
  | None => false
  end.

Module TreeItemWithContext.
Record t := mk {
  label : string;
  collapsibleState : TreeItemCollapsibleState;
  context : Ctx.t;
  fullPath : option string;
  projectId : option Z;
  repoId : option Z;
  tagName : option string;
  imageUrl : option string;
  contextValue : string;
  tooltip : option string;
  iconPath : option string;
  command : option Command
}.

(** The constructor. *)
Definition new (label : string) (collapsibleState : TreeItemCollapsibleState)
           (context : Ctx.t) (fullPath : option string)
           (projectId repoId : option Z) (tagName imageUrl : option string) : t :=
  let item contextValue tooltip iconPath command :=
    mk label collapsibleState context fullPath projectId repoId tagName
       imageUrl contextValue tooltip iconPath command in
  if bool_decide (context = Ctx.tag) && truthy_opt imageUrl then
    item (Ctx.to_string context) imageUrl (Some "tag") None
  else if bool_decide (context = Ctx.filter) then
    item (if JsString.startsWith label "Filter: "
          then "filterWithClear" else Ctx.to_string context)
         None (Some "filter")
         (Some {| command_id := "gitlabRegistryExplorer.filterTagsInline";
                  command_title := "Filter Tags" |})
  else if bool_decide (context = Ctx.showAllTags) then
    item (Ctx.to_string context) None (Some "expand-all")
         (Some {| command_id := "gitlabRegistryExplorer.showAllTags";
                  command_title := "Show All Tags" |})
  else item (Ctx.to_string context) None None None.
End TreeItemWithContext.

(** ** [GitLabRegistryProvider]: the synchronous methods *)

Definition fire : State -> State := effect Fire.

(** [saveCachedProjects()] up to its [await]: the update of the global
    state is requested with the project list of that moment. *)
Definition saveCachedProjects (s : State) : State :=
  effect (GlobalStateUpdate (cachedProjects s))
         (set_globalState_cachedProjects (Some (cachedProjects s)) s).

Definition refresh (s : State) : State :=
  let s := set_cachedProjects [] s in
  let s := set_cachedTags ∅ s in
  let s := set_showAllTagsForRepo ∅ s in
  let s := set_filterTagsQueries ∅ s in
  let s := saveCachedProjects s in
  fire s.

Definition setSearchQuery (query : string) (s : State) : State :=
  fire (set_searchQuery (JsString.trim (JsString.toLowerCase query)) s).

Definition getSearchQuery (s : State) : string := searchQuery s.

Definition setFilterTagsQuery (repoId : Z) (query : string) (s : State) : State :=
  let s :=
    if JsString.truthy query
    then set_filterTagsQueries
           (<[repoId := JsString.trim (JsString.toLowerCase query)]>
              (filterTagsQueries s)) s
    else set_filterTagsQueries (delete repoId (filterTagsQueries s)) s in
  fire s.

(** [this.filterTagsQueries.get(repoId) || ''] *)
Definition getFilterTagsQuery (repoId : Z) (s : State) : string :=
  match filterTagsQueries s !! repoId with
  | Some q => if JsString.truthy q then q else ""
  | None => ""
  end.

Definition getCachedTags (repoId : Z) (s : State) : list GitLabTag.t :=
  match cachedTags s !! repoId with
  | Some tags => tags
  | None => []
  end.

Definition getCachedProjects (s : State) : list GitLabProject.t := cachedProjects s.

Definition clearFilters (s : State) : State :=
  let s := set_searchQuery "" s in
  let s := set_filterTagsQueries ∅ s in
  let s := set_showAllTagsForRepo ∅ s in
  let s := effect (ExecuteCommand
                     "workbench.actions.treeView.gitlabRegistryExplorer.collapseAll") s in
  fire s.

Definition clearFilterForRepo (repoId : Z) (s : State) : State :=
  fire (set_filterTagsQueries (delete repoId (filterTagsQueries s)) s).

Definition showAllTags (repoId : Z) (s : State) : State :=
  fire (set_showAllTagsForRepo ({[repoId]} ∪ showAllTagsForRepo s) s).

Definition clearShowAllTagsForRepo (repoId : Z) (s : State) : State :=
  fire (set_showAllTagsForRepo (showAllTagsForRepo s ∖ {[repoId]}) s).

Definition getFilteredProjects (s : State) : list GitLabProject.t :=
  if negb (JsString.truthy (searchQuery s)) then cachedProjects s
  else List.filter
         (fun p => JsString.includes
                     (JsString.toLowerCase (GitLabProject.path_with_namespace p))
                     (searchQuery s))
         (cachedProjects s).

(** ** [GitLabRegistryProvider]: fetching and [getChildren] *)

Section Provider.

(** The registry the extension talks to. *)
Variable server : Server.

(** [a.localeCompare(b)] and [date.toLocaleString()] depend on the
    locale and time zone of the host. *)
Variable localeCompare : string -> string -> Z.
Variable toLocaleString : jsnum -> string.

(** One check of [projectChecks]: [null] is [None]. *)
Definition projectCheck (token : string) (project : GitLabProject.t)
  : Async (option GitLabProject.t) :=
  if negb (GitLabProject.container_registry_enabled project) then mret None
  else
    reposRes ← fetch token (GET_repositories (GitLabProject.id project))
                   (repositories server token (GitLabProject.id project));
    match reposRes with
    | Some repos =>
        if (0 <? List.length repos)%nat then mret (Some project) else mret None
    | None => mret None
    end.

(** The loop of [fetchProjects], on the pages the server still has. *)
Fixpoint fetchProjects_from (token : string) (page : Z)
         (pages : list (Fetched (list GitLabProject.t)))
         (projects : list GitLabProject.t) : Async (list GitLabProject.t) :=
  match pages with
  | [] =>
      (* an empty page: [break] *)
      _ ← fetch token (GET_projects page) (HttpOk ([] : list GitLabProject.t));
      mret projects
  | answer :: pages' =>
      res ← fetch token (GET_projects page) answer;
      match res with
      | None =>
          _ ← perform (effect (ShowErrorMessage
                 "Failed to fetch projects. Check your token and network connection."));
          mret projects
      | Some pageProjects =>
          if (List.length pageProjects =? 0)%nat then mret projects
          else
            checks ← Promise_all (List.map (projectCheck token) pageProjects);
            let filteredPageProjects := omap id checks in
            fetchProjects_from token (page + 1) pages'
                               (projects ++ filteredPageProjects)
      end
  end.

Definition fetchProjects (token : string) : Async (list GitLabProject.t) :=
  fetchProjects_from token 1 (projects server token) [].

Definition fetchRegistryRepos (token : string) (projectId : Z)
  : Async (list GitLabRegistryRepo.t) :=
  res ← fetch token (GET_repositories projectId)
            (repositories server token projectId);
  match res with
  | None => mret []
  | Some repos => mret repos
  end.

(** The loop of [fetchRegistryTags], on the pages the server still
    has. *)
Fixpoint fetchRegistryTags_from (token : string) (projectId repoId page : Z)
         (pages : list (Fetched (list GitLabTag.t)))
         (allTags : list GitLabTag.t) : Async (list GitLabTag.t) :=
  match pages with
  | [] =>
      _ ← fetch token (GET_tags projectId repoId page)
              (HttpOk ([] : list GitLabTag.t));
      mret allTags
  | answer :: pages' =>
      res ← fetch token (GET_tags projectId repoId page) answer;
      match res with
      | None => mret allTags
      | Some pageTags =>
          if (List.length pageTags =? 0)%nat then mret allTags
          else fetchRegistryTags_from token projectId repoId (page + 1) pages'
                                      (allTags ++ pageTags)
      end
  end.

(** The body of [allTags.map(async tag => ...)]. *)
Definition enrichTag (token : string) (projectId repoId : Z)
           (tag : GitLabTag.t) : Async GitLabTag.t :=
  detailRes ← fetch token (GET_tag projectId repoId (GitLabTag.name tag))
                  (tag_detail server token projectId repoId (GitLabTag.name tag));
  match detailRes with
  | None => mret (GitLabTag.name_only (GitLabTag.name tag))
  | Some detail =>
      mret (GitLabTag.mk (GitLabTag.name tag) (GitLabTag.created_at detail)
                         (GitLabTag.total_size detail))
  end.

(** [new Date(tag.created_at || '').getTime()] *)
Definition created_time (tag : GitLabTag.t) : jsnum :=
  JsDate.getTime (match GitLabTag.created_at tag with
                  | Some s => s
                  | None => ""
                  end).

(** The comparison function of the final sort. *)
Definition by_created_at_desc (a b : GitLabTag.t) : jsnum :=
  jsnum_sub (created_time b) (created_time a).

Definition fetchRegistryTags (token : string) (projectId repoId : Z)
  : Async (list GitLabTag.t) :=
  allTags ← fetchRegistryTags_from token projectId repoId 1
              (tags server token projectId repoId) [];
  enrichedTags ← Promise_all (List.map (enrichTag token projectId repoId) allTags);
  mret (JsArray.sort by_created_at_desc enrichedTags).

(** Sorting tree items by label, with [localeCompare]. *)
Definition sort_by_label : list TreeItemWithContext.t -> list TreeItemWithContext.t :=
  JsArray.sort (fun a b => Num (localeCompare (TreeItemWithContext.label a)
                                              (TreeItemWithContext.label b))).

(** *** Root level *)

(** What the root shows once the project list is there; it reads
    [this.cachedProjects] and [this.searchQuery]. *)
Definition root_items (s : State) : list TreeItemWithContext.t :=
  let filteredProjects := getFilteredProjects s in
  if (List.length filteredProjects =? 0)%nat then
    [TreeItemWithContext.new "No projects found" Collapsible_None Ctx.tag
                             None None None None None]
  else if JsString.truthy (searchQuery s) then
    sort_by_label
      (List.map
         (fun p =>
            (* when searching, the group is part of the label *)
            let pwn := GitLabProject.path_with_namespace p in
            let namespacePath :=
              JsString.substring_to (JsString.lastIndexOf "/" pwn) pwn in
            let label := GitLabProject.name p +:+ " (" +:+ namespacePath +:+ ")" in
            TreeItemWithContext.new label Collapsed Ctx.project (Some pwn)
                                    (Some (GitLabProject.id p)) None None None)
         filteredProjects)
  else
    let rootFolders :=
      fold_left
        (fun set p =>
           JsArray.Set_add
             (JsString.split_first "/"
                (Namespace.full_path (GitLabProject.namespace p))) set)
        filteredProjects [] in
    List.map
      (fun root => TreeItemWithContext.new root Collapsed Ctx.folder
                                           (Some root) None None None None)
      (JsArray.sort_strings rootFolders).

Definition getChildren_root (token : string) : Async (list TreeItemWithContext.t) :=
  n ← read (fun s => List.length (cachedProjects s));
  _ ← (if (n =? 0)%nat then
         fetched ← fetchProjects token;
         _ ← perform (set_cachedProjects fetched);
         perform saveCachedProjects
       else mret tt);
  read root_items.

(** *** Folder level *)
Definition getChildren_folder (element : TreeItemWithContext.t)
  : Async (list TreeItemWithContext.t) :=
  match TreeItemWithContext.fullPath element with
  | None =>
      _ ← perform (effect (ConsoleError "Folder element is missing fullPath:"));
      mret []
  | Some fullPath =>
      projects ← read cachedProjects;
      let full_path p := Namespace.full_path (GitLabProject.namespace p) in
      let directProjects :=
        List.filter (fun p => String.eqb (full_path p) fullPath) projects in
      let projectItems :=
        List.map
          (fun p => TreeItemWithContext.new
                      (GitLabProject.name p) Collapsed Ctx.project
                      (Some (GitLabProject.path_with_namespace p))
                      (Some (GitLabProject.id p)) None None None)
          directProjects in
      let subfolderPaths :=
        fold_left
          (fun set p =>
             if JsString.startsWith (full_path p) (fullPath +:+ "/") then
               let relativePath :=
                 JsString.slice_from (String.length fullPath + 1) (full_path p) in
               let nextSegment := JsString.split_first "/" relativePath in
               JsArray.Set_add (fullPath +:+ "/" +:+ nextSegment) set
             else set)
          projects [] in
      let folderItems :=
        List.map
          (fun path => TreeItemWithContext.new (JsString.split_pop "/" path)
                                               Collapsed Ctx.folder (Some path)
                                               None None None None)
          subfolderPaths in
      mret (sort_by_label (projectItems ++ folderItems))
  end.

(** *** Project level *)
Definition getChildren_project (token : string) (element : TreeItemWithContext.t)
           (projectId : Z) : Async (list TreeItemWithContext.t) :=
  repos ← fetchRegistryRepos token projectId;
  mret (List.map
          (fun repo =>
             TreeItemWithContext.new
               ("Repository: " +:+ GitLabRegistryRepo.path repo) Collapsed Ctx.repo
               (TreeItemWithContext.fullPath element)
               (TreeItemWithContext.projectId element)
               (Some (GitLabRegistryRepo.id repo)) None None)
          repos).

(** *** Repository level *)
Definition filterItem (element : TreeItemWithContext.t) (filterTagsQuery : string)
  : TreeItemWithContext.t :=
  TreeItemWithContext.new
    (if JsString.truthy filterTagsQuery
     then "Filter: " +:+ filterTagsQuery else "Filter tags...")
    Collapsible_None Ctx.filter
    (TreeItemWithContext.fullPath element)
    (TreeItemWithContext.projectId element)
    (TreeItemWithContext.repoId element) None None.

Definition noMatchItem : TreeItemWithContext.t :=
  TreeItemWithContext.new "No tags match the filter" Collapsible_None Ctx.tag
                          None None None None None.

Definition tagItem (element : TreeItemWithContext.t)
           (project : option GitLabProject.t) (tag : GitLabTag.t)
  : TreeItemWithContext.t :=
  let imageUrl :=
    "registry.gitlab.com/" +:+
    (match project with
     | Some p => GitLabProject.path_with_namespace p
     | None => "undefined"
     end) +:+ ":" +:+ GitLabTag.name tag in
  let label :=
    GitLabTag.name tag +:+ "  —  " +:+
    (match GitLabTag.created_at tag with
     | Some created_at =>
         if JsString.truthy created_at
         then toLocaleString (JsDate.getTime created_at)
         else "unknown date"
     | None => "unknown date"
     end) +:+ " (" +:+ formatBytes (GitLabTag.total_size tag) +:+ ")" in
  TreeItemWithContext.new label Collapsible_None Ctx.tag
                          (TreeItemWithContext.fullPath element)
                          (TreeItemWithContext.projectId element)
                          (TreeItemWithContext.repoId element)
                          (Some (GitLabTag.name tag)) (Some imageUrl).

Definition showAllItem (element : TreeItemWithContext.t) (remainingTags : Z)
  : TreeItemWithContext.t :=
  TreeItemWithContext.new
    ("Show All Tags… (" +:+ JsString.of_Z remainingTags +:+ " more)")
    Collapsible_None Ctx.showAllTags
    (TreeItemWithContext.fullPath element)
    (TreeItemWithContext.projectId element)
    (TreeItemWithContext.repoId element) None None.

(** [repoPath], which the source computes from the label, is used
    nowhere and left out. *)
Definition getChildren_repo (token : string) (element : TreeItemWithContext.t)
           (projectId repoId : Z) : Async (list TreeItemWithContext.t) :=
  project ← read (fun s => List.find (fun p => GitLabProject.id p =? projectId)
                                     (cachedProjects s));
  (* fetch tags if not already cached *)
  cached ← read (fun s => cachedTags s !! repoId);
  tags ← match cached with
         | Some tags => mret tags
         | None =>
             tags ← fetchRegistryTags token projectId repoId;
             _ ← perform (fun s => set_cachedTags (<[repoId := tags]> (cachedTags s)) s);
             mret tags
         end;
  filterTagsQuery ← read (getFilterTagsQuery repoId);
  let filteredTags :=
    if JsString.truthy filterTagsQuery
    then List.filter
           (fun tag => JsString.includes (JsString.toLowerCase (GitLabTag.name tag))
                                         filterTagsQuery)
           tags
    else tags in
  if (List.length filteredTags =? 0)%nat then
    mret [filterItem element filterTagsQuery; noMatchItem]
  else
    maxTagsToDisplay ← read (getConfiguration_get "gitlabRegistryExplorer"
                                                  "maxTagsToDisplay" 50);
    showAll ← read (fun s => bool_decide (repoId ∈ showAllTagsForRepo s));
    let tagsToShow :=
      if (showAll : bool) then filteredTags
      else JsArray.slice_to maxTagsToDisplay filteredTags in
    let tagItems := List.map (tagItem element project) tagsToShow in
    let remainingTags :=
      Z.of_nat (List.length filteredTags) - Z.of_nat (List.length tagsToShow) in
    let showAllItems :=
      if 0 <? remainingTags then [showAllItem element remainingTags] else [] in
    mret (filterItem element filterTagsQuery :: tagItems ++ showAllItems).

(** *** [getChildren]; the root is [None]. *)
Definition getChildren (element : option TreeItemWithContext.t)
  : Async (list TreeItemWithContext.t) :=
  token ← read secrets_gitlabToken;
  match token with
  | None => mret []
  | Some token =>
      if negb (JsString.truthy token) then mret []
      else
        match element with
        | None => getChildren_root token
        | Some element =>
            let context := TreeItemWithContext.context element in
            if bool_decide (context = Ctx.folder) then getChildren_folder element
            else if bool_decide (context = Ctx.project)
                    && truthy_id (TreeItemWithContext.projectId element) then
              getChildren_project token element
                (default 0 (TreeItemWithContext.projectId element))
            else if bool_decide (context = Ctx.repo)
                    && truthy_id (TreeItemWithContext.projectId element)
                    && truthy_id (TreeItemWithContext.repoId element) then
              getChildren_repo token element
                (default 0 (TreeItemWithContext.projectId element))
                (default 0 (TreeItemWithContext.repoId element))
            else mret []
        end
  end.
End Provider.

(** ** What a computation comes to

    The vocabulary of the properties below. *)

(** [l] is appended to the log. *)
Definition emit (l : list Effect) (s : State) : State := set_log (log s ++ l) s.

(** [m] settles as [r] whatever the state is, and does nothing to the
    state but append [l] to the log. *)
Definition network_only {A} (m : Async A) (r : Settled A) (l : list Effect) : Prop :=
  forall s, m s = (r, emit l s).

(** [m] only talks to the network. *)
Definition oblivious {A} (m : Async A) : Prop :=
  exists r l, network_only m r l.

(** The project list the root works on when [fetchProjects] settles as
    [fetched]: the cached one unless it is empty. *)
Definition effective_projects (fetched : Settled (list GitLabProject.t)) (s : State)
  : Settled (list GitLabProject.t) :=
  match cachedProjects s with
  | [] => fetched
  | ps => Fulfilled ps
  end.

(** The items of a paginated listing: the pages up to the first one that
    is empty or not [ok]; rejected when a request fails before. *)
Fixpoint listing {A} (pages : list (Fetched (list A))) : Settled (list A) :=
  match pages with
  | [] => Fulfilled []
  | NetworkFailure :: _ => Rejected
  | HttpError :: _ => Fulfilled []
  | HttpOk [] :: _ => Fulfilled []
  | HttpOk items :: pages' =>
      match listing pages' with
      | Fulfilled l => Fulfilled (items ++ l)
      | Rejected => Rejected
      end
  end.

(** All values, unless one is a rejection. *)
Fixpoint all_settled {A} (l : list (Settled A)) : Settled (list A) :=
  match l with
  | [] => Fulfilled []
  | r :: l' =>
      match r, all_settled l' with
      | Fulfilled a, Fulfilled al => Fulfilled (a :: al)
      | _, _ => Rejected
      end
  end.

(** What a tag of the listing becomes, by the answer to the request for
    its detail. *)
Definition enriched (server : Server) (token : string) (projectId repoId : Z)
           (tag : GitLabTag.t) : Settled GitLabTag.t :=
  match tag_detail server token projectId repoId (GitLabTag.name tag) with
  | NetworkFailure => Rejected
  | HttpError => Fulfilled (GitLabTag.name_only (GitLabTag.name tag))
  | HttpOk detail =>
      Fulfilled (GitLabTag.mk (GitLabTag.name tag) (GitLabTag.created_at detail)
                              (GitLabTag.total_size detail))
  end.

(** The same when every request for a detail is answered: name only
    for an error status. *)
Definition enriched_or_name_only (server : Server) (token : string)
           (projectId repoId : Z) (tag : GitLabTag.t) : GitLabTag.t :=
  match tag_detail server token projectId repoId (GitLabTag.name tag) with
  | HttpOk detail =>
      GitLabTag.mk (GitLabTag.name tag) (GitLabTag.created_at detail)
                   (GitLabTag.total_size detail)
  | _ => GitLabTag.name_only (GitLabTag.name tag)
  end.

(** The claim C9 as it is written: whatever happens to the requests for
    details, the tags of the listing all come back, name only where the
    request failed and enriched where it succeeded. *)
Definition batch_survives_detail_failures (server : Server) (token : string)
           (projectId repoId : Z) (s : State) : Prop :=
  forall allTags,
    listing (tags server token projectId repoId) = Fulfilled allTags ->
    exists result,
      fst (fetchRegistryTags server token projectId repoId s) = Fulfilled result /\
      forall tag, In tag allTags ->
        In (enriched_or_name_only server token projectId repoId tag) result.

(** Digits, a point and two digits. *)
Definition two_decimals (m : string) : Prop :=
  exists a b : string,
    m = a +:+ "." +:+ b /\
    a <> "" /\ JsNumber.all_digits a = true /\
    String.length b = 2%nat /\ JsNumber.all_digits b = true.

(** The claim C7 as it is written, for one byte count: the output is a
    number with two decimals, a space and one of the units. *)
Definition two_decimals_and_unit (bytes : Z) : Prop :=
  exists m u : string,
    formatBytes (Some bytes) = m +:+ " " +:+ u /\ two_decimals m /\ In u units.

(** A repository node, with the ids it carries. *)
Definition repo_node (e : TreeItemWithContext.t) (projectId repoId : Z) : Prop :=
  TreeItemWithContext.context e = Ctx.repo /\
  TreeItemWithContext.projectId e = Some projectId /\
  TreeItemWithContext.repoId e = Some repoId /\
  projectId <> 0 /\ repoId <> 0.

(** The claim C2 as it is written: after [refresh] nothing is left, the
    global search string included. *)
Definition refresh_clears_everything (s : State) : Prop :=
  cachedProjects (refresh s) = [] /\
  cachedTags (refresh s) = ∅ /\
  showAllTagsForRepo (refresh s) = ∅ /\
  searchQuery (refresh s) = "" /\
  filterTagsQueries (refresh s) = ∅ /\
  globalState_cachedProjects (refresh s) = Some [] /\
  log (refresh s) = log s ++ [GlobalStateUpdate []; Fire].

(** The claim C3 as it is written: an empty or blank query removes the
    entry of the repository. *)
Definition blank_query_removes_entry (repoId : Z) (query : string) (s : State) : Prop :=
  JsString.all_space query = true ->
  filterTagsQueries (setFilterTagsQuery repoId query s) !! repoId = None /\
  getFilterTagsQuery repoId (setFilterTagsQuery repoId query s) = "".

(** Ascending by [key]. *)
Definition key_le {A} (key : A -> Z) (a b : A) : Prop := key a <= key b.

(** A tag whose timestamp is there and valid, and its time. *)
Definition dated (tag : GitLabTag.t) : Prop := created_time tag <> NaN.

Definition time_of (tag : GitLabTag.t) : Z :=
  match created_time tag with
  | Num t => t
  | NaN => 0
  end.

(** ** Sample data *)

Module Sample.
Definition app : GitLabProject.t :=
  GitLabProject.mk 1 "app" "g/sub/app" (Namespace.mk "g/sub") true.

(** A tag the way the listing gives it, and three tags once enriched:
    [newer] was created after [older], [undated] has no timestamp. *)
Definition listed (name : string) : GitLabTag.t := GitLabTag.name_only name.
Definition newer : GitLabTag.t :=
  GitLabTag.mk "v2" (Some "2021-03-01T00:00:00.000Z") (Some 1536).
Definition undated : GitLabTag.t := GitLabTag.mk "latest" None None.
Definition older : GitLabTag.t :=
  GitLabTag.mk "v1" (Some "2020-03-01T00:00:00.000Z") (Some 1048576).

(** Thirty tags, [t0] to [t29]. *)
Definition thirty : list GitLabTag.t :=
  List.map (fun i => GitLabTag.mk ("t" +:+ JsString.of_Z (Z.of_nat i)) None (Some 2048))
           (seq 0 30).

(** The node of repository 7 of project 1. *)
Definition repo7 : TreeItemWithContext.t :=
  TreeItemWithContext.new "Repository: g/sub/app" Collapsed Ctx.repo
                          (Some "g/sub/app") (Some 1) (Some 7) None None.

(** A provider that holds a token and nothing else. *)
Definition fresh : State :=
  mkState [] ∅ ∅ "" ∅ (Some "glpat-token") None ∅ [].

(** Repository 7 has its thirty tags in cache. *)
Definition with_thirty : State :=
  set_cachedTags {[ 7 := thirty ]} (set_cachedProjects [app] fresh).

(** A search for [app] is active, and repository 7 is filtered and
    shown in full. *)
Definition searching : State :=
  mkState [app] {[ 7 := thirty ]} {[ 7 ]} "app" {[ 7 := "t1" ]}
          (Some "glpat-token") (Some [app]) ∅ [].

(** U+00A0, the no-break space, in UTF-8. *)
Definition no_break_space : string :=
  String (ascii_of_nat 194) (String (ascii_of_nat 160) "").

(** No token has been stored. *)
Definition no_token : State := set_secrets_gitlabToken None searching.

(** A registry with one project, one repository and three tags; the
    detail of [latest] is answered with an error status. *)
Definition registry : Server := {|
  projects := fun _ => [HttpOk [app]];
  repositories := fun _ _ => HttpOk [GitLabRegistryRepo.mk 7 "" "g/sub/app"];
  tags := fun _ _ _ => [HttpOk [listed "v2"; listed "latest"; listed "v1"]];
  tag_detail := fun _ _ _ name =>
    if String.eqb name "v2" then HttpOk newer
    else if String.eqb name "v1" then HttpOk older
    else HttpError
|}.

(** The same registry when the request for the detail of [latest] does
    not get through. *)
Definition unreachable_detail : Server := {|
  projects := projects registry;
  repositories := repositories registry;
  tags := tags registry;
  tag_detail := fun token projectId repoId name =>
    if String.eqb name "latest" then NetworkFailure
    else tag_detail registry token projectId repoId name
|}.

Definition localeCompare (a b : string) : Z :=
  if JsString.ltb a b then -1 else if JsString.ltb b a then 1 else 0.

Definition toLocaleString (t : jsnum) : string :=
  match t with
  | NaN => "Invalid Date"
  | Num ms => JsString.of_Z ms
  end.
End Sample.

(** ** The constructor and [loadCachedProjects] *)

(** [globalState.get('cachedProjects', [])] gives the stored list, or the
    empty array when nothing is stored; both are arrays. *)
Definition loadCachedProjects (s : State) : State :=
  match globalState_cachedProjects s with
  | Some cached => set_cachedProjects cached s
  | None => set_cachedProjects [] s
  end.

(** [new GitLabRegistryProvider(context)], in a host that holds [token],
    the stored project list [stored] and the settings [user_settings]. *)
Definition new_GitLabRegistryProvider (token : option string)
           (stored : option (list GitLabProject.t)) (user_settings : gmap string Z)
  : State :=
  loadCachedProjects (mkState [] ∅ ∅ "" ∅ token stored user_settings []).

(** ** [activate]: event handlers and commands on the provider *)

(** [treeView.onDidCollapseElement] *)
Definition onDidCollapseElement (element : TreeItemWithContext.t) (s : State) : State :=
  if bool_decide (TreeItemWithContext.context element = Ctx.repo)
     && truthy_id (TreeItemWithContext.repoId element)
  then
    let repoId := default 0 (TreeItemWithContext.repoId element) in
    clearShowAllTagsForRepo repoId (clearFilterForRepo repoId s)
  else s.

(** [gitlabRegistryExplorer.setToken], where [input] is what the input
    box gives: [undefined] when it is dismissed. *)
Definition command_setToken (input : option string) (s : State) : State :=
  if truthy_opt input then refresh (set_secrets_gitlabToken input s) else s.

(** [gitlabRegistryExplorer.clearTagFilter] *)
Definition command_clearTagFilter (item : TreeItemWithContext.t) (s : State) : State :=
  if truthy_id (TreeItemWithContext.repoId item)
  then clearFilterForRepo (default 0 (TreeItemWithContext.repoId item)) s
  else s.

(** [gitlabRegistryExplorer.showAllTags] *)
Definition command_showAllTags (item : TreeItemWithContext.t) (s : State) : State :=
  if truthy_id (TreeItemWithContext.repoId item)
  then showAllTags (default 0 (TreeItemWithContext.repoId item)) s
  else s.

(** *** The two quick picks *)

Section QuickPick.
Variable localeCompare : string -> string -> Z.

(** [.sort((a, b) => a.label.localeCompare(b.label))] on items that have
    a label and nothing else. *)
Definition sort_labels : list string -> list string :=
  JsArray.sort (fun a b => Num (localeCompare a b)).

(** [searchProjects]: the handler of [onDidChangeValue]; [projects] is
    the list the command read from [getCachedProjects()] when the quick
    pick was opened.  The result is the state and the new items. *)
Definition searchProjects_onDidChangeValue (projects : list GitLabProject.t)
           (query : string) (s : State) : State * list string :=
  let s := setSearchQuery query s in
  let lowerQuery := JsString.trim (JsString.toLowerCase query) in
  (s,
   sort_labels
     (List.map GitLabProject.path_with_namespace
        (List.filter
           (fun project =>
              if JsString.truthy lowerQuery
              then JsString.includes
                     (JsString.toLowerCase (GitLabProject.path_with_namespace project))
                     lowerQuery
              else true)
           projects))).

(** [onDidAccept] of both quick picks chooses the label of the selected
    suggestion, or else the typed value. *)
Definition accepted (selected : option string) (value : string) : string :=
  match selected with
  | Some label => label
  | None => value
  end.

Definition searchProjects_onDidAccept (selected : option string) (value : string)
           (s : State) : State :=
  setSearchQuery (accepted selected value) s.

(** [filterTagsInline]: the items the quick pick opens with; [tags] is
    what [getCachedTags(item.repoId)] gave. *)
Definition filterTagsInline_items (tags : list GitLabTag.t) : list string :=
  sort_labels (List.map GitLabTag.name tags).

Definition filterTagsInline_onDidChangeValue (repoId : Z) (tags : list GitLabTag.t)
           (query : string) (s : State) : State * list string :=
  let lowerQuery := JsString.trim (JsString.toLowerCase query) in
  let s := setFilterTagsQuery repoId query s in
  (s,
   sort_labels
     (List.map GitLabTag.name
        (List.filter
           (fun tag => JsString.includes (JsString.toLowerCase (GitLabTag.name tag))
                                         lowerQuery)
           tags))).

Definition filterTagsInline_onDidAccept (repoId : Z) (selected : option string)
           (value : string) (s : State) : State :=
  setFilterTagsQuery repoId (accepted selected value) s.
End QuickPick.

(** *** The commands on a tag: clipboard and terminals

    These commands leave the provider alone; they act on the window: its
    clipboard, its terminals (by name, in the order they were created)
    and what it shows. *)
Inductive WindowEffect : Type :=
| ClipboardWriteText (text : string)
| ShowInformationMessage (message : string)
| WindowShowErrorMessage (message : string)
| CreateTerminal (name : string)
| TerminalShow (name : string)
| TerminalSendText (name text : string).

Record Window := mkWindow {
  clipboard : option string;
  terminals : list string;
  window_log : list WindowEffect
}.

Definition window_effects (l : list WindowEffect) (w : Window) : Window :=
  mkWindow (clipboard w) (terminals w) (window_log w ++ l).

(** [item.context === 'tag' && item.imageUrl] *)
Definition tag_with_image (item : TreeItemWithContext.t) : bool :=
  bool_decide (TreeItemWithContext.context item = Ctx.tag)
  && truthy_opt (TreeItemWithContext.imageUrl item).

Definition copyImageUrl (item : TreeItemWithContext.t) (w : Window) : Window :=
  if tag_with_image item then
    let imageUrl := default "" (TreeItemWithContext.imageUrl item) in
    window_effects [ClipboardWriteText imageUrl;
                    ShowInformationMessage ("Copied to clipboard: " +:+ imageUrl)]
                   (mkWindow (Some imageUrl) (terminals w) (window_log w))
  else window_effects [WindowShowErrorMessage "Unable to copy image URL."] w.

(** [terminals.find(t => t.name === name) || createTerminal(name)],
    then [show()] and [sendText(text)]. *)
Definition send_to_terminal (name text : string) (w : Window) : Window :=
  let w :=
    if existsb (String.eqb name) (terminals w) then w
    else window_effects [CreateTerminal name]
                        (mkWindow (clipboard w) (terminals w ++ [name]) (window_log w)) in
  window_effects [TerminalShow name; TerminalSendText name text] w.

Definition executeDockerPull (item : TreeItemWithContext.t) (w : Window) : Window :=
  if tag_with_image item then
    let dockerPullCommand :=
      "docker pull " +:+ default "" (TreeItemWithContext.imageUrl item) in
    window_effects [ShowInformationMessage ("Executing: " +:+ dockerPullCommand)]
                   (send_to_terminal "GitLab Registry" dockerPullCommand w)
  else window_effects
         [WindowShowErrorMessage "Unable to execute Docker pull command."] w.

Definition scanImageWithTrivy (item : TreeItemWithContext.t) (w : Window) : Window :=
  if tag_with_image item then
    let trivyScanCommand :=
      "trivy image " +:+ default "" (TreeItemWithContext.imageUrl item) in
    window_effects
      [ShowInformationMessage ("Scanning image with Trivy: " +:+ trivyScanCommand)]
      (send_to_terminal "GitLab Registry Trivy Scan" trivyScanCommand w)
  else window_effects [WindowShowErrorMessage "Unable to scan image with Trivy."] w.

(** ** More vocabulary *)

(** The cached tags that pass the filter of a repository, in the order
    of the cache. *)
Definition matching_tags (filterTagsQuery : string) (tags : list GitLabTag.t)
  : list GitLabTag.t :=
  if JsString.truthy filterTagsQuery
  then List.filter
         (fun tag => JsString.includes (JsString.toLowerCase (GitLabTag.name tag))
                                       filterTagsQuery)
         tags
  else tags.

(** The nodes that [getChildren] builds, by level. *)

Definition no_projects_item : TreeItemWithContext.t :=
  TreeItemWithContext.new "No projects found" Collapsible_None Ctx.tag
                          None None None None None.

(** A project in the result of a search: the namespace is in the label. *)
Definition search_item (p : GitLabProject.t) : TreeItemWithContext.t :=
  let pwn := GitLabProject.path_with_namespace p in
  TreeItemWithContext.new
    (GitLabProject.name p +:+ " (" +:+
     JsString.substring_to (JsString.lastIndexOf "/" pwn) pwn +:+ ")")
    Collapsed Ctx.project (Some pwn) (Some (GitLabProject.id p)) None None None.

(** A folder: the label is the last segment of the path. *)
Definition folder_item (path : string) : TreeItemWithContext.t :=
  TreeItemWithContext.new (JsString.split_pop "/" path) Collapsed Ctx.folder
                          (Some path) None None None None.

(** A folder of the root: its path is its label. *)
Definition root_folder_item (root : string) : TreeItemWithContext.t :=
  TreeItemWithContext.new root Collapsed Ctx.folder (Some root) None None None None.

(** A project in its folder. *)
Definition project_item (p : GitLabProject.t) : TreeItemWithContext.t :=
  TreeItemWithContext.new (GitLabProject.name p) Collapsed Ctx.project
                          (Some (GitLabProject.path_with_namespace p))
                          (Some (GitLabProject.id p)) None None None.

(** A repository of the project [element]. *)
Definition repo_item (element : TreeItemWithContext.t) (repo : GitLabRegistryRepo.t)
  : TreeItemWithContext.t :=
  TreeItemWithContext.new
    ("Repository: " +:+ GitLabRegistryRepo.path repo) Collapsed Ctx.repo
    (TreeItemWithContext.fullPath element)
    (TreeItemWithContext.projectId element)
    (Some (GitLabRegistryRepo.id repo)) None None.

(** The namespace of a project, and its first segment. *)
Definition namespace_of (p : GitLabProject.t) : string :=
  Namespace.full_path (GitLabProject.namespace p).

Definition root_of (p : GitLabProject.t) : string :=
  JsString.split_first "/" (namespace_of p).

(** The folder one level below [fullPath] that leads to [p], when the
    namespace of [p] is below [fullPath]. *)
Definition subfolder_of (fullPath : string) (p : GitLabProject.t) : option string :=
  if JsString.startsWith (namespace_of p) (fullPath +:+ "/")
  then Some (fullPath +:+ "/" +:+
             JsString.split_first "/"
               (JsString.slice_from (String.length fullPath + 1) (namespace_of p)))
  else None.

(** What one check of [fetchProjects] comes to. *)
Definition check_result (server : Server) (token : string) (project : GitLabProject.t)
  : Settled (option GitLabProject.t) :=
  if negb (GitLabProject.container_registry_enabled project) then Fulfilled None
  else
    match repositories server token (GitLabProject.id project) with
    | NetworkFailure => Rejected
    | HttpError => Fulfilled None
    | HttpOk repos =>
        Fulfilled (if (0 <? List.length repos)%nat then Some project else None)
    end.

(** What [fetchProjects] comes to, from the pages and the projects it
    has so far. *)
Fixpoint projects_result (server : Server) (token : string)
         (pages : list (Fetched (list GitLabProject.t)))
         (projects : list GitLabProject.t) : Settled (list GitLabProject.t) :=
  match pages with
  | [] => Fulfilled projects
  | NetworkFailure :: _ => Rejected
  | HttpError :: _ => Fulfilled projects
  | HttpOk [] :: _ => Fulfilled projects
  | HttpOk pageProjects :: pages' =>
      match all_settled (List.map (check_result server token) pageProjects) with
      | Fulfilled checks => projects_result server token pages' (projects ++ omap id checks)
      | Rejected => Rejected
      end
  end.

(** A project that [fetchProjects] keeps: its registry is enabled and
    the request for its repositories gave at least one. *)
Definition has_registry (server : Server) (token : string) (p : GitLabProject.t) : Prop :=
  GitLabProject.container_registry_enabled p = true /\
  exists repos,
    repositories server token (GitLabProject.id p) = HttpOk repos /\ repos <> [].

(** What [getChildren] leaves alone in going from [s] to [s']: the
    search, the tag filters, the show-all set, the token and the
    settings, the log but for what is appended, and every tag list that
    was in cache.  The project list and the stored list are as they were,
    unless the root was resolved on an empty project list: then what is
    cached is what is stored. *)
Definition getChildren_frame (element : option TreeItemWithContext.t) (s s' : State)
  : Prop :=
  searchQuery s' = searchQuery s /\
  filterTagsQueries s' = filterTagsQueries s /\
  showAllTagsForRepo s' = showAllTagsForRepo s /\
  secrets_gitlabToken s' = secrets_gitlabToken s /\
  settings s' = settings s /\
  (exists l, log s' = log s ++ l) /\
  (forall repoId tags,
      cachedTags s !! repoId = Some tags -> cachedTags s' !! repoId = Some tags) /\
  ((cachedProjects s' = cachedProjects s /\
    globalState_cachedProjects s' = globalState_cachedProjects s) \/
   (element = None /\ cachedProjects s = [] /\
    globalState_cachedProjects s' = Some (cachedProjects s'))).

(** ** Sequences of commands on tags *)

Inductive TagCommand : Type := CopyImageUrl | ExecuteDockerPull | ScanImageWithTrivy.

Definition run_tag_command (c : TagCommand) (item : TreeItemWithContext.t)
  : Window -> Window :=
  match c with
  | CopyImageUrl => copyImageUrl item
  | ExecuteDockerPull => executeDockerPull item
  | ScanImageWithTrivy => scanImageWithTrivy item
  end.

(** The commands of [cs], first one first, each on its item. *)
Definition run_tag_commands (cs : list (TagCommand * TreeItemWithContext.t))
           (w : Window) : Window :=
  fold_left (fun w c => run_tag_command (fst c) (snd c) w) cs w.

(** The image a tag node stands for. *)
Definition image_of (project : option GitLabProject.t) (tag : GitLabTag.t) : string :=
  "registry.gitlab.com/" +:+
  match project with
  | Some p => GitLabProject.path_with_namespace p
  | None => "undefined"
  end +:+ ":" +:+ GitLabTag.name tag.

(** The terminals of [w'] are those of [w] and then, once each, some of
    the two terminals of the extension that [w] did not have. *)
Definition terminals_grow (w w' : Window) : Prop :=
  exists made : list string,
    terminals w' = terminals w ++ made /\
    NoDup made /\
    forall name,
      In name made ->
      ~ In name (terminals w) /\
      (name = "GitLab Registry" \/ name = "GitLab Registry Trivy Scan").

(** ** The provider over time

    What happens to a provider, one event at a time: the tree view asks
    for the children of a node or reports that a node was collapsed, the
    user runs a command or types in a quick pick.  Each event is handled
    to its end before the next one. *)
Inductive Event : Type :=
| GetChildren (element : option TreeItemWithContext.t)
| DidCollapseElement (element : TreeItemWithContext.t)
| Refresh
| SetToken (input : option string)
| SearchProjects_DidChangeValue (query : string)
| SearchProjects_DidAccept (selected : option string) (value : string)
| ClearFilters
| FilterTagsInline_DidChangeValue (item : TreeItemWithContext.t) (query : string)
| FilterTagsInline_DidAccept (item : TreeItemWithContext.t)
                             (selected : option string) (value : string)
| ClearTagFilter (item : TreeItemWithContext.t)
| ShowAllTags (item : TreeItemWithContext.t).

Section Events.
Variable server : Server.
Variable localeCompare : string -> string -> Z.
Variable toLocaleString : jsnum -> string.

(** [filterTagsInline] opens no quick pick on an item without
    [repoId]. *)
Definition handle (event : Event) (s : State) : State :=
  match event with
  | GetChildren element =>
      snd (getChildren server localeCompare toLocaleString element s)
  | DidCollapseElement element => onDidCollapseElement element s
  | Refresh => refresh s
  | SetToken input => command_setToken input s
  | SearchProjects_DidChangeValue query =>
      fst (searchProjects_onDidChangeValue localeCompare (getCachedProjects s) query s)
  | SearchProjects_DidAccept selected value =>
      searchProjects_onDidAccept selected value s
  | ClearFilters => clearFilters s
  | FilterTagsInline_DidChangeValue item query =>
      if truthy_id (TreeItemWithContext.repoId item) then
        let repoId := default 0 (TreeItemWithContext.repoId item) in
        fst (filterTagsInline_onDidChangeValue localeCompare repoId
                                               (getCachedTags repoId s) query s)
      else s
  | FilterTagsInline_DidAccept item selected value =>
      if truthy_id (TreeItemWithContext.repoId item) then
        filterTagsInline_onDidAccept (default 0 (TreeItemWithContext.repoId item))
                                     selected value s
      else s
  | ClearTagFilter item => command_clearTagFilter item s
  | ShowAllTags item => command_showAllTags item s
  end.

Definition run (events : list Event) (s : State) : State :=
  fold_left (fun s event => handle event s) events s.
End Events.

(** A query in the form the setters store: lower case, trimmed. *)
Definition normalised (query : string) : Prop :=
  JsString.trim (JsString.toLowerCase query) = query.

(** The project list in memory is the stored one, and the search and
    the tag filters are in normal form. *)
Definition consistent (s : State) : Prop :=
  cachedProjects s = default [] (globalState_cachedProjects s) /\
  normalised (searchQuery s) /\
  forall (repoId : Z) (query : string),
    filterTagsQueries s !! repoId = Some query -> normalised query.

(** ** Requests and the token *)

(** A request sent with [token], or an error message. *)
Definition with_token (token : string) (e : Effect) : Prop :=
  match e with
  | Fetch t _ => t = token
  | ShowErrorMessage _ => True
  | _ => False
  end.

(** [m] only talks to the network, and with [token]. *)
Definition sends_with (token : string) {A} (m : Async A) : Prop :=
  exists r l, network_only m r l /\ Forall (with_token token) l.

(** What [getChildren] may do to the outside when it starts in [s]:
    requests with the token stored in [s], messages, and the update of
    the stored project list; it fires no change event and runs no
    command. *)
Definition getChildren_effect (s : State) (e : Effect) : Prop :=
  match e with
  | Fetch token _ =>
      secrets_gitlabToken s = Some token /\ JsString.truthy token = true
  | ShowErrorMessage _ | ConsoleError _ | GlobalStateUpdate _ => True
  | Fire | ExecuteCommand _ => False
  end.

(** ** Pagination *)

(** The pages of a listing that are read in full: those before the first
    page that is empty, not [ok] or not answered. *)
Fixpoint full_pages {A} (pages : list (Fetched (list A))) : nat :=
  match pages with
  | HttpOk (_ :: _) :: pages' => S (full_pages pages')
  | _ => 0
  end.

(** The requests for the pages [page] to [page + n - 1] of the tags. *)
Definition tag_page_requests (token : string) (projectId repoId page : Z) (n : nat)
  : list Effect :=
  List.map (fun i => Fetch token (GET_tags projectId repoId (page + Z.of_nat i)))
           (seq 0 n).

(** ** More sample data: projects in nested groups *)

Module Groups.
Definition web : GitLabProject.t :=
  GitLabProject.mk 2 "web" "g/web" (Namespace.mk "g") true.
Definition tool : GitLabProject.t :=
  GitLabProject.mk 3 "tool" "h/tool" (Namespace.mk "h") true.

(** Three projects are cached; nothing is searched for. *)
Definition browsing : State :=
  set_cachedProjects [Sample.app; web; tool] Sample.fresh.

(** The folder [g] of the root and the node of the project [app]. *)
Definition folder_g : TreeItemWithContext.t := root_folder_item "g".
Definition project_app : TreeItemWithContext.t := project_item Sample.app.

(** A registry that answers the request for the projects with an error
    status. *)
Definition denied : Server := {|
  projects := fun _ => [HttpError];
  repositories := repositories Sample.registry;
  tags := tags Sample.registry;
  tag_detail := tag_detail Sample.registry
|}.

(** A registry that lists [v1] before [v2], both with a dated detail. *)
Definition oldest_first : Server := {|
  projects := projects Sample.registry;
  repositories := repositories Sample.registry;
  tags := fun _ _ _ => [HttpOk [Sample.listed "v1"; Sample.listed "v2"]];
  tag_detail := tag_detail Sample.registry
|}.
End Groups.

(** * Properties *)

(** ** Strings *)

Lemma is_space_not_upper (c : ascii) :
  JsString.is_space c = true -> JsString.lower_char c = c.
Proof.
  unfold JsString.is_space, JsString.lower_char, JsString.is_upper.
  intros H.
  destruct (65 <=? nat_of_ascii c)%nat eqn:E; [|reflexivity].
  apply Nat.leb_le in E.
  apply orb_prop in H as [H|H].
  - apply andb_prop in H as [_ H]. apply Nat.leb_le in H. lia.
  - apply Nat.eqb_eq in H. lia.
Qed.

(** *** Lower case leaves white space alone *)

Lemma lower_char_space (c : ascii) :
  JsString.is_space (JsString.lower_char c) = JsString.is_space c.
Proof. destruct c as [[] [] [] [] [] [] [] []]; reflexivity. Qed.

Lemma lower_char_space2 (c1 c2 : ascii) :
  JsString.is_space2 (JsString.lower_char c1) (JsString.lower_char c2)
  = JsString.is_space2 c1 c2.
Proof.
  destruct c1 as [[] [] [] [] [] [] [] []]; try reflexivity.
  destruct c2 as [[] [] [] [] [] [] [] []]; reflexivity.
Qed.

Lemma lower_char_space3 (c1 c2 c3 : ascii) :
  JsString.is_space3 (JsString.lower_char c1) (JsString.lower_char c2)
                     (JsString.lower_char c3)
  = JsString.is_space3 c1 c2 c3.
Proof.
  destruct c1 as [[] [] [] [] [] [] [] []]; try reflexivity;
    (destruct c2 as [[] [] [] [] [] [] [] []]; try reflexivity;
     destruct c3 as [[] [] [] [] [] [] [] []]; reflexivity).
Qed.

Lemma lower_char_idempotent (c : ascii) :
  JsString.lower_char (JsString.lower_char c) = JsString.lower_char c.
Proof. destruct c as [[] [] [] [] [] [] [] []]; reflexivity. Qed.

Lemma toLowerCase_idempotent (s : string) :
  JsString.toLowerCase (JsString.toLowerCase s) = JsString.toLowerCase s.
Proof.
  induction s as [|c s IH]; simpl; [reflexivity|].
  rewrite lower_char_idempotent, IH. reflexivity.
Qed.

Lemma toLowerCase_empty (s : string) :
  JsString.toLowerCase s = "" <-> s = "".
Proof. destruct s; simpl; split; congruence. Qed.

Lemma toLowerCase_append (s t : string) :
  JsString.toLowerCase (s +:+ t) = JsString.toLowerCase s +:+ JsString.toLowerCase t.
Proof. induction s as [|c s IH]; simpl; [reflexivity|]. rewrite IH. reflexivity. Qed.

(** *** One white space character at a time *)

Lemma white_space_suffix (s r : string) :
  JsString.white_space s = Some r -> exists p, p <> "" /\ s = p +:+ r.
Proof.
  unfold JsString.white_space. intros H.
  destruct s as [|c1 s1]; [discriminate|].
  destruct (JsString.is_space c1).
  { injection H as <-. exists (String c1 ""). split; [discriminate|reflexivity]. }
  destruct s1 as [|c2 s2]; [discriminate|].
  destruct (JsString.is_space2 c1 c2).
  { injection H as <-. exists (String c1 (String c2 "")).
    split; [discriminate|reflexivity]. }
  destruct s2 as [|c3 s3]; [discriminate|].
  destruct (JsString.is_space3 c1 c2 c3); [|discriminate].
  injection H as <-. exists (String c1 (String c2 (String c3 ""))).
  split; [discriminate|reflexivity].
Qed.

Lemma length_append (s t : string) :
  String.length (s +:+ t) = (String.length s + String.length t)%nat.
Proof. induction s as [|c s IH]; simpl; [reflexivity|]. rewrite IH. reflexivity. Qed.

Lemma white_space_length (s r : string) :
  JsString.white_space s = Some r -> (String.length r < String.length s)%nat.
Proof.
  intros H. apply white_space_suffix in H as (p & Hp & ->).
  rewrite length_append. destruct p; [congruence|]. simpl. lia.
Qed.

(** Induction on a string, by the white space it begins with. *)
Lemma white_space_ind (P : string -> Prop) :
  (forall s, JsString.white_space s = None -> P s) ->
  (forall s r, JsString.white_space s = Some r -> P r -> P s) ->
  forall s, P s.
Proof.
  intros Hnone Hsome s.
  remember (String.length s) as n eqn:E.
  revert s E. induction n as [n IH] using lt_wf_ind. intros s ->.
  destruct (JsString.white_space s) as [r|] eqn:Ew.
  - apply (Hsome s r Ew). apply (IH (String.length r)); [|reflexivity].
    apply white_space_length, Ew.
  - apply Hnone, Ew.
Qed.

Lemma trimStart_white_space (s : string) :
  JsString.trimStart s
  = match JsString.white_space s with
    | Some r => JsString.trimStart r
    | None => s
    end.
Proof.
  destruct s as [|c1 s1]; [reflexivity|].
  unfold JsString.white_space. cbn [JsString.trimStart].
  destruct (JsString.is_space c1); [reflexivity|].
  destruct s1 as [|c2 s2]; [reflexivity|].
  destruct (JsString.is_space2 c1 c2); [reflexivity|].
  destruct s2 as [|c3 s3]; [reflexivity|].
  destruct (JsString.is_space3 c1 c2 c3); reflexivity.
Qed.

Lemma all_space_white_space (s : string) :
  JsString.all_space s
  = match JsString.white_space s with
    | Some r => JsString.all_space r
    | None => negb (JsString.truthy s)
    end.
Proof.
  destruct s as [|c1 s1]; [reflexivity|].
  unfold JsString.white_space. cbn [JsString.all_space].
  destruct (JsString.is_space c1); [reflexivity|].
  destruct s1 as [|c2 s2]; [reflexivity|].
  destruct (JsString.is_space2 c1 c2); [reflexivity|].
  destruct s2 as [|c3 s3]; [reflexivity|].
  destruct (JsString.is_space3 c1 c2 c3); reflexivity.
Qed.

Lemma white_space_app (s r w : string) :
  JsString.white_space s = Some r ->
  JsString.white_space (s +:+ w) = Some (r +:+ w).
Proof.
  unfold JsString.white_space. intros H.
  destruct s as [|c1 s1]; [discriminate|]. simpl in *.
  destruct (JsString.is_space c1); [injection H as <-; reflexivity|].
  destruct s1 as [|c2 s2]; [discriminate|]. simpl in *.
  destruct (JsString.is_space2 c1 c2); [injection H as <-; reflexivity|].
  destruct s2 as [|c3 s3]; [discriminate|]. simpl in *.
  destruct (JsString.is_space3 c1 c2 c3); [injection H as <-; reflexivity|discriminate].
Qed.

Lemma white_space_toLowerCase (s : string) :
  JsString.white_space (JsString.toLowerCase s)
  = option_map JsString.toLowerCase (JsString.white_space s).
Proof.
  unfold JsString.white_space.
  destruct s as [|c1 s1]; [reflexivity|]. cbn [JsString.toLowerCase].
  rewrite lower_char_space.
  destruct (JsString.is_space c1); [reflexivity|].
  destruct s1 as [|c2 s2]; [reflexivity|]. cbn [JsString.toLowerCase].
  rewrite lower_char_space2.
  destruct (JsString.is_space2 c1 c2); [reflexivity|].
  destruct s2 as [|c3 s3]; [reflexivity|]. cbn [JsString.toLowerCase].
  rewrite lower_char_space3.
  destruct (JsString.is_space3 c1 c2 c3); reflexivity.
Qed.

(** *** [trimStart] *)

Lemma all_space_trimStart (s : string) :
  JsString.all_space s = true <-> JsString.trimStart s = "".
Proof.
  induction s as [s Hw|s r Hw IH] using white_space_ind;
    rewrite all_space_white_space, trimStart_white_space, Hw.
  - destruct s; simpl; split; congruence.
  - exact IH.
Qed.

Lemma toLowerCase_trimStart (s : string) :
  JsString.toLowerCase (JsString.trimStart s)
  = JsString.trimStart (JsString.toLowerCase s).
Proof.
  induction s as [s Hw|s r Hw IH] using white_space_ind;
    rewrite (trimStart_white_space s), (trimStart_white_space (JsString.toLowerCase s)),
      white_space_toLowerCase, Hw; simpl.
  - reflexivity.
  - exact IH.
Qed.

Lemma all_space_toLowerCase (s : string) :
  JsString.all_space (JsString.toLowerCase s) = JsString.all_space s.
Proof.
  apply Bool.eq_iff_eq_true.
  rewrite !all_space_trimStart, <- toLowerCase_trimStart. apply toLowerCase_empty.
Qed.

Lemma white_space_trimStart (s : string) :
  JsString.white_space (JsString.trimStart s) = None.
Proof.
  induction s as [s Hw|s r Hw IH] using white_space_ind;
    rewrite trimStart_white_space, Hw; assumption.
Qed.

(** A string that does not begin with white space. *)
Lemma trimStart_fixed (s : string) :
  JsString.trimStart (JsString.trimStart s) = JsString.trimStart s.
Proof.
  rewrite (trimStart_white_space (JsString.trimStart s)), white_space_trimStart.
  reflexivity.
Qed.

Lemma all_space_app (x w : string) :
  JsString.all_space x = true ->
  JsString.all_space (x +:+ w) = JsString.all_space w.
Proof.
  induction x as [x Hw|x r Hw IH] using white_space_ind; intros H.
  - rewrite all_space_white_space, Hw in H. destruct x; [reflexivity|discriminate].
  - rewrite all_space_white_space, Hw in H.
    rewrite (all_space_white_space (x +:+ w)), (white_space_app x r w Hw).
    apply IH, H.
Qed.

(** *** [trimEnd] *)

Lemma trimEnd_String (c : ascii) (s : string) :
  JsString.trimEnd (String c s)
  = if JsString.all_space (String c s) then "" else String c (JsString.trimEnd s).
Proof. reflexivity. Qed.

(** What [trimEnd] drops is white space. *)
Lemma trimEnd_split (s : string) :
  exists w, s = JsString.trimEnd s +:+ w /\ JsString.all_space w = true.
Proof.
  induction s as [|c s (w & Hs & Hw)].
  - exists "". split; reflexivity.
  - rewrite trimEnd_String. destruct (JsString.all_space (String c s)) eqn:E.
    + exists (String c s). split; [reflexivity|exact E].
    + exists w. split; [|exact Hw].
      change (String c (JsString.trimEnd s) +:+ w)
        with (String c (JsString.trimEnd s +:+ w)).
      rewrite <- Hs. reflexivity.
Qed.

Lemma all_space_trimEnd (s : string) :
  JsString.all_space (JsString.trimEnd s) = JsString.all_space s.
Proof.
  destruct (trimEnd_split s) as (w & Hs & Hw).
  destruct (JsString.all_space (JsString.trimEnd s)) eqn:E.
  - rewrite Hs, (all_space_app _ _ E). symmetry. exact Hw.
  - destruct s as [|c s]; [discriminate|].
    rewrite trimEnd_String in E.
    destruct (JsString.all_space (String c s)); [discriminate|reflexivity].
Qed.

Lemma trimEnd_not_all_space (c : ascii) (s : string) :
  JsString.all_space (String c s) = false ->
  JsString.all_space (String c (JsString.trimEnd s)) = false.
Proof.
  intros H.
  assert (E : JsString.trimEnd (String c s) = String c (JsString.trimEnd s)).
  { rewrite trimEnd_String, H. reflexivity. }
  rewrite <- E, all_space_trimEnd. exact H.
Qed.

Lemma trimEnd_idempotent (s : string) :
  JsString.trimEnd (JsString.trimEnd s) = JsString.trimEnd s.
Proof.
  induction s as [|c s IH]; [reflexivity|].
  rewrite trimEnd_String. destruct (JsString.all_space (String c s)) eqn:E.
  - reflexivity.
  - rewrite trimEnd_String, (trimEnd_not_all_space c s E), IH. reflexivity.
Qed.

Lemma toLowerCase_trimEnd (s : string) :
  JsString.toLowerCase (JsString.trimEnd s)
  = JsString.trimEnd (JsString.toLowerCase s).
Proof.
  induction s as [|c s IH]; [reflexivity|].
  cbn [JsString.toLowerCase]. rewrite !trimEnd_String.
  change (String (JsString.lower_char c) (JsString.toLowerCase s))
    with (JsString.toLowerCase (String c s)) at 1.
  rewrite all_space_toLowerCase.
  destruct (JsString.all_space (String c s)); [reflexivity|].
  cbn [JsString.toLowerCase]. rewrite IH. reflexivity.
Qed.

Lemma prefix_trimEnd (t : string) : String.prefix (JsString.trimEnd t) t = true.
Proof.
  induction t as [|c t IH]; [reflexivity|].
  rewrite trimEnd_String. destruct (JsString.all_space (String c t)); [reflexivity|].
  simpl. destruct (ascii_dec c c); [exact IH|congruence].
Qed.

Lemma trimStart_trimEnd (s : string) :
  JsString.trimStart s = s -> JsString.trimStart (JsString.trimEnd s) = JsString.trimEnd s.
Proof.
  intros H. rewrite trimStart_white_space.
  destruct (JsString.white_space (JsString.trimEnd s)) as [r|] eqn:E; [|reflexivity].
  exfalso. destruct (trimEnd_split s) as (w & Hs & _).
  pose proof (white_space_app _ _ w E) as E'. rewrite <- Hs in E'.
  pose proof (white_space_trimStart s) as Hn. rewrite H in Hn. congruence.
Qed.

(** *** [trim] *)

Lemma toLowerCase_trim (s : string) :
  JsString.toLowerCase (JsString.trim s) = JsString.trim (JsString.toLowerCase s).
Proof. unfold JsString.trim. rewrite toLowerCase_trimEnd, toLowerCase_trimStart. reflexivity. Qed.

Lemma trim_idempotent (s : string) : JsString.trim (JsString.trim s) = JsString.trim s.
Proof.
  unfold JsString.trim.
  rewrite (trimStart_trimEnd (JsString.trimStart s)) by apply trimStart_fixed.
  apply trimEnd_idempotent.
Qed.

(** What the two setters store is a fixed point of the normalisation. *)
Lemma normalised_fixed (query : string) :
  JsString.trim (JsString.toLowerCase (JsString.trim (JsString.toLowerCase query)))
  = JsString.trim (JsString.toLowerCase query).
Proof. rewrite toLowerCase_trim, toLowerCase_idempotent. apply trim_idempotent. Qed.

(** The normal form of a query is empty exactly when the query is
    nothing but white space. *)
Lemma trim_empty (q : string) :
  JsString.trim q = "" <-> JsString.all_space q = true.
Proof.
  unfold JsString.trim. rewrite all_space_trimStart. split.
  - intros H. destruct (JsString.trimStart q) as [|c t] eqn:E; [reflexivity|].
    rewrite trimEnd_String in H.
    destruct (JsString.all_space (String c t)) eqn:Ea; [|discriminate].
    apply all_space_trimStart in Ea. rewrite <- E, trimStart_fixed in Ea. congruence.
  - intros ->. reflexivity.
Qed.

Lemma trim_all_space (q : string) :
  JsString.all_space q = true -> JsString.trim (JsString.toLowerCase q) = "".
Proof. intros H. apply trim_empty. rewrite all_space_toLowerCase. exact H. Qed.

(** *** A string contains what is left of it after trimming *)

Lemma includes_empty (s : string) : JsString.includes s "" = true.
Proof. destruct s; reflexivity. Qed.

Lemma includes_prefix (s q : string) :
  String.prefix q s = true -> JsString.includes s q = true.
Proof.
  intros H. destruct s; cbn [JsString.includes]; unfold JsString.startsWith;
    rewrite H; reflexivity.
Qed.

Lemma includes_app_left (p r q : string) :
  JsString.includes r q = true -> JsString.includes (p +:+ r) q = true.
Proof.
  intros H. induction p as [|c p IH]; [exact H|].
  change (String c p +:+ r) with (String c (p +:+ r)).
  cbn [JsString.includes]. rewrite IH. apply orb_true_r.
Qed.

Lemma includes_trim (s : string) : JsString.includes s (JsString.trim s) = true.
Proof.
  unfold JsString.trim.
  induction s as [s Hw|s r Hw IH] using white_space_ind;
    rewrite trimStart_white_space, Hw.
  - apply includes_prefix, prefix_trimEnd.
  - apply white_space_suffix in Hw as (p & _ & ->). apply includes_app_left, IH.
Qed.

(** ** The synchronous methods *)

(** C2, as stated, fails: a search that is active when [refresh] is
    called is still active afterwards. *)
Lemma refresh_keeps_search_counterexample :
  ~ refresh_clears_everything Sample.searching.
Proof.
  unfold refresh_clears_everything. intros (_ & _ & _ & H & _).
  vm_compute in H. discriminate H.
Qed.

(** C2, amended: for every state, [refresh] empties the project list,
    the tag cache, the show-all set and the map of tag filters, leaves
    the global search string as it was, asks the global state to store
    the empty project list, and then fires the change event. *)
Theorem refresh_clears_caches_and_tag_filters (s : State) :
  cachedProjects (refresh s) = [] /\
  cachedTags (refresh s) = ∅ /\
  showAllTagsForRepo (refresh s) = ∅ /\
  filterTagsQueries (refresh s) = ∅ /\
  searchQuery (refresh s) = searchQuery s /\
  globalState_cachedProjects (refresh s) = Some [] /\
  log (refresh s) = log s ++ [GlobalStateUpdate []; Fire] /\
  secrets_gitlabToken (refresh s) = secrets_gitlabToken s /\
  settings (refresh s) = settings s.
Proof.
  unfold refresh, fire, saveCachedProjects, effect. simpl.
  rewrite <- app_assoc. simpl. repeat split; reflexivity.
Qed.

Lemma getFilterTagsQuery_absent (repoId : Z) (s : State) :
  filterTagsQueries s !! repoId = None -> getFilterTagsQuery repoId s = "".
Proof. unfold getFilterTagsQuery. intros ->. reflexivity. Qed.

(** C3, as stated, fails: a query of one space is truthy, so that its
    trimmed form, the empty string, is stored under the repository. *)
Lemma setFilterTagsQuery_blank_counterexample :
  ~ blank_query_removes_entry 7 " " Sample.fresh.
Proof.
  unfold blank_query_removes_entry. intros H.
  destruct (H eq_refl) as [H1 _]. vm_compute in H1. discriminate H1.
Qed.

(** C3, amended: for every repository id and every query that is empty
    or made of white space only (of any white space that [trim] removes:
    by [trim_empty] these are the queries whose trimmed form is empty),
    [getFilterTagsQuery] returns the empty string after
    [setFilterTagsQuery]; the entry of the repository is removed when
    the query is empty, and holds the empty string when the query is
    not.  After [clearFilterForRepo] the entry is removed and
    [getFilterTagsQuery] returns the empty string. *)
Theorem blank_filter_reads_as_empty (repoId : Z) (query : string) (s : State) :
  JsString.all_space query = true ->
  getFilterTagsQuery repoId (setFilterTagsQuery repoId query s) = "" /\
  (query = "" ->
   filterTagsQueries (setFilterTagsQuery repoId query s) !! repoId = None) /\
  (query <> "" ->
   filterTagsQueries (setFilterTagsQuery repoId query s) !! repoId = Some "") /\
  filterTagsQueries (clearFilterForRepo repoId s) !! repoId = None /\
  getFilterTagsQuery repoId (clearFilterForRepo repoId s) = "".
Proof.
  intros Hq.
  assert (Hclear : filterTagsQueries (clearFilterForRepo repoId s) !! repoId = None).
  { unfold clearFilterForRepo. simpl. apply lookup_delete_eq. }
  assert (Hset : query <> "" ->
                 filterTagsQueries (setFilterTagsQuery repoId query s) !! repoId
                 = Some "").
  { intros Hne. unfold setFilterTagsQuery.
    destruct query as [|c q]; [congruence|]. simpl JsString.truthy. cbv iota.
    rewrite (trim_all_space _ Hq). simpl. apply lookup_insert_eq. }
  assert (Hdel : query = "" ->
                 filterTagsQueries (setFilterTagsQuery repoId query s) !! repoId
                 = None).
  { intros ->. unfold setFilterTagsQuery. simpl. apply lookup_delete_eq. }
  repeat split; try assumption.
  - destruct query as [|c q].
    + apply getFilterTagsQuery_absent, Hdel. reflexivity.
    + unfold getFilterTagsQuery. rewrite Hset by discriminate. reflexivity.
  - apply getFilterTagsQuery_absent, Hclear.
Qed.

Lemma blank_filter_reads_as_empty_witness :
  getFilterTagsQuery 7 (setFilterTagsQuery 7 "   " Sample.searching) = "" /\
  filterTagsQueries (setFilterTagsQuery 7 "   " Sample.searching) !! 7 = Some "" /\
  filterTagsQueries (setFilterTagsQuery 7 Sample.no_break_space Sample.searching) !! 7
  = Some "".
Proof.
  destruct (blank_filter_reads_as_empty 7 "   " Sample.searching eq_refl)
    as (H1 & _ & H2 & _).
  destruct (blank_filter_reads_as_empty 7 Sample.no_break_space Sample.searching eq_refl)
    as (_ & _ & H3 & _).
  split; [exact H1|]. split; [apply H2; discriminate|apply H3; discriminate].
Defined.

(** ** Settings *)

(** Without a value from the user, the setting reads as the default of
    package.json. *)
Lemma getConfiguration_get_default (s : State) :
  settings s !! "gitlabRegistryExplorer.maxTagsToDisplay" = None ->
  getConfiguration_get "gitlabRegistryExplorer" "maxTagsToDisplay" 50 s = 20.
Proof.
  intros H. unfold getConfiguration_get.
  change ("gitlabRegistryExplorer" +:+ "." +:+ "maxTagsToDisplay")
    with "gitlabRegistryExplorer.maxTagsToDisplay".
  rewrite H. reflexivity.
Qed.

Lemma slice_to_firstn {A} (k : nat) (l : list A) :
  JsArray.slice_to (Z.of_nat k) l = firstn k l.
Proof.
  unfold JsArray.slice_to.
  destruct (Z.of_nat k <? 0) eqn:E; [apply Z.ltb_lt in E; lia|].
  destruct (Nat.le_gt_cases k (List.length l)) as [Hle|Hgt].
  - rewrite Z.min_l by lia. rewrite Nat2Z.id. reflexivity.
  - rewrite Z.min_r by lia. rewrite Nat2Z.id.
    rewrite !firstn_all2 by lia. reflexivity.
Qed.

(** ** [getChildren] *)

Section Children.
Variable server : Server.
Variable localeCompare : string -> string -> Z.
Variable toLocaleString : jsnum -> string.

Local Abbreviation children := (getChildren server localeCompare toLocaleString).

(** C10: for the root and for every element, when no token is stored
    [getChildren] is fulfilled with the empty list and leaves the state
    as it was: no cache, no filter and no setting has changed, and the
    log has no new request. *)
Theorem getChildren_without_token (element : option TreeItemWithContext.t)
        (s : State) :
  secrets_gitlabToken s = None ->
  children element s = (Fulfilled [], s).
Proof.
  intros H. unfold getChildren, read, mbind, Async_bind.
  rewrite H. reflexivity.
Qed.

(** With a token, a repository node is resolved by [getChildren_repo]. *)
Lemma getChildren_repo_node (e : TreeItemWithContext.t) (projectId repoId : Z)
      (s : State) :
  truthy_opt (secrets_gitlabToken s) = true ->
  repo_node e projectId repoId ->
  exists token,
    secrets_gitlabToken s = Some token /\
    children (Some e) s
    = getChildren_repo server toLocaleString token e projectId repoId s.
Proof.
  intros Htok (Hc & Hp & Hr & Hp0 & Hr0).
  destruct (secrets_gitlabToken s) as [token|] eqn:E; [|discriminate].
  exists token. split; [reflexivity|].
  unfold getChildren, read, mbind, Async_bind. rewrite E.
  simpl in Htok. rewrite Htok. simpl negb. cbv iota.
  rewrite Hc, Hp, Hr. simpl.
  apply Z.eqb_neq in Hp0, Hr0. rewrite Hp0, Hr0. reflexivity.
Qed.

(** A repository with cached tags and no filter, below the cutoff [k]
    or above it. *)
Lemma repo_children_cutoff (e : TreeItemWithContext.t) (projectId repoId : Z)
      (s : State) (cached : list GitLabTag.t) (k : nat) :
  truthy_opt (secrets_gitlabToken s) = true ->
  repo_node e projectId repoId ->
  cachedTags s !! repoId = Some cached ->
  cached <> [] ->
  getFilterTagsQuery repoId s = "" ->
  getConfiguration_get "gitlabRegistryExplorer" "maxTagsToDisplay" 50 s = Z.of_nat k ->
  repoId ∉ showAllTagsForRepo s ->
  fst (children (Some e) s)
  = Fulfilled
      (filterItem e ""
       :: List.map (tagItem toLocaleString e
                            (List.find (fun p => GitLabProject.id p =? projectId)
                                       (cachedProjects s)))
                   (firstn k cached)
       ++ (if (k <? List.length cached)%nat
           then [showAllItem e (Z.of_nat (List.length cached - k))]
           else [])).
Proof.
  intros Htok Hnode Hcached Hne Hq Hmax Hshow.
  destruct (getChildren_repo_node e projectId repoId s Htok Hnode)
    as (token & _ & ->).
  unfold getChildren_repo, read, mbind, mret, Async_bind, Async_ret.
  rewrite Hcached, Hq. change (JsString.truthy "") with false. cbv iota.
  destruct cached as [|tag cached']; [congruence|].
  set (cached := tag :: cached') in *.
  change (List.length cached =? 0)%nat with false. cbv beta iota.
  rewrite Hmax, (bool_decide_eq_false_2 _ Hshow), slice_to_firstn.
  unfold fst. do 3 f_equal.
  rewrite length_firstn.
  destruct (k <? List.length cached)%nat eqn:E.
  - apply Nat.ltb_lt in E.
    replace (Z.of_nat (List.length cached) - Z.of_nat (k `min` List.length cached))
      with (Z.of_nat (List.length cached - k)) by lia.
    destruct (0 <? Z.of_nat (List.length cached - k)) eqn:E'; [reflexivity|].
    apply Z.ltb_ge in E'. lia.
  - apply Nat.ltb_ge in E.
    destruct (0 <? _) eqn:E'; [|reflexivity].
    apply Z.ltb_lt in E'. lia.
Qed.

(** C4: when no value has been given to the setting
    [gitlabRegistryExplorer.maxTagsToDisplay], the cutoff that
    [getChildren] reads for a repository is 20, the default that
    package.json declares (the 50 of the call is not reached), and 20 is
    the cutoff it applies: an unfiltered repository shows its first 20
    cached tags, and the show-more node when there are more. *)
Theorem maxTagsToDisplay_default_is_20 (s : State) :
  settings s !! "gitlabRegistryExplorer.maxTagsToDisplay" = None ->
  getConfiguration_get "gitlabRegistryExplorer" "maxTagsToDisplay" 50 s = 20 /\
  forall (e : TreeItemWithContext.t) (projectId repoId : Z)
         (cached : list GitLabTag.t),
    truthy_opt (secrets_gitlabToken s) = true ->
    repo_node e projectId repoId ->
    cachedTags s !! repoId = Some cached ->
    cached <> [] ->
    getFilterTagsQuery repoId s = "" ->
    repoId ∉ showAllTagsForRepo s ->
    fst (children (Some e) s)
    = Fulfilled
        (filterItem e ""
         :: List.map (tagItem toLocaleString e
                              (List.find (fun p => GitLabProject.id p =? projectId)
                                         (cachedProjects s)))
                     (firstn 20 cached)
         ++ (if (20 <? List.length cached)%nat
             then [showAllItem e (Z.of_nat (List.length cached - 20))]
             else [])).
Proof.
  intros Hnone. split; [apply getConfiguration_get_default, Hnone|].
  intros e projectId repoId cached Htok Hnode Hcached Hne Hq Hshow.
  apply (repo_children_cutoff e projectId repoId s cached 20); try assumption.
  apply getConfiguration_get_default, Hnone.
Qed.

Lemma filter_none {A} (f : A -> bool) (l : list A) :
  Forall (fun x => f x = false) l -> List.filter f l = [].
Proof.
  induction 1 as [|x l Hx _ IH]; simpl; [reflexivity|]. rewrite Hx. exact IH.
Qed.

(** C6: with a token stored, for every repository node whose cached
    tags have no name that contains the active filter, [getChildren] is
    fulfilled with two nodes, the filter node and then the placeholder,
    and the state is as it was. *)
Theorem no_match_gives_filter_and_placeholder
        (e : TreeItemWithContext.t) (projectId repoId : Z) (s : State)
        (cached : list GitLabTag.t) :
  truthy_opt (secrets_gitlabToken s) = true ->
  repo_node e projectId repoId ->
  cachedTags s !! repoId = Some cached ->
  JsString.truthy (getFilterTagsQuery repoId s) = true ->
  Forall (fun tag => JsString.includes (JsString.toLowerCase (GitLabTag.name tag))
                                       (getFilterTagsQuery repoId s) = false)
         cached ->
  children (Some e) s
  = (Fulfilled [filterItem e (getFilterTagsQuery repoId s); noMatchItem], s) /\
  TreeItemWithContext.context (filterItem e (getFilterTagsQuery repoId s))
  = Ctx.filter /\
  TreeItemWithContext.label noMatchItem = "No tags match the filter".
Proof.
  intros Htok Hnode Hcached Hq Hnone.
  destruct (getChildren_repo_node e projectId repoId s Htok Hnode)
    as (token & _ & ->).
  unfold getChildren_repo, read, mbind, mret, Async_bind, Async_ret.
  rewrite Hcached, Hq, (filter_none _ _ Hnone). simpl.
  repeat split; reflexivity.
Qed.

(** C5: with a token stored, a repository node with 30 cached tags, no
    active filter, a cutoff of 20 and no show-all state has 22 children:
    the filter node, the first 20 tags and a show-more node that
    announces 10 more.  After [showAllTags] it has 31 children: the
    filter node and the 30 tags, without a show-more node. *)
Theorem thirty_tags_with_cutoff_20
        (e : TreeItemWithContext.t) (projectId repoId : Z) (s : State)
        (cached : list GitLabTag.t) :
  truthy_opt (secrets_gitlabToken s) = true ->
  repo_node e projectId repoId ->
  cachedTags s !! repoId = Some cached ->
  List.length cached = 30%nat ->
  getFilterTagsQuery repoId s = "" ->
  getConfiguration_get "gitlabRegistryExplorer" "maxTagsToDisplay" 50 s = 20 ->
  repoId ∉ showAllTagsForRepo s ->
  let project := List.find (fun p => GitLabProject.id p =? projectId)
                           (cachedProjects s) in
  let item := tagItem toLocaleString e project in
  let before := filterItem e "" :: List.map item (firstn 20 cached)
                           ++ [showAllItem e 10] in
  let after := filterItem e "" :: List.map item cached in
  (fst (children (Some e) s) = Fulfilled before /\
   List.length before = 22%nat /\
   TreeItemWithContext.label (showAllItem e 10) = "Show All Tags… (10 more)") /\
  (fst (children (Some e) (showAllTags repoId s)) = Fulfilled after /\
   List.length after = 31%nat /\
   Forall (fun node => TreeItemWithContext.context node <> Ctx.showAllTags) after).
Proof.
  intros Htok Hnode Hcached Hlen Hq Hmax Hshow project item before after.
  split.
  - destruct (getChildren_repo_node e projectId repoId s Htok Hnode)
      as (token & _ & ->).
    unfold getChildren_repo, read, mbind, mret, Async_bind, Async_ret.
    rewrite Hcached, Hq. change (JsString.truthy "") with false. cbv iota.
    rewrite Hlen. change (30 =? 0)%nat with false. cbv beta iota. rewrite Hmax.
    rewrite (bool_decide_eq_false_2 _ Hshow).
    unfold JsArray.slice_to. rewrite Hlen. simpl firstn.
    change (Z.to_nat (Z.min 20 (Z.of_nat 30))) with 20%nat.
    rewrite length_firstn, Hlen. simpl.
    repeat split; try reflexivity.
    subst before. simpl. rewrite length_app, length_map, length_firstn, Hlen.
    reflexivity.
  - assert (Htok' : truthy_opt (secrets_gitlabToken (showAllTags repoId s)) = true)
      by exact Htok.
    destruct (getChildren_repo_node e projectId repoId _ Htok' Hnode)
      as (token & _ & ->).
    unfold getChildren_repo, read, mbind, mret, Async_bind, Async_ret.
    change (cachedTags (showAllTags repoId s)) with (cachedTags s).
    rewrite Hcached. cbv beta iota.
    change (getFilterTagsQuery repoId (showAllTags repoId s))
      with (getFilterTagsQuery repoId s).
    rewrite Hq. change (JsString.truthy "") with false. cbv iota.
    rewrite Hlen. change (30 =? 0)%nat with false. cbv beta iota.
    assert (Hin : repoId ∈ showAllTagsForRepo (showAllTags repoId s)).
    { unfold showAllTags. simpl. set_solver. }
    rewrite (bool_decide_eq_true_2 _ Hin), Hlen, Z.sub_diag.
    simpl. rewrite app_nil_r.
    repeat split; try reflexivity.
    + subst after. simpl. rewrite length_map, Hlen. reflexivity.
    + subst after. constructor; [discriminate|].
      apply Forall_map, Forall_forall. intros tag _. discriminate.
Qed.
End Children.

(** ** [formatBytes] *)

Lemma all_digits_uint (d : Decimal.uint) :
  JsNumber.all_digits (NilEmpty.string_of_uint d) = true.
Proof. induction d; simpl; auto. Qed.

Lemma all_digits_of_Z (n : Z) : 0 <= n -> JsNumber.all_digits (JsString.of_Z n) = true.
Proof.
  intros Hn. unfold JsString.of_Z.
  destruct n as [|p|p]; [reflexivity| |lia].
  simpl. unfold NilZero.string_of_uint.
  destruct (Pos.to_uint p) eqn:E; try reflexivity;
    rewrite <- E; apply all_digits_uint.
Qed.

Lemma of_Z_not_empty (n : Z) : 0 <= n -> JsString.of_Z n <> "".
Proof.
  intros Hn. unfold JsString.of_Z.
  destruct n as [|p|p]; [discriminate| |lia].
  simpl. unfold NilZero.string_of_uint.
  destruct (Pos.to_uint p); discriminate.
Qed.

Lemma all_digits_append (a b : string) :
  JsNumber.all_digits (a +:+ b)
  = JsNumber.all_digits a && JsNumber.all_digits b.
Proof.
  induction a as [|c a IH]; simpl; [reflexivity|].
  rewrite IH. apply andb_assoc.
Qed.

Lemma all_digits_zeros (n : nat) : JsNumber.all_digits (JsNumber.zeros n) = true.
Proof. induction n; simpl; auto. Qed.

Lemma all_digits_substring (s : string) :
  JsNumber.all_digits s = true ->
  forall n m, JsNumber.all_digits (String.substring n m s) = true.
Proof.
  induction s as [|c s IH]; intros H n m.
  - destruct n, m; reflexivity.
  - simpl in H. apply andb_prop in H as [Hc Hs].
    destruct n as [|n]; simpl.
    + destruct m as [|m]; simpl; [reflexivity|].
      rewrite Hc. apply (IH Hs 0%nat m).
    + apply (IH Hs n m).
Qed.

Lemma length_substring (s : string) :
  forall n m, (n + m <= String.length s)%nat ->
              String.length (String.substring n m s) = m.
Proof.
  induction s as [|c s IH]; intros n m H; simpl in H.
  - destruct n, m; simpl in *; try lia; reflexivity.
  - destruct n as [|n]; simpl.
    + destruct m as [|m]; simpl; [reflexivity|].
      f_equal. apply (IH 0%nat m). simpl. lia.
    + apply IH. lia.
Qed.

Lemma length_zeros (n : nat) : String.length (JsNumber.zeros n) = n.
Proof. induction n; simpl; auto. Qed.

Lemma length_not_empty (s : string) : (0 < String.length s)%nat -> s <> "".
Proof. destruct s; simpl; [lia|discriminate]. Qed.

Lemma not_empty_length (s : string) : s <> "" -> (0 < String.length s)%nat.
Proof. destruct s; simpl; [congruence|lia]. Qed.

(** [toFixed(2)] of a number that is not negative and below 10^21. *)
Lemma toFixed2_two_decimals (x : Q) :
  (0 <= x)%Q -> (x < inject_Z (10 ^ 21))%Q -> two_decimals (JsNumber.toFixed2 x).
Proof.
  intros Hx Hlt. unfold JsNumber.toFixed2.
  apply Qle_bool_iff in Hx as Hb. rewrite Hb.
  destruct (Qle_bool (inject_Z (10 ^ 21)) (Qabs x)) eqn:Ebig.
  { exfalso. apply Qle_bool_iff in Ebig. rewrite (Qabs_pos x Hx) in Ebig.
    apply (Qlt_not_le _ _ Hlt Ebig). }
  set (n := Qfloor (Qabs x * 100 + (1 # 2))%Q).
  assert (Hn : 0 <= n).
  { subst n. change 0 with (Qfloor 0). apply Qfloor_resp_le.
    assert (H := Qabs_nonneg x).
    apply Qle_trans with (Qabs x * 100 + 0)%Q; [|apply Qplus_le_r; discriminate].
    rewrite Qplus_0_r. apply Qmult_le_0_compat; [exact H|discriminate]. }
  set (m := if n =? 0 then "0" else JsString.of_Z n).
  assert (Hm : JsNumber.all_digits m = true /\ (0 < String.length m)%nat).
  { subst m. destruct (n =? 0); [split; [reflexivity|simpl; lia]|].
    split; [apply all_digits_of_Z, Hn|apply not_empty_length, of_Z_not_empty, Hn]. }
  destruct Hm as [Hd Hl].
  set (m' := if (String.length m <=? 2)%nat
             then JsNumber.zeros (3 - String.length m) +:+ m else m).
  assert (Hm' : JsNumber.all_digits m' = true /\ (3 <= String.length m')%nat).
  { subst m'. destruct (String.length m <=? 2)%nat eqn:E.
    - apply Nat.leb_le in E. split.
      + rewrite all_digits_append, all_digits_zeros, Hd. reflexivity.
      + rewrite length_append, length_zeros. lia.
    - apply Nat.leb_gt in E. split; [exact Hd|lia]. }
  destruct Hm' as [Hd' Hl'].
  exists (String.substring 0 (String.length m' - 2) m'),
         (String.substring (String.length m' - 2) 2 m').
  split; [reflexivity|].
  split; [apply length_not_empty; rewrite length_substring; lia|].
  split; [apply all_digits_substring, Hd'|].
  split; [apply length_substring; lia|apply all_digits_substring, Hd'].
Qed.

(** The loop keeps the size non-negative and the index within [units]. *)
Lemma formatBytes_loop_bounds (fuel : nat) :
  forall (size : Q) (unitIndex : nat),
    (0 <= size)%Q -> (unitIndex <= 4)%nat ->
    (0 <= fst (formatBytes_loop fuel size unitIndex))%Q /\
    (snd (formatBytes_loop fuel size unitIndex) <= 4)%nat.
Proof.
  induction fuel as [|fuel IH]; intros size unitIndex Hs Hi; simpl; [auto|].
  destruct (Qle_bool 1024 size && (unitIndex <? 4)%nat) eqn:E; [|auto].
  apply andb_prop in E as [_ E]. apply Nat.ltb_lt in E.
  apply IH; [|lia].
  apply Qle_shift_div_l; [reflexivity|]. rewrite Qmult_0_l. exact Hs.
Qed.

(** With the fuel that [formatBytes] gives it, the loop stops because
    its condition is false, not for want of fuel. *)
Lemma formatBytes_loop_done (fuel : nat) :
  forall (size : Q) (unitIndex : nat),
    (4 - unitIndex < fuel)%nat ->
    let '(size', unitIndex') := formatBytes_loop fuel size unitIndex in
    Qle_bool 1024 size' && (unitIndex' <? List.length units - 1)%nat = false.
Proof.
  induction fuel as [|fuel IH]; intros size unitIndex Hf; [lia|]. simpl.
  destruct (Qle_bool 1024 size && (unitIndex <? 4)%nat) eqn:E; [|exact E].
  apply andb_prop in E as [_ E]. apply Nat.ltb_lt in E.
  apply IH. lia.
Qed.

(** From [1024^k] up, [k] more turns are taken, as long as a unit is
    left. *)
Lemma formatBytes_loop_top (fuel : nat) :
  forall (size : Q) (unitIndex : nat),
    (unitIndex <= 4)%nat -> (4 - unitIndex <= fuel)%nat ->
    (inject_Z (1024 ^ Z.of_nat (4 - unitIndex)) <= size)%Q ->
    snd (formatBytes_loop fuel size unitIndex) = 4%nat.
Proof.
  induction fuel as [|fuel IH]; intros size unitIndex Hi Hf Hs; simpl; [lia|].
  destruct (Nat.eq_dec unitIndex 4%nat) as [->|Hne].
  - rewrite andb_false_r. reflexivity.
  - assert (Hlt : (unitIndex <? 4)%nat = true) by (apply Nat.ltb_lt; lia).
    replace (4 - unitIndex)%nat with (S (4 - S unitIndex)) in Hs by lia.
    rewrite Nat2Z.inj_succ, Z.pow_succ_r in Hs by lia.
    rewrite inject_Z_mult in Hs.
    assert (Hp : (1 <= inject_Z (1024 ^ Z.of_nat (4 - S unitIndex)))%Q).
    { change 1%Q with (inject_Z 1). rewrite <- Zle_Qle. assert (0 < 1024 ^ Z.of_nat (4 - S unitIndex)); [|lia].
      apply Z.pow_pos_nonneg; lia. }
    assert (H1024 : Qle_bool 1024 size = true).
    { apply Qle_bool_iff. apply Qle_trans with (2 := Hs).
      rewrite <- (Qmult_1_r 1024) at 1.
      apply Qmult_le_l; [reflexivity|exact Hp]. }
    rewrite H1024, Hlt. simpl andb. cbv iota.
    apply IH; [lia|lia|].
    apply Qle_shift_div_l; [reflexivity|].
    rewrite Qmult_comm. exact Hs.
Qed.

Lemma formatBytes_positive (b : Z) :
  0 < b ->
  formatBytes (Some b)
  = JsNumber.toFixed2 (fst (formatBytes_loop 5 (inject_Z b) 0)) +:+ " " +:+
    nth (snd (formatBytes_loop 5 (inject_Z b) 0)) units "undefined".
Proof.
  intros Hb. destruct b as [|p|p]; try lia.
  unfold formatBytes. change (List.length units) with 5%nat.
  destruct (formatBytes_loop 5 (inject_Z (Z.pos p)) 0) as [size unitIndex].
  reflexivity.
Qed.

(** Below 10^21 TB the loop ends below 10^21. *)
Lemma formatBytes_loop_below (fuel : nat) :
  forall (size : Q) (unitIndex : nat),
    (unitIndex <= 4)%nat -> (4 - unitIndex <= fuel)%nat ->
    (size < inject_Z (10 ^ 21 * 1024 ^ Z.of_nat (4 - unitIndex)))%Q ->
    (fst (formatBytes_loop fuel size unitIndex) < inject_Z (10 ^ 21))%Q.
Proof.
  induction fuel as [|fuel IH]; intros size unitIndex Hi Hf Hs.
  - replace (4 - unitIndex)%nat with 0%nat in Hs by lia. exact Hs.
  - simpl formatBytes_loop. change (List.length units - 1)%nat with 4%nat.
    destruct (Qle_bool 1024 size) eqn:E1; simpl andb.
    + destruct (unitIndex <? 4)%nat eqn:E2.
      * apply Nat.ltb_lt in E2. apply IH; [lia|lia|].
        apply Qlt_shift_div_r; [reflexivity|].
        replace (4 - unitIndex)%nat with (S (4 - S unitIndex)) in Hs by lia.
        rewrite Nat2Z.inj_succ, Z.pow_succ_r in Hs by lia.
        replace (10 ^ 21 * (1024 * 1024 ^ Z.of_nat (4 - S unitIndex)))
          with (10 ^ 21 * 1024 ^ Z.of_nat (4 - S unitIndex) * 1024) in Hs by ring.
        rewrite inject_Z_mult in Hs. exact Hs.
      * apply Nat.ltb_ge in E2.
        replace (4 - unitIndex)%nat with 0%nat in Hs by lia. exact Hs.
    + simpl. apply Qlt_trans with 1024%Q; [|reflexivity].
      apply Qnot_le_lt. intros H. apply Qle_bool_iff in H. congruence.
Qed.

(** *** Taking a text apart *)

Lemma substring_append_left (m t : string) :
  String.substring 0 (String.length m) (m +:+ t) = m.
Proof. induction m as [|c m IH]; simpl; [destruct t; reflexivity|]. rewrite IH. reflexivity. Qed.

Lemma substring_all (t : string) : String.substring 0 (String.length t) t = t.
Proof. induction t as [|c t IH]; simpl; [reflexivity|]. rewrite IH. reflexivity. Qed.

Lemma substring_append_right (m t : string) :
  String.substring (String.length m) (String.length t) (m +:+ t) = t.
Proof. induction m as [|c m IH]; simpl; [apply substring_all|exact IH]. Qed.

(** The two parts of a text, when the length of the second is known. *)
Lemma append_inv (s m t : string) :
  s = m +:+ t ->
  m = String.substring 0 (String.length s - String.length t) s /\
  t = String.substring (String.length s - String.length t) (String.length t) s.
Proof.
  intros ->. rewrite length_append.
  replace (String.length m + String.length t - String.length t)%nat
    with (String.length m) by lia.
  rewrite substring_append_left, substring_append_right. split; reflexivity.
Qed.




(** ** [Array.prototype.sort] *)

Section SortFacts.
Context {A : Type} (comparefn : A -> A -> jsnum).

Lemma CountAndMakeRun_Permutation (array : list A) :
  Permutation (fst (JsArray.CountAndMakeRun comparefn array)) array.
Proof.
  unfold JsArray.CountAndMakeRun.
  destruct array as [|x [|y rest]]; try reflexivity.
  destruct (JsArray.Compare comparefn y x <? 0); simpl fst; [|reflexivity].
  set (n := JsArray.run_length comparefn true y rest 2).
  rewrite <- (firstn_skipn n (x :: y :: rest)) at 3.
  apply Permutation_app_tail. symmetry. apply Permutation_rev.
Qed.

Lemma BinaryInsertionSort_Permutation (rest : list A) :
  forall sorted,
    Permutation (JsArray.BinaryInsertionSort comparefn sorted rest)
                (sorted ++ rest).
Proof.
  induction rest as [|pivot rest IH]; intros sorted; simpl.
  - rewrite app_nil_r. reflexivity.
  - rewrite IH.
    set (left := JsArray.insertion_point _ _ _ _ _ _).
    rewrite <- (firstn_skipn left sorted) at 3.
    rewrite <- !app_assoc. apply Permutation_app_head.
    simpl. apply Permutation_middle.
Qed.

(** Sorting moves the elements and neither drops nor adds one. *)
Lemma sort_Permutation (array : list A) :
  Permutation (JsArray.sort comparefn array) array.
Proof.
  unfold JsArray.sort.
  destruct (List.length array <? 2)%nat; [reflexivity|].
  destruct (JsArray.CountAndMakeRun comparefn array) as [workArray runLength] eqn:E.
  rewrite BinaryInsertionSort_Permutation, firstn_skipn.
  change workArray with (fst (workArray, runLength)). rewrite <- E.
  apply CountAndMakeRun_Permutation.
Qed.
End SortFacts.

(** *** A consistent comparison function sorts

    Where the comparison function is the difference of a key, which it
    is on the elements that satisfy [P], the result is in ascending order
    of the key. *)
Section SortSorts.
Context {A : Type} (comparefn : A -> A -> jsnum) (key : A -> Z) (P : A -> Prop).
Hypothesis Compare_key :
  forall x y, P x -> P y -> JsArray.Compare comparefn x y = key x - key y.

#[local] Instance key_le_transitive : Transitive (key_le key).
Proof. unfold key_le. intros a b c. lia. Qed.

Lemma Sorted_weaken (R1 R2 : A -> A -> Prop) (l : list A) :
  (forall a b, R1 a b -> R2 a b) -> Sorted R1 l -> Sorted R2 l.
Proof.
  intros H. induction 1 as [|a l _ IH Hd]; constructor; [exact IH|].
  destruct Hd; constructor; auto.
Qed.

Lemma run_length_ascending (rest : list A) :
  forall prev n,
    P prev -> Forall P rest ->
    exists k,
      JsArray.run_length comparefn false prev rest n = (n + k)%nat /\
      (k <= List.length rest)%nat /\
      Sorted (key_le key) (prev :: take k rest).
Proof.
  induction rest as [|cur rest IH]; intros prev n Hp Hrest; simpl.
  - exists 0%nat. split; [lia|]. split; [lia|]. repeat constructor.
  - inversion Hrest as [|? ? Hcur Hrest']; subst.
    rewrite (Compare_key cur prev Hcur Hp).
    destruct (key cur - key prev <? 0) eqn:E.
    + exists 0%nat. split; [lia|]. split; [lia|]. repeat constructor.
    + apply Z.ltb_ge in E.
      destruct (IH cur (S n) Hcur Hrest') as (k & Hk & Hle & Hs).
      exists (S k). split; [lia|]. split; [lia|]. simpl.
      constructor; [exact Hs|]. constructor. unfold key_le. lia.
Qed.

Lemma run_length_descending (rest : list A) :
  forall prev n,
    P prev -> Forall P rest ->
    exists k,
      JsArray.run_length comparefn true prev rest n = (n + k)%nat /\
      (k <= List.length rest)%nat /\
      Sorted (fun a b => key b < key a) (prev :: take k rest).
Proof.
  induction rest as [|cur rest IH]; intros prev n Hp Hrest; simpl.
  - exists 0%nat. split; [lia|]. split; [lia|]. repeat constructor.
  - inversion Hrest as [|? ? Hcur Hrest']; subst.
    rewrite (Compare_key cur prev Hcur Hp).
    destruct (0 <=? key cur - key prev) eqn:E.
    + exists 0%nat. split; [lia|]. split; [lia|]. repeat constructor.
    + apply Z.leb_gt in E.
      destruct (IH cur (S n) Hcur Hrest') as (k & Hk & Hle & Hs).
      exists (S k). split; [lia|]. split; [lia|]. simpl.
      constructor; [exact Hs|]. constructor. lia.
Qed.

(** The run that [CountAndMakeRun] leaves at the front is sorted. *)
Lemma CountAndMakeRun_sorted (array : list A) :
  Forall P array ->
  StronglySorted (key_le key)
    (take (snd (JsArray.CountAndMakeRun comparefn array))
          (fst (JsArray.CountAndMakeRun comparefn array))).
Proof.
  intros HP. unfold JsArray.CountAndMakeRun.
  destruct array as [|x [|y rest]].
  - constructor.
  - repeat constructor.
  - inversion HP as [|? ? Hx HP']; subst. inversion HP' as [|? ? Hy Hrest]; subst.
    rewrite (Compare_key y x Hy Hx).
    destruct (key y - key x <? 0) eqn:E; simpl fst; simpl snd.
    + apply Z.ltb_lt in E.
      destruct (run_length_descending rest y 2 Hy Hrest) as (k & -> & Hle & Hs).
      change (2 + k)%nat with (S (S k)).
      change (take (S (S k)) (x :: y :: rest)) with (x :: y :: take k rest).
      rewrite take_app_length'
        by (rewrite length_rev; simpl; rewrite length_take; lia).
      apply Sorted_StronglySorted; [apply key_le_transitive|].
      rewrite rev_alt. change (rev_append ?l []) with (reverse l).
      apply Sorted_weaken with (R1 := flip (fun a b => key b < key a)).
      { unfold flip, key_le. intros a b. lia. }
      apply Sorted_reverse. constructor; [exact Hs|]. constructor. lia.
    + apply Z.ltb_ge in E.
      destruct (run_length_ascending rest y 2 Hy Hrest) as (k & -> & Hle & Hs).
      change (2 + k)%nat with (S (S k)).
      change (take (S (S k)) (x :: y :: rest)) with (x :: y :: take k rest).
      apply Sorted_StronglySorted; [apply key_le_transitive|].
      constructor; [exact Hs|]. constructor. unfold key_le. lia.
Qed.

Lemma insertion_point_S fuel (pivot : A) workArray left right :
  JsArray.insertion_point comparefn (S fuel) pivot workArray left right
  = if (left <? right)%nat then
      match workArray !! (left + (right - left) / 2)%nat with
      | Some e =>
          if JsArray.Compare comparefn pivot e <? 0
          then JsArray.insertion_point comparefn fuel pivot workArray left
                                       (left + (right - left) / 2)%nat
          else JsArray.insertion_point comparefn fuel pivot workArray
                                       (left + (right - left) / 2 + 1)%nat right
      | None => left
      end
    else left.
Proof. reflexivity. Qed.

(** Binary search in a sorted array: what stands before the insertion
    point is not above the pivot, what stands from it on is above. *)
Lemma insertion_point_sorted (pivot : A) (sorted : list A) :
  StronglySorted (key_le key) sorted -> Forall P sorted -> P pivot ->
  forall fuel left right,
    (right - left <= fuel)%nat ->
    (left <= right <= List.length sorted)%nat ->
    Forall (fun e => key e <= key pivot) (take left sorted) ->
    Forall (fun e => key pivot < key e) (drop right sorted) ->
    let p := JsArray.insertion_point comparefn fuel pivot sorted left right in
    Forall (fun e => key e <= key pivot) (take p sorted) /\
    Forall (fun e => key pivot < key e) (drop p sorted).
Proof.
  intros Hsorted HP Hpivot.
  induction fuel as [|fuel IH]; intros left right Hfuel Hlr Hleft Hright.
  - simpl. replace right with left in Hright by lia. auto.
  - rewrite insertion_point_S. cbv zeta. destruct (left <? right)%nat eqn:E.
    2:{ apply Nat.ltb_ge in E. replace right with left in Hright by lia. auto. }
    apply Nat.ltb_lt in E.
    set (mid := (left + (right - left) / 2)%nat).
    assert (Hmid : (left <= mid < right)%nat).
    { subst mid. split; [lia|].
      assert ((right - left) / 2 < right - left)%nat; [|lia].
      apply Nat.div_lt; lia. }
    destruct (lookup_lt_is_Some_2 sorted mid) as [e He]; [lia|].
    rewrite He.
    assert (Pe : P e).
    { rewrite Forall_lookup in HP. apply (HP mid e He). }
    rewrite (Compare_key pivot e Hpivot Pe).
    rewrite <- (take_drop mid sorted) in Hsorted.
    rewrite (drop_S _ _ _ He) in Hsorted.
    apply StronglySorted_app in Hsorted as (Hcross & _ & Htail).
    apply StronglySorted_cons in Htail as [Htail _].
    destruct (key pivot - key e <? 0) eqn:Ecmp.
    + apply Z.ltb_lt in Ecmp. apply IH; [lia|lia|exact Hleft|].
      rewrite (drop_S _ _ _ He). constructor; [lia|].
      eapply Forall_impl; [exact Htail|]. unfold key_le. intros a Ha. simpl in *. lia.
    + apply Z.ltb_ge in Ecmp. apply IH; [lia|lia| |exact Hright].
      replace (mid + 1)%nat with (S mid) by lia.
      rewrite (take_S_r _ _ _ He). apply Forall_app. split.
      * apply Forall_forall. intros a Ha.
        assert (Hae : key_le key a e).
        { apply Hcross; [exact Ha|]. left. }
        unfold key_le in Hae. lia.
      * constructor; [lia|constructor].
Qed.

Lemma BinaryInsertionSort_sorted (rest : list A) :
  forall sorted,
    StronglySorted (key_le key) sorted -> Forall P sorted -> Forall P rest ->
    StronglySorted (key_le key) (JsArray.BinaryInsertionSort comparefn sorted rest).
Proof.
  induction rest as [|pivot rest IH]; intros sorted Hsorted HP Hrest; simpl.
  - exact Hsorted.
  - inversion Hrest as [|? ? Hpivot Hrest']; subst.
    destruct (insertion_point_sorted pivot sorted Hsorted HP Hpivot
                (List.length sorted) 0%nat (List.length sorted))
      as [Hbefore Hafter].
    { lia. } { lia. } { constructor. } { rewrite drop_all. constructor. }
    set (left := JsArray.insertion_point _ _ _ _ _ _) in *.
    apply IH; [| |exact Hrest'].
    + rewrite <- (take_drop left sorted) in Hsorted.
      apply StronglySorted_app in Hsorted as (Hcross & Hl & Hr).
      apply StronglySorted_app_2; [|exact Hl|].
      * intros a b Ha Hb. apply elem_of_cons in Hb as [->|Hb].
        -- rewrite Forall_forall in Hbefore. apply Hbefore, Ha.
        -- apply Hcross; assumption.
      * constructor; [exact Hr|].
        eapply Forall_impl; [exact Hafter|]. unfold key_le. intros a Ha. simpl in *. lia.
    + apply Forall_app. split; [apply Forall_take, HP|].
      constructor; [exact Hpivot|apply Forall_drop, HP].
Qed.

(** The array comes out in ascending order of the key. *)
Lemma sort_sorted (array : list A) :
  Forall P array ->
  StronglySorted (key_le key) (JsArray.sort comparefn array).
Proof.
  intros HP. unfold JsArray.sort.
  destruct (List.length array <? 2)%nat eqn:E.
  - apply Nat.ltb_lt in E. destruct array as [|x [|y rest]]; simpl in E; try lia.
    + constructor.
    + repeat constructor.
  - pose proof (CountAndMakeRun_sorted array HP) as Hrun.
    pose proof (CountAndMakeRun_Permutation comparefn array) as Hperm.
    destruct (JsArray.CountAndMakeRun comparefn array) as [workArray runLength].
    simpl in Hrun, Hperm.
    assert (HP' : Forall P workArray).
    { rewrite Hperm. exact HP. }
    apply BinaryInsertionSort_sorted;
      [exact Hrun|apply Forall_take, HP'|apply Forall_drop, HP'].
Qed.
End SortSorts.

(** *** The sort of [fetchRegistryTags] on dated tags *)

Lemma by_created_at_desc_dated (a b : GitLabTag.t) :
  dated a -> dated b ->
  JsArray.Compare by_created_at_desc a b = - time_of a - - time_of b.
Proof.
  unfold dated, JsArray.Compare, by_created_at_desc, time_of, jsnum_sub.
  intros Ha Hb.
  destruct (created_time a); [congruence|].
  destruct (created_time b); [congruence|]. lia.
Qed.

(** When every tag has a valid timestamp the final sort does what it is
    there for: the tags come out newest first, none lost. *)
Lemma dated_tags_sorted_descending (enrichedTags : list GitLabTag.t) :
  Forall dated enrichedTags ->
  StronglySorted (fun a b => time_of b <= time_of a)
                 (JsArray.sort by_created_at_desc enrichedTags) /\
  Permutation (JsArray.sort by_created_at_desc enrichedTags) enrichedTags.
Proof.
  intros Hdated. split; [|apply sort_Permutation].
  pose proof (sort_sorted by_created_at_desc (fun tag => - time_of tag) dated
                          by_created_at_desc_dated enrichedTags Hdated) as H.
  induction H as [|a l _ IH Ha]; constructor; [exact IH|].
  eapply Forall_impl; [exact Ha|]. unfold key_le. intros b Hb. simpl in Hb. lia.
Qed.

(** ** Computations that only talk to the network *)

Lemma emit_nil (s : State) : emit [] s = s.
Proof. destruct s. unfold emit, set_log. simpl. rewrite app_nil_r. reflexivity. Qed.

Lemma emit_app (l1 l2 : list Effect) (s : State) :
  emit l2 (emit l1 s) = emit (l1 ++ l2) s.
Proof. unfold emit, set_log. simpl. rewrite app_assoc. reflexivity. Qed.

Lemma network_only_ret {A} (a : A) : network_only (mret a) (Fulfilled a) [].
Proof. intros s. rewrite emit_nil. reflexivity. Qed.

Lemma network_only_bind {A B} (m : Async A) (f : A -> Async B) a l r l' :
  network_only m (Fulfilled a) l -> network_only (f a) r l' ->
  network_only (m ≫= f) r (l ++ l').
Proof.
  intros Hm Hf s. unfold mbind, Async_bind. rewrite Hm, Hf, emit_app. reflexivity.
Qed.

Lemma network_only_bind_rejected {A B} (m : Async A) (f : A -> Async B) l :
  network_only m Rejected l -> network_only (m ≫= f) Rejected l.
Proof. intros Hm s. unfold mbind, Async_bind. rewrite Hm. reflexivity. Qed.

Lemma network_only_fetch {A} token request (answer : Fetched A) :
  network_only (fetch token request answer)
               (match answer with
                | NetworkFailure => Rejected
                | HttpError => Fulfilled None
                | HttpOk body => Fulfilled (Some body)
                end)
               [Fetch token request].
Proof. intros s. unfold fetch. destruct answer; reflexivity. Qed.

Lemma network_only_Promise_all {A} (tasks : list (Async A)) (rs : list (Settled A)) :
  Forall2 (fun task r => exists l, network_only task r l) tasks rs ->
  exists l, network_only (Promise_all tasks) (all_settled rs) l.
Proof.
  induction 1 as [|task r tasks rs [l Hl] _ [ls IH]].
  - exists []. apply (network_only_ret []).
  - exists (l ++ ls). intros s. simpl. rewrite Hl, IH, emit_app.
    destruct r, (all_settled rs); reflexivity.
Qed.

Section Fetching.
Variable server : Server.

Lemma enrichTag_network_only token projectId repoId tag :
  exists l, network_only (enrichTag server token projectId repoId tag)
                         (enriched server token projectId repoId tag) l.
Proof.
  unfold enrichTag, enriched.
  destruct (tag_detail server token projectId repoId (GitLabTag.name tag)) eqn:E.
  - eexists. apply network_only_bind_rejected.
    apply (network_only_fetch token _ (@NetworkFailure GitLabTag.t)).
  - eexists (_ ++ _). eapply network_only_bind.
    + apply (network_only_fetch token _ (@HttpError GitLabTag.t)).
    + apply network_only_ret.
  - eexists (_ ++ _). eapply network_only_bind.
    + apply (network_only_fetch token _ (HttpOk body)).
    + apply network_only_ret.
Qed.

Lemma fetchRegistryTags_from_network_only token projectId repoId pages :
  forall page allTags,
  exists l,
    network_only (fetchRegistryTags_from token projectId repoId page pages allTags)
                 (match listing pages with
                  | Fulfilled more => Fulfilled (allTags ++ more)
                  | Rejected => Rejected
                  end) l.
Proof.
  induction pages as [|answer pages IH]; intros page allTags; simpl.
  - rewrite app_nil_r. eexists (_ ++ _). eapply network_only_bind.
    + apply (network_only_fetch token _ (HttpOk [])).
    + apply network_only_ret.
  - destruct answer as [| |pageTags].
    + eexists. apply network_only_bind_rejected.
      apply (network_only_fetch token _ (@NetworkFailure (list GitLabTag.t))).
    + rewrite app_nil_r. eexists (_ ++ _). eapply network_only_bind.
      * apply (network_only_fetch token _ (@HttpError (list GitLabTag.t))).
      * apply network_only_ret.
    + destruct pageTags as [|tag pageTags].
      * rewrite app_nil_r. eexists (_ ++ _). eapply network_only_bind.
        -- apply (network_only_fetch token _ (HttpOk [])).
        -- apply network_only_ret.
      * destruct (IH (page + 1) (allTags ++ tag :: pageTags)) as [l Hl].
        exists ([Fetch token (GET_tags projectId repoId page)] ++ l).
        eapply network_only_bind.
        -- apply (network_only_fetch token _ (HttpOk (tag :: pageTags))).
        -- simpl. destruct (listing pages) as [more|].
           ++ rewrite <- app_assoc in Hl. exact Hl.
           ++ exact Hl.
Qed.

(** [fetchRegistryTags] in one formula. *)
Lemma fetchRegistryTags_network_only token projectId repoId :
  exists l,
    network_only
      (fetchRegistryTags server token projectId repoId)
      (match listing (tags server token projectId repoId) with
       | Fulfilled allTags =>
           match all_settled (List.map (enriched server token projectId repoId)
                                       allTags) with
           | Fulfilled enrichedTags =>
               Fulfilled (JsArray.sort by_created_at_desc enrichedTags)
           | Rejected => Rejected
           end
       | Rejected => Rejected
       end) l.
Proof.
  unfold fetchRegistryTags.
  destruct (fetchRegistryTags_from_network_only
              token projectId repoId (tags server token projectId repoId) 1 [])
    as [l Hl].
  destruct (listing (tags server token projectId repoId)) as [allTags|].
  - simpl in Hl.
    destruct (network_only_Promise_all
                (List.map (enrichTag server token projectId repoId) allTags)
                (List.map (enriched server token projectId repoId) allTags))
      as [l' Hl'].
    { apply Forall2_fmap, Forall_Forall2_diag, Forall_forall.
      intros tag _. apply enrichTag_network_only. }
    destruct (all_settled _) as [enrichedTags|].
    + exists (l ++ l' ++ []). eapply network_only_bind; [exact Hl|].
      eapply network_only_bind; [exact Hl'|]. apply network_only_ret.
    + exists (l ++ l'). eapply network_only_bind; [exact Hl|].
      apply network_only_bind_rejected. exact Hl'.
  - exists l. apply network_only_bind_rejected. exact Hl.
Qed.
End Fetching.

Lemma all_settled_enriched (server : Server) token projectId repoId allTags :
  Forall (fun tag => tag_detail server token projectId repoId (GitLabTag.name tag)
                     <> NetworkFailure) allTags ->
  all_settled (List.map (enriched server token projectId repoId) allTags)
  = Fulfilled (List.map (enriched_or_name_only server token projectId repoId) allTags).
Proof.
  induction 1 as [|tag allTags Htag _ IH]; simpl; [reflexivity|].
  rewrite IH. unfold enriched, enriched_or_name_only.
  destruct (tag_detail server token projectId repoId (GitLabTag.name tag));
    [congruence|reflexivity|reflexivity].
Qed.

(** C9, as stated, fails: when the request for the detail of one tag
    does not get through, [Promise.all] is rejected and no tag comes
    back, the enriched ones included. *)
Lemma rejected_detail_rejects_batch_counterexample :
  ~ batch_survives_detail_failures Sample.unreachable_detail "glpat-token" 1 7
      Sample.fresh.
Proof.
  intros H. destruct (H _ eq_refl) as (result & Hres & _).
  vm_compute in Hres. discriminate Hres.
Qed.

Lemma all_settled_rejected (server : Server) token projectId repoId allTags :
  Exists (fun tag => tag_detail server token projectId repoId (GitLabTag.name tag)
                     = NetworkFailure) allTags ->
  all_settled (List.map (enriched server token projectId repoId) allTags) = Rejected.
Proof.
  induction 1 as [tag allTags Htag|tag allTags _ IH]; simpl.
  - unfold enriched at 1. rewrite Htag. reflexivity.
  - rewrite IH. destruct (enriched server token projectId repoId tag); reflexivity.
Qed.

(** C9, amended: when the listing gets through and every request for a
    detail is answered, [fetchRegistryTags] is fulfilled with a
    rearrangement of the listed tags in which a tag whose detail was
    answered with an error status has its name only, and a tag whose
    detail was answered with success has the timestamp and size of the
    detail; no tag is dropped.  When the request for one detail does not
    get through, [fetchRegistryTags] is rejected. *)
Theorem detail_error_degrades_one_tag
        (server : Server) (token : string) (projectId repoId : Z) (s : State)
        (allTags : list GitLabTag.t) :
  listing (tags server token projectId repoId) = Fulfilled allTags ->
  (Forall (fun tag => tag_detail server token projectId repoId (GitLabTag.name tag)
                      <> NetworkFailure) allTags ->
   exists result,
     fst (fetchRegistryTags server token projectId repoId s) = Fulfilled result /\
     Permutation result
       (List.map (enriched_or_name_only server token projectId repoId) allTags) /\
     List.length result = List.length allTags /\
     (forall tag,
         In tag allTags ->
         tag_detail server token projectId repoId (GitLabTag.name tag) = HttpError ->
         In (GitLabTag.name_only (GitLabTag.name tag)) result) /\
     (forall tag detail,
         In tag allTags ->
         tag_detail server token projectId repoId (GitLabTag.name tag) = HttpOk detail ->
         In (GitLabTag.mk (GitLabTag.name tag) (GitLabTag.created_at detail)
                          (GitLabTag.total_size detail)) result)) /\
  (Exists (fun tag => tag_detail server token projectId repoId (GitLabTag.name tag)
                      = NetworkFailure) allTags ->
   fst (fetchRegistryTags server token projectId repoId s) = Rejected).
Proof.
  intros Hlist.
  destruct (fetchRegistryTags_network_only server token projectId repoId) as [l Hl].
  rewrite Hlist in Hl. split.
  - intros Hdetails.
    rewrite (all_settled_enriched _ _ _ _ _ Hdetails) in Hl.
    eexists. rewrite Hl. split; [reflexivity|].
    pose proof (sort_Permutation by_created_at_desc
                  (List.map (enriched_or_name_only server token projectId repoId)
                            allTags))
      as Hperm.
    split; [exact Hperm|]. split.
    + rewrite (Permutation_length Hperm). apply length_map.
    + split.
      * intros tag Hin Herr. apply (Permutation_in _ (Permutation_sym Hperm)).
        apply in_map_iff. exists tag. split; [|exact Hin].
        unfold enriched_or_name_only. rewrite Herr. reflexivity.
      * intros tag detail Hin Hok. apply (Permutation_in _ (Permutation_sym Hperm)).
        apply in_map_iff. exists tag. split; [|exact Hin].
        unfold enriched_or_name_only. rewrite Hok. reflexivity.
  - intros Hfail. rewrite (all_settled_rejected _ _ _ _ _ Hfail) in Hl.
    rewrite Hl. reflexivity.
Qed.

Lemma detail_error_degrades_one_tag_witness :
  exists result,
    fst (fetchRegistryTags Sample.registry "glpat-token" 1 7 Sample.fresh)
    = Fulfilled result /\
    In (GitLabTag.name_only "latest") result /\
    In Sample.newer result /\ In Sample.older result.
Proof.
  destruct (detail_error_degrades_one_tag
              Sample.registry "glpat-token" 1 7 Sample.fresh
              [Sample.listed "v2"; Sample.listed "latest"; Sample.listed "v1"]
              eq_refl)
    as (Hanswered & _).
  destruct Hanswered as (result & Hres & _ & _ & Herr & Hok).
  { repeat constructor; discriminate. }
  exists result. split; [exact Hres|]. split; [|split].
  - apply (Herr (Sample.listed "latest")); [simpl; auto|reflexivity].
  - apply (Hok (Sample.listed "v2") Sample.newer); [simpl; auto|reflexivity].
  - apply (Hok (Sample.listed "v1") Sample.older); [simpl; auto|reflexivity].
Defined.

(** C1 does not hold of the code: a tag without timestamp is not sorted
    last.  Its time is [NaN], every comparison with it is [NaN], which
    the sort reads as equal, and the tag stays where the listing had
    it: listed between a newer and an older tag it is cached between
    them, and with the older tag listed first the two dated tags are
    not even swapped. *)
Theorem undated_tag_stays_in_place :
  cachedTags
    (snd (getChildren Sample.registry Sample.localeCompare Sample.toLocaleString
                      (Some Sample.repo7) Sample.fresh)) !! 7
  = Some [Sample.newer; Sample.undated; Sample.older] /\
  JsArray.sort by_created_at_desc [Sample.older; Sample.undated; Sample.newer]
  = [Sample.older; Sample.undated; Sample.newer] /\
  JsArray.sort by_created_at_desc [Sample.undated; Sample.newer; Sample.older]
  = [Sample.undated; Sample.newer; Sample.older].
Proof. repeat split; vm_compute; reflexivity. Qed.

Lemma oblivious_ret {A} (a : A) : oblivious (mret a).
Proof. eexists. eexists. apply network_only_ret. Qed.

Lemma oblivious_bind {A B} (m : Async A) (f : A -> Async B) :
  oblivious m -> (forall a, oblivious (f a)) -> oblivious (m ≫= f).
Proof.
  intros ([a|] & l & Hm) Hf.
  - destruct (Hf a) as (r & l' & Hfa). exists r, (l ++ l').
    eapply network_only_bind; eassumption.
  - exists Rejected, l. apply network_only_bind_rejected, Hm.
Qed.

Lemma oblivious_fetch {A} token request (answer : Fetched A) :
  oblivious (fetch token request answer).
Proof. eexists. eexists. apply network_only_fetch. Qed.

Lemma oblivious_effect (e : Effect) : oblivious (perform (effect e)).
Proof. exists (Fulfilled tt), [e]. intros s. reflexivity. Qed.

Lemma oblivious_Promise_all {A} (tasks : list (Async A)) :
  Forall oblivious tasks -> oblivious (Promise_all tasks).
Proof.
  induction 1 as [|task tasks (r & l & Hl) _ (rs & ls & IH)].
  - apply (oblivious_ret []).
  - eexists. exists (l ++ ls). intros s. simpl. rewrite Hl, IH, emit_app.
    reflexivity.
Qed.

Section Root.
Variable server : Server.
Variable localeCompare : string -> string -> Z.
Variable toLocaleString : jsnum -> string.

Local Abbreviation children := (getChildren server localeCompare toLocaleString).

Lemma projectCheck_oblivious token project :
  oblivious (projectCheck server token project).
Proof.
  unfold projectCheck.
  destruct (negb (GitLabProject.container_registry_enabled project));
    [apply oblivious_ret|].
  apply oblivious_bind; [apply oblivious_fetch|].
  intros [repos|]; [|apply oblivious_ret].
  destruct (0 <? List.length repos)%nat; apply oblivious_ret.
Qed.

Lemma fetchProjects_from_oblivious token pages :
  forall page projects,
    oblivious (fetchProjects_from server token page pages projects).
Proof.
  induction pages as [|answer pages IH]; intros page projects; simpl.
  - apply oblivious_bind; [apply oblivious_fetch|]. intros _. apply oblivious_ret.
  - apply oblivious_bind; [apply oblivious_fetch|].
    intros [pageProjects|].
    + destruct (List.length pageProjects =? 0)%nat; [apply oblivious_ret|].
      apply oblivious_bind; [|intros checks; apply IH].
      apply oblivious_Promise_all, Forall_map, Forall_forall.
      intros project _. apply projectCheck_oblivious.
    + apply oblivious_bind; [apply oblivious_effect|].
      intros _. apply oblivious_ret.
Qed.

Lemma fetchProjects_oblivious token : oblivious (fetchProjects server token).
Proof. apply fetchProjects_from_oblivious. Qed.

(** [root_items] reads the project list and the search string only. *)
Lemma root_items_ext (s s' : State) :
  cachedProjects s = cachedProjects s' -> searchQuery s = searchQuery s' ->
  root_items localeCompare s = root_items localeCompare s'.
Proof.
  intros Hp Hq. unfold root_items, getFilteredProjects. rewrite Hp, Hq. reflexivity.
Qed.

(** The root, once the token is known to be there. *)
Lemma getChildren_root_cached token (s : State) :
  cachedProjects s <> [] ->
  getChildren_root server localeCompare token s
  = (Fulfilled (root_items localeCompare s), s).
Proof.
  intros Hne. unfold getChildren_root, read, mbind, mret, Async_bind, Async_ret.
  destruct (cachedProjects s) as [|p ps] eqn:E; [congruence|]. reflexivity.
Qed.

Lemma getChildren_root_fetched token fetched l (s : State) :
  network_only (fetchProjects server token) fetched l ->
  cachedProjects s = [] ->
  getChildren_root server localeCompare token s
  = match fetched with
    | Rejected => (Rejected, emit l s)
    | Fulfilled ps =>
        let s' := saveCachedProjects (set_cachedProjects ps (emit l s)) in
        (Fulfilled (root_items localeCompare s'), s')
    end.
Proof.
  intros Hf He.
  unfold getChildren_root, read, perform, mbind, mret, Async_bind, Async_ret.
  rewrite He. simpl. rewrite Hf. destruct fetched; reflexivity.
Qed.

Lemma getChildren_token token (s : State) :
  secrets_gitlabToken s = Some token -> JsString.truthy token = true ->
  children None s = getChildren_root server localeCompare token s.
Proof.
  intros Hs Ht. unfold getChildren, read, mbind, Async_bind.
  rewrite Hs, Ht. reflexivity.
Qed.

(** What the root resolves to, and what it leaves behind. *)
Lemma root_result token fetched l (s : State) :
  network_only (fetchProjects server token) fetched l ->
  secrets_gitlabToken s = Some token -> JsString.truthy token = true ->
  fst (children None s)
  = match effective_projects fetched s with
    | Rejected => Rejected
    | Fulfilled ps => Fulfilled (root_items localeCompare (set_cachedProjects ps s))
    end.
Proof.
  intros Hf Hs Ht. rewrite (getChildren_token token s Hs Ht).
  unfold effective_projects.
  destruct (cachedProjects s) as [|p ps] eqn:E.
  - rewrite (getChildren_root_fetched token fetched l s Hf E).
    destruct fetched as [qs|]; [|reflexivity].
    reflexivity.
  - rewrite getChildren_root_cached by congruence.
    unfold fst. f_equal. apply root_items_ext; [simpl; congruence|reflexivity].
Qed.

Lemma root_state token fetched l (s : State) :
  network_only (fetchProjects server token) fetched l ->
  secrets_gitlabToken s = Some token -> JsString.truthy token = true ->
  effective_projects fetched (snd (children None s)) = effective_projects fetched s /\
  searchQuery (snd (children None s)) = searchQuery s /\
  secrets_gitlabToken (snd (children None s)) = secrets_gitlabToken s.
Proof.
  intros Hf Hs Ht. rewrite (getChildren_token token s Hs Ht).
  unfold effective_projects.
  destruct (cachedProjects s) as [|p ps] eqn:E.
  - rewrite (getChildren_root_fetched token fetched l s Hf E).
    destruct fetched as [qs|]; simpl.
    + repeat split. destruct qs; reflexivity.
    + rewrite E. repeat split.
  - rewrite getChildren_root_cached by congruence. simpl. rewrite E.
    repeat split.
Qed.

Lemma setSearchQuery_effective fetched query (s : State) :
  effective_projects fetched (setSearchQuery query s) = effective_projects fetched s.
Proof. reflexivity. Qed.

(** The state is as it was when the root is resolved from a cached
    project list. *)
Lemma root_cached_state (s : State) :
  cachedProjects s <> [] -> snd (children None s) = s.
Proof.
  intros Hne. unfold getChildren, read, mbind, Async_bind.
  destruct (secrets_gitlabToken s) as [token|]; [|reflexivity].
  destruct (negb (JsString.truthy token)); [reflexivity|].
  fold (@mbind Async _). 
  change (snd (getChildren_root server localeCompare token s) = s).
  rewrite getChildren_root_cached by exact Hne. reflexivity.
Qed.

(** And when a repository is resolved from cached tags. *)
Lemma repo_cached_state (e : TreeItemWithContext.t) (projectId repoId : Z)
      (s : State) (cached : list GitLabTag.t) :
  truthy_opt (secrets_gitlabToken s) = true ->
  repo_node e projectId repoId ->
  cachedTags s !! repoId = Some cached ->
  snd (children (Some e) s) = s.
Proof.
  intros Htok Hnode Hcached.
  destruct (getChildren_repo_node server localeCompare toLocaleString
                                  e projectId repoId s Htok Hnode)
    as (token & _ & ->).
  unfold getChildren_repo, read, mbind, mret, Async_bind, Async_ret.
  rewrite Hcached. cbv beta iota.
  match goal with |- context [if ?b then _ else _] => destruct b end; reflexivity.
Qed.

Lemma getChildren_falsy_token (element : option TreeItemWithContext.t) (s : State) :
  truthy_opt (secrets_gitlabToken s) = false ->
  children element s = (Fulfilled [], s).
Proof.
  intros H. unfold getChildren, read, mbind, Async_bind.
  destruct (secrets_gitlabToken s) as [token|]; [|reflexivity].
  simpl in H. rewrite H. reflexivity.
Qed.

(** The root shows the same in two states that have the token, the
    effective project list and the search string in common. *)
Lemma root_same_view token fetched l (s s' : State) :
  network_only (fetchProjects server token) fetched l ->
  JsString.truthy token = true ->
  secrets_gitlabToken s = Some token ->
  secrets_gitlabToken s' = Some token ->
  effective_projects fetched s' = effective_projects fetched s ->
  searchQuery s' = searchQuery s ->
  fst (children None s') = fst (children None s).
Proof.
  intros Hf Ht Hs Hs' He Hq.
  rewrite (root_result token fetched l s' Hf Hs' Ht).
  rewrite (root_result token fetched l s Hf Hs Ht).
  rewrite He. destruct (effective_projects fetched s); [|reflexivity].
  f_equal. apply root_items_ext; [reflexivity|exact Hq].
Qed.

(** C8: setting the global search and then clearing it gives back the
    root children of before, when the root is resolved right after the
    clearing and also when the tree was resolved before the search was
    set and while it was active.  Setting a search or a tag filter
    leaves the cached project list and the cached tags as they are, and
    so does applying them: resolving the root from a cached project
    list, or a repository from cached tags, leaves the state as it
    is. *)
Theorem search_set_then_cleared :
  (forall (s : State) (query : string),
      searchQuery s = "" ->
      fst (children None (setSearchQuery "" (setSearchQuery query s)))
      = fst (children None s)) /\
  (forall (s : State) (query : string),
      searchQuery s = "" ->
      let before := children None s in
      let searching := children None (setSearchQuery query (snd before)) in
      let after := children None (setSearchQuery "" (snd searching)) in
      fst after = fst before) /\
  (forall (s : State) (query : string),
      cachedProjects (setSearchQuery query s) = cachedProjects s /\
      cachedTags (setSearchQuery query s) = cachedTags s) /\
  (forall (s : State) (repoId : Z) (query : string),
      cachedProjects (setFilterTagsQuery repoId query s) = cachedProjects s /\
      cachedTags (setFilterTagsQuery repoId query s) = cachedTags s) /\
  (forall s : State,
      cachedProjects s <> [] -> snd (children None s) = s) /\
  (forall (s : State) (e : TreeItemWithContext.t) (projectId repoId : Z)
          (cached : list GitLabTag.t),
      truthy_opt (secrets_gitlabToken s) = true ->
      repo_node e projectId repoId ->
      cachedTags s !! repoId = Some cached ->
      snd (children (Some e) s) = s).
Proof.
  split; [|split; [|split; [|split; [|split]]]].
  - intros s query Hq.
    destruct (truthy_opt (secrets_gitlabToken s)) eqn:Ht.
    + destruct (secrets_gitlabToken s) as [token|] eqn:E; [|discriminate].
      destruct (fetchProjects_oblivious token) as (fetched & l & Hf).
      apply (root_same_view token fetched l); try assumption; try reflexivity.
      rewrite Hq. reflexivity.
    + rewrite !getChildren_falsy_token; [reflexivity|exact Ht|exact Ht].
  - intros s query Hq before searching after. subst before searching after.
    destruct (truthy_opt (secrets_gitlabToken s)) eqn:Ht.
    + destruct (secrets_gitlabToken s) as [token|] eqn:E; [|discriminate].
      simpl in Ht.
      destruct (fetchProjects_oblivious token) as (fetched & l & Hf).
      destruct (root_state token fetched l s Hf E Ht) as (He1 & Hq1 & Hs1).
      set (s1 := snd (children None s)) in *.
      assert (Hs1' : secrets_gitlabToken (setSearchQuery query s1) = Some token)
        by (rewrite <- E, <- Hs1; reflexivity).
      destruct (root_state token fetched l _ Hf Hs1' Ht) as (He2 & _ & Hs2).
      set (s2 := snd (children None (setSearchQuery query s1))) in *.
      apply (root_same_view token fetched l); try assumption.
      * change (secrets_gitlabToken s2 = Some token). congruence.
      * change (effective_projects fetched s2 = effective_projects fetched s).
        rewrite He2, setSearchQuery_effective. exact He1.
      * rewrite Hq. reflexivity.
    + rewrite (getChildren_falsy_token None s Ht). simpl snd.
      assert (Ht1 : truthy_opt (secrets_gitlabToken (setSearchQuery query s)) = false)
        by exact Ht.
      rewrite (getChildren_falsy_token None _ Ht1). simpl snd.
      rewrite (getChildren_falsy_token None
                 (setSearchQuery "" (setSearchQuery query s)) Ht).
      reflexivity.
  - intros s query. split; reflexivity.
  - intros s repoId query. unfold setFilterTagsQuery.
    destruct (JsString.truthy query); split; reflexivity.
  - apply root_cached_state.
  - intros s e projectId repoId cached. apply repo_cached_state.
Qed.
End Root.

(** ** The properties at work on the sample data *)

Lemma getChildren_without_token_witness :
  getChildren Sample.registry Sample.localeCompare Sample.toLocaleString
              (Some Sample.repo7) Sample.no_token
  = (Fulfilled [], Sample.no_token).
Proof.
  apply (getChildren_without_token Sample.registry Sample.localeCompare
                                   Sample.toLocaleString (Some Sample.repo7)
                                   Sample.no_token).
  reflexivity.
Defined.

Lemma maxTagsToDisplay_default_is_20_witness :
  getConfiguration_get "gitlabRegistryExplorer" "maxTagsToDisplay" 50
                       Sample.with_thirty = 20.
Proof.
  apply (maxTagsToDisplay_default_is_20 Sample.registry Sample.localeCompare
                                        Sample.toLocaleString Sample.with_thirty).
  reflexivity.
Defined.

Lemma no_match_gives_filter_and_placeholder_witness :
  fst (getChildren Sample.registry Sample.localeCompare Sample.toLocaleString
                   (Some Sample.repo7)
                   (setFilterTagsQuery 7 "Release" Sample.with_thirty))
  = Fulfilled [filterItem Sample.repo7 "release"; noMatchItem].
Proof.
  destruct (no_match_gives_filter_and_placeholder
              Sample.registry Sample.localeCompare Sample.toLocaleString
              Sample.repo7 1 7 (setFilterTagsQuery 7 "Release" Sample.with_thirty)
              Sample.thirty)
    as (H & _).
  - reflexivity.
  - repeat split; try reflexivity; discriminate.
  - reflexivity.
  - reflexivity.
  - repeat constructor.
  - rewrite H. reflexivity.
Defined.

Lemma thirty_tags_with_cutoff_20_witness :
  List.length
    (match fst (getChildren Sample.registry Sample.localeCompare
                            Sample.toLocaleString (Some Sample.repo7)
                            Sample.with_thirty) with
     | Fulfilled nodes => nodes
     | Rejected => []
     end) = 22%nat /\
  List.length
    (match fst (getChildren Sample.registry Sample.localeCompare
                            Sample.toLocaleString (Some Sample.repo7)
                            (showAllTags 7 Sample.with_thirty)) with
     | Fulfilled nodes => nodes
     | Rejected => []
     end) = 31%nat.
Proof.
  destruct (thirty_tags_with_cutoff_20
              Sample.registry Sample.localeCompare Sample.toLocaleString
              Sample.repo7 1 7 Sample.with_thirty Sample.thirty)
    as ((H1 & L1 & _) & (H2 & L2 & _)).
  - reflexivity.
  - repeat split; try reflexivity; discriminate.
  - reflexivity.
  - reflexivity.
  - reflexivity.
  - reflexivity.
  - apply not_elem_of_empty.
  - rewrite H1, H2. split; [exact L1|exact L2].
Defined.

Lemma search_set_then_cleared_witness :
  fst (getChildren Sample.registry Sample.localeCompare Sample.toLocaleString None
                   (setSearchQuery "" (setSearchQuery " App" Sample.with_thirty)))
  = fst (getChildren Sample.registry Sample.localeCompare Sample.toLocaleString None
                     Sample.with_thirty).
Proof.
  destruct (search_set_then_cleared Sample.registry Sample.localeCompare
                                    Sample.toLocaleString) as (H & _).
  apply (H Sample.with_thirty " App"). reflexivity.
Defined.

(** * Further properties of the code *)

(** ** The filters: what is set is what is read *)

Lemma getFilterTagsQuery_set (repoId : Z) (query : string) (s : State) :
  getFilterTagsQuery repoId (setFilterTagsQuery repoId query s)
  = JsString.trim (JsString.toLowerCase query).
Proof.
  unfold getFilterTagsQuery, setFilterTagsQuery.
  destruct query as [|c q]; simpl.
  - rewrite lookup_delete_eq. reflexivity.
  - rewrite lookup_insert_eq. destruct (JsString.trim _); reflexivity.
Qed.

Lemma getFilterTagsQuery_set_other (repoId other : Z) (query : string) (s : State) :
  other <> repoId ->
  getFilterTagsQuery other (setFilterTagsQuery repoId query s)
  = getFilterTagsQuery other s.
Proof.
  intros Hne. unfold getFilterTagsQuery, setFilterTagsQuery.
  destruct (JsString.truthy query); simpl.
  - rewrite lookup_insert_ne by congruence. reflexivity.
  - rewrite lookup_delete_ne by congruence. reflexivity.
Qed.

(** X1: [getFilterTagsQuery] after [setFilterTagsQuery] on the same
    repository gives the query in lower case and trimmed, whatever the
    query is; the filter of any other repository reads as before. *)
Theorem tag_filter_set_then_get (repoId : Z) (query : string) (s : State) :
  getFilterTagsQuery repoId (setFilterTagsQuery repoId query s)
  = JsString.trim (JsString.toLowerCase query) /\
  forall other : Z,
    other <> repoId ->
    getFilterTagsQuery other (setFilterTagsQuery repoId query s)
    = getFilterTagsQuery other s.
Proof.
  split; [apply getFilterTagsQuery_set|].
  intros other. apply getFilterTagsQuery_set_other.
Qed.

Lemma tag_filter_set_then_get_witness :
  getFilterTagsQuery 7 (setFilterTagsQuery 7 "  V1.2 " Sample.with_thirty) = "v1.2" /\
  getFilterTagsQuery 8 (setFilterTagsQuery 7 "  V1.2 " Sample.with_thirty)
  = getFilterTagsQuery 8 Sample.with_thirty.
Proof.
  destruct (tag_filter_set_then_get 7 "  V1.2 " Sample.with_thirty) as [H1 H2].
  split; [exact H1|apply H2; discriminate].
Defined.

(** X2: a quick pick opens with the current query as its value;
    accepting that value without choosing a suggestion leaves the query
    as it is, for the project search and for the tag filter of a
    repository. *)
Theorem accepting_the_current_query (repoId : Z) (query : string) (s : State) :
  (let s' := setSearchQuery query s in
   getSearchQuery (searchProjects_onDidAccept None (getSearchQuery s') s')
   = getSearchQuery s') /\
  (let s' := setFilterTagsQuery repoId query s in
   getFilterTagsQuery repoId
     (filterTagsInline_onDidAccept repoId None (getFilterTagsQuery repoId s') s')
   = getFilterTagsQuery repoId s').
Proof.
  split; cbv zeta.
  - unfold searchProjects_onDidAccept, accepted, getSearchQuery, setSearchQuery.
    simpl. apply normalised_fixed.
  - unfold filterTagsInline_onDidAccept, accepted.
    rewrite !getFilterTagsQuery_set. apply normalised_fixed.
Qed.

(** ** Collapsing a repository, clearing the filters *)

(** X3: collapsing a repository node resets the tag filter and the
    show-all state of that repository and of no other, keeps the caches
    and the project search, and fires the change event twice; collapsing
    any other node does nothing at all. *)
Theorem collapse_resets_one_repository (e : TreeItemWithContext.t) (s : State) :
  (forall repoId : Z,
      TreeItemWithContext.context e = Ctx.repo ->
      TreeItemWithContext.repoId e = Some repoId -> repoId <> 0 ->
      let s' := onDidCollapseElement e s in
      getFilterTagsQuery repoId s' = "" /\
      (repoId ∉ showAllTagsForRepo s') /\
      (forall other : Z,
          other <> repoId ->
          getFilterTagsQuery other s' = getFilterTagsQuery other s /\
          ((other ∈ showAllTagsForRepo s') <-> (other ∈ showAllTagsForRepo s))) /\
      cachedProjects s' = cachedProjects s /\
      cachedTags s' = cachedTags s /\
      searchQuery s' = searchQuery s /\
      log s' = log s ++ [Fire; Fire]) /\
  (TreeItemWithContext.context e <> Ctx.repo -> onDidCollapseElement e s = s) /\
  (truthy_id (TreeItemWithContext.repoId e) = false -> onDidCollapseElement e s = s).
Proof.
  split; [|split].
  - intros repoId Hc Hr Hne s'. subst s'. unfold onDidCollapseElement.
    rewrite Hc, Hr. simpl truthy_id.
    apply Z.eqb_neq in Hne as Hb. rewrite Hb. simpl.
    apply Z.eqb_neq in Hb.
    unfold getFilterTagsQuery. simpl.
    rewrite lookup_delete_eq.
    split; [reflexivity|]. split.
    { rewrite elem_of_difference, elem_of_singleton. tauto. }
    split.
    + intros other Ho. rewrite lookup_delete_ne by congruence.
      split; [reflexivity|].
      rewrite elem_of_difference, elem_of_singleton. tauto.
    + repeat split. rewrite <- app_assoc. reflexivity.
  - intros Hc. unfold onDidCollapseElement.
    rewrite bool_decide_eq_false_2 by exact Hc. reflexivity.
  - intros Hr. unfold onDidCollapseElement. rewrite Hr, andb_false_r. reflexivity.
Qed.

Lemma collapse_resets_one_repository_witness :
  getFilterTagsQuery 7 (onDidCollapseElement Sample.repo7 Sample.searching) = "" /\
  7 ∉ showAllTagsForRepo (onDidCollapseElement Sample.repo7 Sample.searching).
Proof.
  destruct (collapse_resets_one_repository Sample.repo7 Sample.searching) as (H & _).
  destruct (H 7) as (H1 & H2 & _); [reflexivity|reflexivity|discriminate|].
  split; [exact H1|exact H2].
Defined.

(** X4: after [clearFilters] every cached project passes the search, no
    repository has a tag filter or is shown in full; the caches, the
    stored list and the token are as before, and the host is asked to
    collapse the tree before the change event is fired. *)
Theorem clearFilters_resets_the_views (s : State) :
  getFilteredProjects (clearFilters s) = cachedProjects s /\
  (forall repoId : Z,
      getFilterTagsQuery repoId (clearFilters s) = "" /\
      repoId ∉ showAllTagsForRepo (clearFilters s)) /\
  cachedProjects (clearFilters s) = cachedProjects s /\
  cachedTags (clearFilters s) = cachedTags s /\
  globalState_cachedProjects (clearFilters s) = globalState_cachedProjects s /\
  secrets_gitlabToken (clearFilters s) = secrets_gitlabToken s /\
  log (clearFilters s)
  = log s ++ [ExecuteCommand
                "workbench.actions.treeView.gitlabRegistryExplorer.collapseAll";
              Fire].
Proof.
  unfold clearFilters, getFilteredProjects, getFilterTagsQuery. simpl.
  split; [reflexivity|]. split.
  - intros repoId. rewrite lookup_empty. split; [reflexivity|apply not_elem_of_empty].
  - repeat split. rewrite <- app_assoc. reflexivity.
Qed.

(** ** The levels of the tree *)

Section Levels.
Variable server : Server.
Variable localeCompare : string -> string -> Z.
Variable toLocaleString : jsnum -> string.

Local Abbreviation children := (getChildren server localeCompare toLocaleString).

(** X5: the children of a repository node with cached tags, whatever
    the filter, the cutoff (zero and negative values included) and the
    show-all state are: the tags that pass the filter are split, in cache
    order, into those shown and the rest; the result is the filter node,
    one node per shown tag, and a show-more node exactly when the rest is
    not empty, which announces the length of the rest.  In show-all state
    the rest is empty. *)
Theorem show_more_count_is_exact
        (e : TreeItemWithContext.t) (projectId repoId : Z) (s : State)
        (cached : list GitLabTag.t) :
  truthy_opt (secrets_gitlabToken s) = true ->
  repo_node e projectId repoId ->
  cachedTags s !! repoId = Some cached ->
  matching_tags (getFilterTagsQuery repoId s) cached <> [] ->
  exists shown rest : list GitLabTag.t,
    matching_tags (getFilterTagsQuery repoId s) cached = shown ++ rest /\
    fst (children (Some e) s)
    = Fulfilled
        (filterItem e (getFilterTagsQuery repoId s)
         :: List.map (tagItem toLocaleString e
                              (List.find (fun p => GitLabProject.id p =? projectId)
                                         (cachedProjects s)))
                     shown
         ++ match rest with
            | [] => []
            | _ :: _ => [showAllItem e (Z.of_nat (List.length rest))]
            end) /\
    (repoId ∈ showAllTagsForRepo s -> rest = []).
Proof.
  intros Htok Hnode Hcached Hne.
  destruct (getChildren_repo_node server localeCompare toLocaleString
                                  e projectId repoId s Htok Hnode)
    as (token & _ & ->).
  unfold getChildren_repo, read, mbind, mret, Async_bind, Async_ret.
  rewrite Hcached. cbv beta iota.
  fold (matching_tags (getFilterTagsQuery repoId s) cached).
  set (matching := matching_tags (getFilterTagsQuery repoId s) cached) in *.
  destruct matching as [|tag matching'] eqn:Em; [congruence|].
  rewrite <- Em. replace (List.length matching =? 0)%nat with false
    by (subst matching; rewrite Em; reflexivity).
  cbv beta iota.
  destruct (bool_decide (repoId ∈ showAllTagsForRepo s)) eqn:Eshow.
  - exists matching, []. rewrite app_nil_r, Z.sub_diag. simpl.
    rewrite app_nil_r. repeat split; reflexivity.
  - unfold JsArray.slice_to.
    set (n := Z.to_nat _).
    exists (firstn n matching), (skipn n matching).
    split; [symmetry; apply firstn_skipn|]. split.
    + assert (Hrem : Z.of_nat (List.length matching)
                     - Z.of_nat (List.length (firstn n matching))
                     = Z.of_nat (List.length (skipn n matching))).
      { rewrite length_firstn, length_skipn. lia. }
      rewrite Hrem. destruct (skipn n matching); reflexivity.
    + intros Hin. apply bool_decide_eq_false_1 in Eshow. contradiction.
Qed.

(** *** Sets of strings in insertion order *)

Lemma Set_add_In (x y : string) (set : list string) :
  In y (JsArray.Set_add x set) <-> In y set \/ y = x.
Proof.
  unfold JsArray.Set_add. destruct (existsb (String.eqb x) set) eqn:E.
  - apply existsb_exists in E as (z & Hz & Hxz). apply String.eqb_eq in Hxz. subst z.
    split; [auto|]. intros [H| ->]; assumption.
  - rewrite in_app_iff. simpl. intuition congruence.
Qed.

Lemma Set_add_NoDup (x : string) (set : list string) :
  NoDup set -> NoDup (JsArray.Set_add x set).
Proof.
  intros Hnd. unfold JsArray.Set_add. destruct (existsb (String.eqb x) set) eqn:E.
  - exact Hnd.
  - apply NoDup_app. split; [exact Hnd|]. split; [|apply NoDup_singleton].
    intros y Hy Hx. apply list_elem_of_singleton in Hx. subst y.
    assert (existsb (String.eqb x) set = true); [|congruence].
    apply existsb_exists. exists x.
    split; [apply list_elem_of_In, Hy|apply String.eqb_refl].
Qed.

(** A loop that adds to a set what [h] gives for each element. *)
Lemma fold_Set_add {A} (h : A -> option string)
      (step : list string -> A -> list string) (ps : list A) :
  (forall set p, step set p = match h p with
                              | Some x => JsArray.Set_add x set
                              | None => set
                              end) ->
  forall set,
    NoDup set ->
    NoDup (fold_left step ps set) /\
    forall r, In r (fold_left step ps set)
              <-> In r set \/ exists p, In p ps /\ h p = Some r.
Proof.
  intros Hstep. induction ps as [|p ps IH]; intros set Hnd; simpl.
  - split; [exact Hnd|]. intros r. split; [auto|]. intros [H|(p & [] & _)]. exact H.
  - assert (Hnd' : NoDup (step set p)).
    { rewrite Hstep. destruct (h p); [apply Set_add_NoDup, Hnd|exact Hnd]. }
    destruct (IH _ Hnd') as [H1 H2]. split; [exact H1|].
    intros r. rewrite H2, Hstep. split.
    + intros [H|(q & Hq & Hr)].
      * destruct (h p) as [x|] eqn:E; [|auto].
        apply Set_add_In in H as [H| ->]; [auto|]. right. exists p. auto.
      * right. exists q. auto.
    + intros [H|(q & [<-|Hq] & Hr)].
      * left. destruct (h p); [apply Set_add_In|]; auto.
      * left. rewrite Hr. apply Set_add_In. auto.
      * right. exists q. auto.
Qed.

(** *** The root *)

Lemma getChildren_root_with_token (s : State) :
  truthy_opt (secrets_gitlabToken s) = true ->
  cachedProjects s <> [] ->
  children None s = (Fulfilled (root_items localeCompare s), s).
Proof.
  intros Htok Hne.
  destruct (secrets_gitlabToken s) as [token|] eqn:E; [|discriminate].
  rewrite (getChildren_token server localeCompare toLocaleString token s E Htok).
  apply getChildren_root_cached, Hne.
Qed.

(** X6: with a search active, the root is resolved from the cached
    projects without a request: it is the placeholder when no project
    passes the search, and else a rearrangement of one project node per
    project that passes it, labelled with name and namespace; there is
    no folder node. *)
Theorem root_under_search (s : State) :
  truthy_opt (secrets_gitlabToken s) = true ->
  cachedProjects s <> [] ->
  JsString.truthy (searchQuery s) = true ->
  snd (children None s) = s /\
  (getFilteredProjects s = [] ->
   fst (children None s) = Fulfilled [no_projects_item]) /\
  (getFilteredProjects s <> [] ->
   exists items,
     fst (children None s) = Fulfilled items /\
     Permutation items (List.map search_item (getFilteredProjects s)) /\
     Forall (fun item => TreeItemWithContext.context item = Ctx.project) items).
Proof.
  intros Htok Hne Hq. rewrite (getChildren_root_with_token s Htok Hne).
  split; [reflexivity|]. unfold root_items. rewrite Hq. split.
  - intros ->. reflexivity.
  - intros Hf. destruct (getFilteredProjects s) as [|p ps] eqn:E; [congruence|].
    eexists. split; [reflexivity|].
    assert (Hperm : Permutation
                      (sort_by_label localeCompare (List.map search_item (p :: ps)))
                      (List.map search_item (p :: ps)))
      by apply sort_Permutation.
    split; [exact Hperm|].
    eapply Permutation_Forall; [symmetry; exact Hperm|].
    apply Forall_map, Forall_forall. intros q _. reflexivity.
Qed.

(** X7: without a search, the root is resolved from the cached projects
    without a request into folder nodes: one for each first segment of a
    namespace of a cached project, none twice and no other. *)
Theorem root_folders (s : State) :
  truthy_opt (secrets_gitlabToken s) = true ->
  cachedProjects s <> [] ->
  searchQuery s = "" ->
  exists roots : list string,
    children None s = (Fulfilled (List.map root_folder_item roots), s) /\
    NoDup roots /\
    forall r, In r roots <-> exists p, In p (cachedProjects s) /\ root_of p = r.
Proof.
  intros Htok Hne Hq. rewrite (getChildren_root_with_token s Htok Hne).
  unfold root_items, getFilteredProjects. rewrite Hq. simpl JsString.truthy.
  cbv beta iota zeta. simpl negb. cbv iota.
  destruct (cachedProjects s) as [|p ps] eqn:E; [congruence|].
  change (List.length (p :: ps) =? 0)%nat with false. cbv iota.
  set (step := fun (set : list string) (q : GitLabProject.t) => _).
  destruct (fold_Set_add (fun q => Some (root_of q)) step (p :: ps)
                         (fun _ _ => eq_refl) [] (NoDup_nil_2)) as [Hnd Hin].
  set (rootFolders := fold_left step (p :: ps) []) in *.
  pose proof (sort_Permutation
                (fun a b => Num (if JsString.ltb a b then -1
                                 else if JsString.ltb b a then 1 else 0))
                rootFolders) as Hperm.
  exists (JsArray.sort_strings rootFolders).
  split; [reflexivity|]. split.
  - unfold JsArray.sort_strings. rewrite Hperm. exact Hnd.
  - intros r. split.
    + intros Hr. apply (Permutation_in _ Hperm) in Hr. apply Hin in Hr as [[]|(q & Hq' & Hr)].
      exists q. split; [exact Hq'|congruence].
    + intros (q & Hq' & Hr). apply (Permutation_in _ (Permutation_sym Hperm)).
      apply Hin. right. exists q. split; [exact Hq'|congruence].
Qed.


(** *** Folders *)

Lemma getChildren_folder_node (e : TreeItemWithContext.t) (s : State) :
  truthy_opt (secrets_gitlabToken s) = true ->
  TreeItemWithContext.context e = Ctx.folder ->
  children (Some e) s = getChildren_folder localeCompare e s.
Proof.
  intros Htok Hc. unfold getChildren, read, mbind, Async_bind.
  destruct (secrets_gitlabToken s) as [token|]; [|discriminate].
  simpl in Htok. rewrite Htok, Hc. reflexivity.
Qed.

(** X8: a folder node is resolved from the cached projects alone, without
    a request and without a change of state, into a rearrangement of one
    project node per cached project whose namespace is the path of the
    folder, and one folder node per folder one level below that leads to
    a cached project, none twice.  A folder node without path gives no
    child and an error on the console. *)
Theorem folder_children (e : TreeItemWithContext.t) (s : State) :
  truthy_opt (secrets_gitlabToken s) = true ->
  TreeItemWithContext.context e = Ctx.folder ->
  (forall fullPath,
      TreeItemWithContext.fullPath e = Some fullPath ->
      exists (subfolders : list string) (items : list TreeItemWithContext.t),
        children (Some e) s = (Fulfilled items, s) /\
        Permutation items
          (List.map project_item
                    (List.filter (fun p => String.eqb (namespace_of p) fullPath)
                                 (cachedProjects s))
           ++ List.map folder_item subfolders) /\
        NoDup subfolders /\
        forall path,
          In path subfolders
          <-> exists p, In p (cachedProjects s) /\ subfolder_of fullPath p = Some path) /\
  (TreeItemWithContext.fullPath e = None ->
   children (Some e) s
   = (Fulfilled [], effect (ConsoleError "Folder element is missing fullPath:") s)).
Proof.
  intros Htok Hc. rewrite (getChildren_folder_node e s Htok Hc).
  unfold getChildren_folder. split.
  - intros fullPath ->.
    unfold read, mbind, mret, Async_bind, Async_ret. cbv beta iota zeta.
    set (step := fun (set : list string) (p : GitLabProject.t) => _).
    destruct (fold_Set_add (subfolder_of fullPath) step (cachedProjects s)) with (set := @nil string)
      as [Hnd Hin].
    { intros set p. subst step. unfold subfolder_of, namespace_of. cbv beta.
      destruct (JsString.startsWith _ _); reflexivity. }
    { apply NoDup_nil_2. }
    exists (fold_left step (cachedProjects s) []). eexists.
    split; [reflexivity|]. split; [apply sort_Permutation|]. split; [exact Hnd|].
    intros path. rewrite Hin. split; [intros [[]|H]; exact H|auto].
  - intros ->. reflexivity.
Qed.

(** *** Projects *)

Lemma getChildren_project_node (e : TreeItemWithContext.t) (projectId : Z) (s : State) :
  truthy_opt (secrets_gitlabToken s) = true ->
  TreeItemWithContext.context e = Ctx.project ->
  TreeItemWithContext.projectId e = Some projectId -> projectId <> 0 ->
  exists token,
    secrets_gitlabToken s = Some token /\
    children (Some e) s = getChildren_project server token e projectId s.
Proof.
  intros Htok Hc Hp Hne.
  destruct (secrets_gitlabToken s) as [token|] eqn:E; [|discriminate].
  exists token. split; [reflexivity|].
  unfold getChildren, read, mbind, Async_bind. rewrite E.
  simpl in Htok. rewrite Htok, Hc, Hp. simpl.
  apply Z.eqb_neq in Hne. rewrite Hne. reflexivity.
Qed.

(** X9: a project node is resolved by one request for its repositories,
    sent with the stored token at every expansion, and by nothing else:
    the caches are not read and the state only gains the request in its
    log.  An error status gives no child, a request that does not get
    through rejects, and a list of repositories gives one repository
    node per repository, in the order of the answer, each of which
    [getChildren] takes for a repository node of that project. *)
Theorem project_children (e : TreeItemWithContext.t) (projectId : Z) (s : State)
        (token : string) :
  secrets_gitlabToken s = Some token -> JsString.truthy token = true ->
  TreeItemWithContext.context e = Ctx.project ->
  TreeItemWithContext.projectId e = Some projectId -> projectId <> 0 ->
  snd (children (Some e) s) = effect (Fetch token (GET_repositories projectId)) s /\
  fst (children (Some e) s)
  = match repositories server token projectId with
    | NetworkFailure => Rejected
    | HttpError => Fulfilled []
    | HttpOk repos => Fulfilled (List.map (repo_item e) repos)
    end /\
  forall repo,
    GitLabRegistryRepo.id repo <> 0 ->
    repo_node (repo_item e repo) projectId (GitLabRegistryRepo.id repo).
Proof.
  intros Hs Ht Hc Hp Hne.
  destruct (getChildren_project_node e projectId s) as (token' & Hs' & ->);
    try assumption.
  { rewrite Hs. exact Ht. }
  assert (token' = token) by congruence. subst token'.
  unfold getChildren_project, fetchRegistryRepos, fetch, mbind, mret,
    Async_bind, Async_ret.
  split; [|split].
  - destruct (repositories server token projectId); reflexivity.
  - destruct (repositories server token projectId); reflexivity.
  - intros repo Hr. unfold repo_node, repo_item. simpl.
    repeat split; assumption.
Qed.


(** *** [fetchProjects] *)

Lemma projectCheck_network_only token project :
  exists l, network_only (projectCheck server token project)
                         (check_result server token project) l.
Proof.
  unfold projectCheck, check_result.
  destruct (negb (GitLabProject.container_registry_enabled project)).
  - eexists. apply network_only_ret.
  - destruct (repositories server token (GitLabProject.id project)) as [| |repos] eqn:E.
    + eexists. apply network_only_bind_rejected.
      apply (network_only_fetch token _ (@NetworkFailure (list GitLabRegistryRepo.t))).
    + eexists (_ ++ _). eapply network_only_bind.
      * apply (network_only_fetch token _ (@HttpError (list GitLabRegistryRepo.t))).
      * apply network_only_ret.
    + eexists (_ ++ _). eapply network_only_bind.
      * apply (network_only_fetch token _ (HttpOk repos)).
      * simpl. destruct (0 <? List.length repos)%nat; apply network_only_ret.
Qed.

Lemma fetchProjects_from_network_only token pages :
  forall page projects,
  exists l,
    network_only (fetchProjects_from server token page pages projects)
                 (projects_result server token pages projects) l.
Proof.
  induction pages as [|answer pages IH]; intros page projects; simpl.
  - eexists (_ ++ _). eapply network_only_bind.
    + apply (network_only_fetch token _ (HttpOk [])).
    + apply network_only_ret.
  - destruct answer as [| |pageProjects].
    + eexists. apply network_only_bind_rejected.
      apply (network_only_fetch token _ (@NetworkFailure (list GitLabProject.t))).
    + eexists (_ ++ _ ++ _). eapply network_only_bind.
      * apply (network_only_fetch token _ (@HttpError (list GitLabProject.t))).
      * simpl. eapply network_only_bind; [|apply network_only_ret].
        intros s. reflexivity.
    + destruct pageProjects as [|project pageProjects].
      * eexists (_ ++ _). eapply network_only_bind.
        -- apply (network_only_fetch token _ (HttpOk [])).
        -- apply network_only_ret.
      * set (pageProjects' := project :: pageProjects).
        destruct (network_only_Promise_all
                    (List.map (projectCheck server token) pageProjects')
                    (List.map (check_result server token) pageProjects'))
          as [lc Hlc].
        { apply Forall2_fmap, Forall_Forall2_diag, Forall_forall.
          intros q _. apply projectCheck_network_only. }
        destruct (all_settled (List.map (check_result server token) pageProjects'))
          as [checks|] eqn:E.
        -- destruct (IH (page + 1) (projects ++ omap id checks)) as [l Hl].
           eexists (_ ++ _ ++ _). eapply network_only_bind.
           ++ apply (network_only_fetch token _ (HttpOk pageProjects')).
           ++ simpl. eapply network_only_bind; [exact Hlc|exact Hl].
        -- eexists (_ ++ _). eapply network_only_bind.
           ++ apply (network_only_fetch token _ (HttpOk pageProjects')).
           ++ simpl. apply network_only_bind_rejected. exact Hlc.
Qed.

Lemma all_settled_checks (token : string) (page : list GitLabProject.t) :
  forall checks,
    all_settled (List.map (check_result server token) page) = Fulfilled checks ->
    Forall (fun p => In p page /\ has_registry server token p) (omap id checks).
Proof.
  induction page as [|q page IH]; simpl; intros checks H.
  - injection H as <-. constructor.
  - destruct (check_result server token q) as [c|] eqn:Ec; [|discriminate].
    destruct (all_settled _) as [cs|]; [|discriminate].
    injection H as <-.
    assert (Hrest : Forall (fun p => In p (q :: page) /\ has_registry server token p)
                           (omap id cs)).
    { eapply Forall_impl; [apply IH; reflexivity|]. simpl. intros p [H1 H2]. auto. }
    destruct c as [p|]; simpl; [|exact Hrest].
    constructor; [|exact Hrest].
    unfold check_result in Ec.
    destruct (GitLabProject.container_registry_enabled q) eqn:Een; simpl in Ec;
      [|discriminate].
    destruct (repositories server token (GitLabProject.id q)) as [| |repos] eqn:Er;
      try discriminate.
    destruct repos as [|repo repos]; simpl in Ec; [discriminate|].
    injection Ec as <-. split; [left; reflexivity|].
    split; [exact Een|]. exists (repo :: repos). split; [exact Er|discriminate].
Qed.

Lemma projects_result_has_registry (token : string) pages :
  forall projects ps,
    projects_result server token pages projects = Fulfilled ps ->
    Forall (fun p => In p projects \/
                     (has_registry server token p /\
                      exists page, In (HttpOk page) pages /\ In p page)) ps.
Proof.
  induction pages as [|answer pages IH]; simpl; intros projects ps H.
  - injection H as <-. apply Forall_forall. intros p Hp. left. apply list_elem_of_In, Hp.
  - destruct answer as [| |page]; [discriminate| |].
    + injection H as <-. apply Forall_forall. intros p Hp. left. apply list_elem_of_In, Hp.
    + destruct page as [|q page].
      * injection H as <-. apply Forall_forall. intros p Hp. left.
        apply list_elem_of_In, Hp.
      * destruct (all_settled _) as [checks|] eqn:E; [|discriminate].
        apply all_settled_checks in E.
        eapply Forall_impl; [apply (IH _ _ H)|]. simpl.
        intros p [Hp|(Hreg & page' & Hpage & Hin)].
        -- apply in_app_iff in Hp as [Hp|Hp]; [left; exact Hp|].
           rewrite Forall_forall in E. apply list_elem_of_In, E in Hp as [Hin Hreg].
           right. split; [exact Hreg|]. exists (q :: page). auto.
        -- right. split; [exact Hreg|]. exists page'. auto.
Qed.

(** X10: every project that [fetchProjects] returns was on a page of the
    listing, has its container registry enabled and answered the request
    for its repositories with at least one repository; when the first
    page is answered with an error status the result is empty and the
    user is told so. *)
Theorem fetchProjects_keeps_registry_projects (token : string) (s : State) :
  (forall ps,
      fst (fetchProjects server token s) = Fulfilled ps ->
      Forall (fun p => has_registry server token p /\
                       exists page, In (HttpOk page) (projects server token) /\
                                    In p page) ps) /\
  (forall pages,
      projects server token = HttpError :: pages ->
      fetchProjects server token s
      = (Fulfilled [],
         effect (ShowErrorMessage
                   "Failed to fetch projects. Check your token and network connection.")
                (effect (Fetch token (GET_projects 1)) s))).
Proof.
  split.
  - intros ps H.
    destruct (fetchProjects_from_network_only token (projects server token) 1 [])
      as [l Hl].
    unfold fetchProjects in H. rewrite Hl in H. simpl in H.
    eapply Forall_impl; [apply (projects_result_has_registry _ _ _ _ H)|].
    simpl. intros p [[]|Hp]. exact Hp.
  - intros pages Hp. unfold fetchProjects. rewrite Hp. reflexivity.
Qed.


(** *** What [getChildren] leaves alone *)

Lemma frame_refl element (s : State) : getChildren_frame element s s.
Proof.
  unfold getChildren_frame. repeat split; try reflexivity.
  - exists []. rewrite app_nil_r. reflexivity.
  - auto.
  - left. split; reflexivity.
Qed.

Lemma frame_emit element (l : list Effect) (s : State) :
  getChildren_frame element s (emit l s).
Proof.
  unfold getChildren_frame, emit. simpl. repeat split; try reflexivity.
  - exists l. reflexivity.
  - auto.
  - left. split; reflexivity.
Qed.

Lemma getChildren_frame_holds (element : option TreeItemWithContext.t) (s : State) :
  getChildren_frame element s (snd (children element s)).
Proof.
  unfold getChildren, read, mbind, Async_bind.
  destruct (secrets_gitlabToken s) as [token|] eqn:Etok; [|apply frame_refl].
  destruct (JsString.truthy token) eqn:Et; [|apply frame_refl].
  cbv beta iota delta [negb].
  destruct element as [e|].
  - destruct (bool_decide (TreeItemWithContext.context e = Ctx.folder)).
    { unfold getChildren_folder.
      destruct (TreeItemWithContext.fullPath e); [apply frame_refl|].
      apply (frame_emit _ [_]). }
    destruct (bool_decide (TreeItemWithContext.context e = Ctx.project)
              && truthy_id (TreeItemWithContext.projectId e)).
    { unfold getChildren_project, fetchRegistryRepos, fetch, mbind, mret,
        Async_bind, Async_ret.
      destruct (repositories server token _); apply (frame_emit _ [_]). }
    destruct (bool_decide (TreeItemWithContext.context e = Ctx.repo)
              && truthy_id (TreeItemWithContext.projectId e)
              && truthy_id (TreeItemWithContext.repoId e)); [|apply frame_refl].
    set (projectId := default 0 (TreeItemWithContext.projectId e)).
    set (repoId := default 0 (TreeItemWithContext.repoId e)).
    unfold getChildren_repo, read, perform, mbind, mret, Async_bind, Async_ret.
    cbv beta.
    destruct (cachedTags s !! repoId) as [cached|] eqn:Ec.
    { cbv beta iota.
      match goal with |- context [if ?b then _ else _] => destruct b end;
        apply frame_refl. }
    destruct (fetchRegistryTags_network_only server token projectId repoId)
      as [l Hl].
    rewrite Hl.
    match type of Hl with network_only _ ?r _ => destruct r as [tags|] end;
      [|apply frame_emit].
    cbv beta iota.
    assert (Hframe : getChildren_frame
                       (Some e) s
                       (set_cachedTags (<[repoId:=tags]> (cachedTags (emit l s)))
                                       (emit l s))).
    { unfold getChildren_frame, emit. simpl. repeat split; try reflexivity.
      - exists l. reflexivity.
      - intros r ts Hr. rewrite lookup_insert_ne; [exact Hr|]. congruence.
      - left. split; reflexivity. }
    match goal with |- context [if ?b then _ else _] => destruct b end; exact Hframe.
  - change (getChildren_frame None s
              (snd (getChildren_root server localeCompare token s))).
    destruct (cachedProjects s) as [|p ps] eqn:Ep.
    + destruct (fetchProjects_from_network_only token (projects server token) 1 [])
        as [l Hl].
      rewrite (getChildren_root_fetched server localeCompare token _ l s Hl Ep).
      destruct (projects_result server token (projects server token) []) as [qs|];
        [|apply frame_emit].
      unfold getChildren_frame, saveCachedProjects, effect, emit. simpl.
      repeat split; try reflexivity.
      * exists (l ++ [GlobalStateUpdate qs]). rewrite app_assoc. reflexivity.
      * auto.
      * right. repeat split. exact Ep.
    + rewrite getChildren_root_cached by congruence. apply frame_refl.
Qed.

(** X11: whatever the node, [getChildren] leaves the project search, the
    tag filters, the show-all set, the token and the settings as they
    are, only appends to the log, and keeps every tag list that is in
    cache; it changes the project list only when it resolves the root on
    an empty list, and what it caches then is what it stores. *)
Theorem getChildren_leaves_views_and_caches
        (element : option TreeItemWithContext.t) (s : State) :
  getChildren_frame element s (snd (children element s)).
Proof. apply getChildren_frame_holds. Qed.

Lemma root_items_empty (s : State) :
  cachedProjects s = [] -> root_items localeCompare s = [no_projects_item].
Proof.
  intros H. unfold root_items, getFilteredProjects. rewrite H.
  destruct (JsString.truthy (searchQuery s)); reflexivity.
Qed.

(** X12: on an empty project list the root fetches the projects with the
    stored token.  When the fetch is fulfilled the list is cached, stored
    under [cachedProjects] and shown; when it is rejected nothing is
    cached or stored.  When the first page is answered with an error
    status the user is told, the placeholder is shown and the list
    stays empty, so that the next expansion fetches again. *)
Theorem root_cache_miss (token : string) (s : State) :
  secrets_gitlabToken s = Some token -> JsString.truthy token = true ->
  cachedProjects s = [] ->
  match projects_result server token (projects server token) [] with
  | Fulfilled ps =>
      fst (children None s)
      = Fulfilled (root_items localeCompare (set_cachedProjects ps s)) /\
      cachedProjects (snd (children None s)) = ps /\
      globalState_cachedProjects (snd (children None s)) = Some ps
  | Rejected =>
      fst (children None s) = Rejected /\
      cachedProjects (snd (children None s)) = [] /\
      globalState_cachedProjects (snd (children None s))
      = globalState_cachedProjects s
  end /\
  (forall pages,
      projects server token = HttpError :: pages ->
      fst (children None s) = Fulfilled [no_projects_item] /\
      cachedProjects (snd (children None s)) = [] /\
      log (snd (children None s))
      = log s ++ [Fetch token (GET_projects 1);
                  ShowErrorMessage
                    "Failed to fetch projects. Check your token and network connection.";
                  GlobalStateUpdate []]).
Proof.
  intros Hs Ht Hc.
  rewrite (getChildren_token server localeCompare toLocaleString token s Hs Ht).
  destruct (fetchProjects_from_network_only token (projects server token) 1 [])
    as [l Hl].
  split.
  - rewrite (getChildren_root_fetched server localeCompare token _ l s Hl Hc).
    destruct (projects_result server token (projects server token) []) as [ps|];
      simpl; repeat split; try reflexivity. exact Hc.
  - intros pages Hp.
    unfold getChildren_root, fetchProjects, read, perform, mbind, mret,
      Async_bind, Async_ret.
    rewrite Hc, Hp. simpl. rewrite <- !app_assoc.
    split; [f_equal; apply root_items_empty; reflexivity|].
    split; reflexivity.
Qed.

End Levels.

(** ** The properties above on sample data *)

Lemma show_more_count_is_exact_witness :
  exists shown rest : list GitLabTag.t,
    matching_tags (getFilterTagsQuery 7 Sample.searching) Sample.thirty = shown ++ rest /\
    List.length shown = 11%nat /\ rest = [].
Proof.
  destruct (show_more_count_is_exact
              Sample.registry Sample.localeCompare Sample.toLocaleString
              Sample.repo7 1 7 Sample.searching Sample.thirty)
    as (shown & rest & Hsplit & _ & Hrest).
  - reflexivity.
  - repeat split; try reflexivity; discriminate.
  - reflexivity.
  - discriminate.
  - exists shown, rest.
    assert (Hr : rest = []) by (apply Hrest; vm_compute; reflexivity).
    split; [exact Hsplit|]. split; [|exact Hr].
    rewrite Hr, app_nil_r in Hsplit. rewrite <- Hsplit. reflexivity.
Defined.

Lemma root_under_search_witness :
  snd (getChildren Sample.registry Sample.localeCompare Sample.toLocaleString None
                   (setSearchQuery "G/" Groups.browsing))
  = setSearchQuery "G/" Groups.browsing.
Proof.
  apply (root_under_search Sample.registry Sample.localeCompare Sample.toLocaleString
                           (setSearchQuery "G/" Groups.browsing)).
  - reflexivity.
  - discriminate.
  - reflexivity.
Defined.

Lemma root_folders_witness :
  exists roots : list string,
    getChildren Sample.registry Sample.localeCompare Sample.toLocaleString None
                Groups.browsing
    = (Fulfilled (List.map root_folder_item roots), Groups.browsing) /\
    NoDup roots /\
    forall r, In r roots <-> exists p, In p (cachedProjects Groups.browsing) /\ root_of p = r.
Proof.
  apply (root_folders Sample.registry Sample.localeCompare Sample.toLocaleString
                      Groups.browsing).
  - reflexivity.
  - discriminate.
  - reflexivity.
Defined.

Lemma folder_children_witness :
  exists (subfolders : list string) (items : list TreeItemWithContext.t),
    getChildren Sample.registry Sample.localeCompare Sample.toLocaleString
                (Some Groups.folder_g) Groups.browsing
    = (Fulfilled items, Groups.browsing) /\
    Permutation items
      (List.map project_item
                (List.filter (fun p => String.eqb (namespace_of p) "g")
                             (cachedProjects Groups.browsing))
       ++ List.map folder_item subfolders) /\
    NoDup subfolders /\
    forall path,
      In path subfolders
      <-> exists p, In p (cachedProjects Groups.browsing) /\ subfolder_of "g" p = Some path.
Proof.
  destruct (folder_children Sample.registry Sample.localeCompare Sample.toLocaleString
                            Groups.folder_g Groups.browsing) as [H _].
  - reflexivity.
  - reflexivity.
  - apply (H "g"). reflexivity.
Defined.

Lemma project_children_witness :
  fst (getChildren Sample.registry Sample.localeCompare Sample.toLocaleString
                   (Some Groups.project_app) Groups.browsing)
  = Fulfilled [repo_item Groups.project_app (GitLabRegistryRepo.mk 7 "" "g/sub/app")].
Proof.
  destruct (project_children Sample.registry Sample.localeCompare Sample.toLocaleString
                             Groups.project_app 1 Groups.browsing "glpat-token")
    as (_ & H & _).
  - reflexivity.
  - reflexivity.
  - reflexivity.
  - reflexivity.
  - discriminate.
  - exact H.
Defined.

Lemma fetchProjects_keeps_registry_projects_witness :
  Forall (fun p => has_registry Sample.registry "glpat-token" p /\
                   exists page, In (HttpOk page) (projects Sample.registry "glpat-token") /\
                                In p page)
         [Sample.app] /\
  fetchProjects Groups.denied "glpat-token" Sample.fresh
  = (Fulfilled [],
     effect (ShowErrorMessage
               "Failed to fetch projects. Check your token and network connection.")
            (effect (Fetch "glpat-token" (GET_projects 1)) Sample.fresh)).
Proof.
  split.
  - apply (fetchProjects_keeps_registry_projects Sample.registry "glpat-token" Sample.fresh).
    reflexivity.
  - apply (fetchProjects_keeps_registry_projects Groups.denied "glpat-token" Sample.fresh)
      with (pages := []).
    reflexivity.
Defined.

Lemma root_cache_miss_witness :
  cachedProjects
    (snd (getChildren Sample.registry Sample.localeCompare Sample.toLocaleString None
                      Sample.fresh)) = [Sample.app] /\
  fst (getChildren Groups.denied Sample.localeCompare Sample.toLocaleString None
                   Sample.fresh) = Fulfilled [no_projects_item].
Proof.
  split.
  - destruct (root_cache_miss Sample.registry Sample.localeCompare Sample.toLocaleString
                              "glpat-token" Sample.fresh) as ((_ & H & _) & _).
    + reflexivity.
    + reflexivity.
    + reflexivity.
    + exact H.
  - destruct (root_cache_miss Groups.denied Sample.localeCompare Sample.toLocaleString
                              "glpat-token" Sample.fresh) as (_ & H).
    + reflexivity.
    + reflexivity.
    + reflexivity.
    + destruct (H []) as (H1 & _); [reflexivity|exact H1].
Defined.

(** ** The quick picks and the tree *)

Lemma filter_includes_empty {A} (name : A -> string) (l : list A) :
  List.filter (fun a => JsString.includes (name a) "") l = l.
Proof.
  induction l as [|a l IH]; simpl; [reflexivity|].
  rewrite includes_empty, IH. reflexivity.
Qed.

Lemma falsy_empty (q : string) : JsString.truthy q = false -> q = "".
Proof. destruct q; [reflexivity|discriminate]. Qed.

Section QuickPicks.
Variable localeCompare : string -> string -> Z.

(** X13: what a quick pick suggests while the user types is what the
    tree shows for the query it has just set: the suggestions of the
    project search are a rearrangement of the paths of the projects that
    [getFilteredProjects] gives, when the quick pick was opened on the
    cached list; the suggestions of the tag filter are a rearrangement of
    the names of the tags that pass the filter of the repository. *)
Theorem suggestions_follow_the_filter (repoId : Z) (query : string) (s : State) :
  Permutation
    (snd (searchProjects_onDidChangeValue localeCompare (getCachedProjects s) query s))
    (List.map GitLabProject.path_with_namespace
       (getFilteredProjects
          (fst (searchProjects_onDidChangeValue localeCompare (getCachedProjects s)
                                                query s)))) /\
  forall tags : list GitLabTag.t,
    Permutation
      (snd (filterTagsInline_onDidChangeValue localeCompare repoId tags query s))
      (List.map GitLabTag.name
         (matching_tags
            (getFilterTagsQuery
               repoId
               (fst (filterTagsInline_onDidChangeValue localeCompare repoId tags query s)))
            tags)).
Proof.
  split.
  - unfold searchProjects_onDidChangeValue, sort_labels, getCachedProjects. simpl.
    etransitivity; [apply sort_Permutation|].
    unfold getFilteredProjects, setSearchQuery. simpl.
    destruct (JsString.truthy (JsString.trim (JsString.toLowerCase query))); simpl.
    + reflexivity.
    + apply Permutation_map. rewrite forallb_filter_id; [reflexivity|].
      apply forallb_forall. reflexivity.
  - intros tags. unfold filterTagsInline_onDidChangeValue, sort_labels. simpl.
    etransitivity; [apply sort_Permutation|].
    rewrite getFilterTagsQuery_set. unfold matching_tags.
    destruct (JsString.truthy (JsString.trim (JsString.toLowerCase query))) eqn:E.
    + reflexivity.
    + rewrite (falsy_empty _ E), filter_includes_empty. reflexivity.
Qed.

(** X14: a suggestion that is accepted stays in the tree: the project
    whose path was chosen passes the search that the choice sets, and
    the tag whose name was chosen passes the filter that the choice sets
    for the repository, so that the repository does not come to show the
    placeholder for no match. *)
Theorem accepted_suggestion_is_shown (repoId : Z) (value : string) (s : State) :
  (forall p : GitLabProject.t,
      In p (cachedProjects s) ->
      In p (getFilteredProjects
              (searchProjects_onDidAccept
                 (Some (GitLabProject.path_with_namespace p)) value s))) /\
  (forall (tags : list GitLabTag.t) (tag : GitLabTag.t),
      In tag tags ->
      In tag (matching_tags
                (getFilterTagsQuery
                   repoId
                   (filterTagsInline_onDidAccept repoId (Some (GitLabTag.name tag))
                                                 value s))
                tags)).
Proof.
  split.
  - intros p Hp. unfold searchProjects_onDidAccept, accepted, getFilteredProjects,
      setSearchQuery. simpl.
    destruct (JsString.truthy _); simpl; [|exact Hp].
    apply filter_In. split; [exact Hp|]. apply includes_trim.
  - intros tags tag Ht. unfold filterTagsInline_onDidAccept, accepted.
    rewrite getFilterTagsQuery_set. unfold matching_tags.
    destruct (JsString.truthy _); [|exact Ht].
    apply filter_In. split; [exact Ht|]. apply includes_trim.
Qed.
End QuickPicks.

Lemma accepted_suggestion_is_shown_witness :
  In Groups.web
     (getFilteredProjects (searchProjects_onDidAccept (Some "g/web") "we" Groups.browsing)) /\
  In Sample.newer
     (matching_tags
        (getFilterTagsQuery 7 (filterTagsInline_onDidAccept 7 (Some "v2") "v" Sample.fresh))
        [Sample.newer; Sample.undated; Sample.older]).
Proof.
  destruct (accepted_suggestion_is_shown 7 "we" Groups.browsing) as [H _].
  destruct (accepted_suggestion_is_shown 7 "v" Sample.fresh) as [_ H'].
  split.
  - apply (H Groups.web). right. left. reflexivity.
  - apply (H' [Sample.newer; Sample.undated; Sample.older] Sample.newer).
    left. reflexivity.
Defined.

(** ** The commands on a tag *)

Lemma tagItem_image (toLocaleString : jsnum -> string) (element : TreeItemWithContext.t)
      (project : option GitLabProject.t) (tag : GitLabTag.t) :
  tagItem toLocaleString element project tag
  = TreeItemWithContext.mk
      (TreeItemWithContext.label (tagItem toLocaleString element project tag))
      Collapsible_None Ctx.tag
      (TreeItemWithContext.fullPath element) (TreeItemWithContext.projectId element)
      (TreeItemWithContext.repoId element) (Some (GitLabTag.name tag))
      (Some (image_of project tag)) "tag" (Some (image_of project tag)) (Some "tag") None.
Proof. reflexivity. Qed.

Lemma send_to_terminal_log (name text : string) (w : Window) :
  exists created,
    window_log (send_to_terminal name text w)
    = window_log w ++ created ++ [TerminalShow name; TerminalSendText name text].
Proof.
  unfold send_to_terminal.
  destruct (existsb (String.eqb name) (terminals w)).
  - exists []. reflexivity.
  - exists [CreateTerminal name]. unfold window_effects. simpl.
    rewrite <- app_assoc. reflexivity.
Qed.

(** X15: a tag node carries the image made of the registry host, the
    path of the project (not of the repository) and the name of the tag,
    as its image and as its tooltip, whatever its date and size; the
    three commands take it for a tag: copying puts that image on the
    clipboard, pulling and scanning show their terminal and send it
    [docker pull] and [trivy image] with that image, and then tell the
    user. *)
Theorem tag_node_commands (toLocaleString : jsnum -> string)
        (element : TreeItemWithContext.t) (project : option GitLabProject.t)
        (tag : GitLabTag.t) (w : Window) :
  let item := tagItem toLocaleString element project tag in
  let image := image_of project tag in
  TreeItemWithContext.imageUrl item = Some image /\
  TreeItemWithContext.tooltip item = Some image /\
  TreeItemWithContext.contextValue item = "tag" /\
  TreeItemWithContext.tagName item = Some (GitLabTag.name tag) /\
  copyImageUrl item w
  = mkWindow (Some image) (terminals w)
             (window_log w ++ [ClipboardWriteText image;
                               ShowInformationMessage ("Copied to clipboard: " +:+ image)]) /\
  (exists created,
      window_log (executeDockerPull item w)
      = window_log w ++ created
        ++ [TerminalShow "GitLab Registry";
            TerminalSendText "GitLab Registry" ("docker pull " +:+ image);
            ShowInformationMessage ("Executing: docker pull " +:+ image)]) /\
  (exists created,
      window_log (scanImageWithTrivy item w)
      = window_log w ++ created
        ++ [TerminalShow "GitLab Registry Trivy Scan";
            TerminalSendText "GitLab Registry Trivy Scan" ("trivy image " +:+ image);
            ShowInformationMessage
              ("Scanning image with Trivy: trivy image " +:+ image)]).
Proof.
  intros item image. subst item image. rewrite tagItem_image.
  repeat split.
  - unfold executeDockerPull. change (tag_with_image _) with true. cbv iota.
    unfold window_effects at 1. cbn [window_log].
    match goal with
    | |- context [send_to_terminal ?n ?t ?w] =>
        destruct (send_to_terminal_log n t w) as [created Hc]; rewrite Hc
    end.
    exists created. rewrite <- !app_assoc. reflexivity.
  - unfold scanImageWithTrivy. change (tag_with_image _) with true. cbv iota.
    unfold window_effects at 1. cbn [window_log].
    match goal with
    | |- context [send_to_terminal ?n ?t ?w] =>
        destruct (send_to_terminal_log n t w) as [created Hc]; rewrite Hc
    end.
    exists created. rewrite <- !app_assoc. reflexivity.
Qed.

(** *** Terminals are made once *)

Lemma send_to_terminal_terminals (name text : string) (w : Window) :
  clipboard (send_to_terminal name text w) = clipboard w /\
  ((In name (terminals w) /\
    terminals (send_to_terminal name text w) = terminals w) \/
   (~ In name (terminals w) /\
    terminals (send_to_terminal name text w) = terminals w ++ [name])).
Proof.
  unfold send_to_terminal.
  destruct (existsb (String.eqb name) (terminals w)) eqn:E; simpl.
  - split; [reflexivity|]. left. split; [|reflexivity].
    apply existsb_exists in E as (x & Hx & Hnx). apply String.eqb_eq in Hnx.
    subst x. exact Hx.
  - split; [reflexivity|]. right. split; [|reflexivity].
    intros Hin. assert (existsb (String.eqb name) (terminals w) = true); [|congruence].
    apply existsb_exists. exists name. split; [exact Hin|apply String.eqb_refl].
Qed.

Lemma run_tag_command_grows (c : TagCommand) (item : TreeItemWithContext.t)
      (w : Window) :
  terminals_grow w (run_tag_command c item w).
Proof.
  assert (Hsame : forall w', terminals w' = terminals w -> terminals_grow w w').
  { intros w' H. exists []. rewrite app_nil_r. split; [exact H|].
    split; [constructor|]. intros name []. }
  assert (Hsend : forall name text l,
             name = "GitLab Registry" \/ name = "GitLab Registry Trivy Scan" ->
             terminals_grow w (window_effects l (send_to_terminal name text w))).
  { intros name text l Hname.
    destruct (send_to_terminal_terminals name text w) as [_ [[_ H]|[Hnot H]]].
    - apply Hsame. exact H.
    - exists [name]. split; [exact H|]. split; [apply NoDup_singleton|].
      intros name' [<-|[]]. split; assumption. }
  destruct c; simpl.
  - apply Hsame. unfold copyImageUrl. destruct (tag_with_image item); reflexivity.
  - unfold executeDockerPull. destruct (tag_with_image item).
    + apply Hsend. left. reflexivity.
    + apply Hsame. reflexivity.
  - unfold scanImageWithTrivy. destruct (tag_with_image item).
    + apply Hsend. right. reflexivity.
    + apply Hsame. reflexivity.
Qed.

Lemma terminals_grow_trans (w1 w2 w3 : Window) :
  terminals_grow w1 w2 -> terminals_grow w2 w3 -> terminals_grow w1 w3.
Proof.
  intros (m1 & H1 & N1 & P1) (m2 & H2 & N2 & P2).
  exists (m1 ++ m2). split; [rewrite H2, H1, app_assoc; reflexivity|]. split.
  - apply NoDup_app. split; [exact N1|]. split; [|exact N2].
    intros name Hin1 Hin2. apply list_elem_of_In in Hin1, Hin2.
    destruct (P2 name Hin2) as [Hnot _]. apply Hnot.
    rewrite H1. apply in_app_iff. right. exact Hin1.
  - intros name Hin. apply in_app_iff in Hin as [Hin|Hin].
    + apply P1, Hin.
    + destruct (P2 name Hin) as [Hnot Hname]. split; [|exact Hname].
      intros Hw. apply Hnot. rewrite H1. apply in_app_iff. left. exact Hw.
Qed.

(** X16: however many times, in whatever order and on whatever nodes the
    three commands are run, the terminals that were there stay, in their
    order, and the extension makes at most two more: at most one named
    [GitLab Registry] and one named [GitLab Registry Trivy Scan], and
    neither when a terminal of that name is there already. *)
Theorem terminals_are_made_once (cs : list (TagCommand * TreeItemWithContext.t))
        (w : Window) :
  terminals_grow w (run_tag_commands cs w) /\
  (List.length (terminals (run_tag_commands cs w)) <= List.length (terminals w) + 2)%nat.
Proof.
  assert (H : terminals_grow w (run_tag_commands cs w)).
  { revert w. induction cs as [|[c item] cs IH]; intros w.
    - exists []. rewrite app_nil_r. split; [reflexivity|].
      split; [constructor|]. intros name [].
    - simpl. eapply terminals_grow_trans; [apply run_tag_command_grows|apply IH]. }
  split; [exact H|].
  destruct H as (made & -> & Hnd & Hmade).
  rewrite length_app. apply Nat.add_le_mono_l.
  apply (submseteq_length made ["GitLab Registry"; "GitLab Registry Trivy Scan"]).
  apply NoDup_submseteq; [exact Hnd|].
  intros name Hin. apply list_elem_of_In in Hin.
  destruct (Hmade name Hin) as [_ [->| ->]]; apply list_elem_of_In; simpl; auto.
Qed.

(** X17: of the nodes the provider builds, the tag nodes alone have an
    image.  The two placeholders, for no project and for no matching
    tag, have the context value [tag] all the same, the one the tag
    commands are contributed for; on a node without image each of the
    three commands leaves the clipboard and the terminals as they are
    and shows one error message. *)
Theorem commands_on_a_node_without_image (c : TagCommand) (item : TreeItemWithContext.t)
        (w : Window) :
  (forall e q, tag_with_image (filterItem e q) = false) /\
  (forall e n, tag_with_image (showAllItem e n) = false) /\
  (forall p, tag_with_image (project_item p) = false) /\
  (forall p, tag_with_image (search_item p) = false) /\
  (forall path, tag_with_image (folder_item path) = false) /\
  (forall e repo, tag_with_image (repo_item e repo) = false) /\
  tag_with_image noMatchItem = false /\
  tag_with_image no_projects_item = false /\
  TreeItemWithContext.contextValue noMatchItem = "tag" /\
  TreeItemWithContext.contextValue no_projects_item = "tag" /\
  (tag_with_image item = false ->
   clipboard (run_tag_command c item w) = clipboard w /\
   terminals (run_tag_command c item w) = terminals w /\
   exists message,
     window_log (run_tag_command c item w)
     = window_log w ++ [WindowShowErrorMessage message]).
Proof.
  repeat (split; [reflexivity|]).
  intros H. destruct c; simpl;
    unfold copyImageUrl, executeDockerPull, scanImageWithTrivy; rewrite H;
    repeat split; eexists; reflexivity.
Qed.

Lemma commands_on_a_node_without_image_witness :
  clipboard (run_tag_command CopyImageUrl noMatchItem (mkWindow None [] [])) = None /\
  terminals (run_tag_command ExecuteDockerPull no_projects_item (mkWindow None [] [])) = [].
Proof.
  split.
  - apply (commands_on_a_node_without_image CopyImageUrl noMatchItem (mkWindow None [] [])).
    reflexivity.
  - apply (commands_on_a_node_without_image ExecuteDockerPull no_projects_item
                                            (mkWindow None [] [])).
    reflexivity.
Defined.

(** ** A repository that is expanded again *)

Section Expansions.
Variable server : Server.
Variable localeCompare : string -> string -> Z.
Variable toLocaleString : jsnum -> string.

Local Abbreviation children := (getChildren server localeCompare toLocaleString).

(** With its tags in cache a repository is resolved from the state
    alone. *)
Lemma getChildren_repo_again token e projectId repoId (s : State) items :
  fst (getChildren_repo server toLocaleString token e projectId repoId s)
  = Fulfilled items ->
  let s1 := snd (getChildren_repo server toLocaleString token e projectId repoId s) in
  getChildren_repo server toLocaleString token e projectId repoId s1
  = (Fulfilled items, s1) /\
  is_Some (cachedTags s1 !! repoId).
Proof.
  intros H s1. subst s1.
  destruct (cachedTags s !! repoId) as [cached|] eqn:Ec.
  - assert (Hs : snd (getChildren_repo server toLocaleString token e projectId repoId s)
                 = s).
    { unfold getChildren_repo, read, mbind, mret, Async_bind, Async_ret.
      rewrite Ec. cbv beta iota.
      match goal with |- context [if ?b then _ else _] => destruct b end; reflexivity. }
    rewrite Hs. split; [|rewrite Ec; eauto].
    destruct (getChildren_repo server toLocaleString token e projectId repoId s)
      as [r s1].
    simpl in H, Hs. subst. reflexivity.
  - destruct (fetchRegistryTags_network_only server token projectId repoId) as [l Hl].
    revert H Hl.
    set (fetched := match listing _ with Fulfilled _ => _ | Rejected => _ end).
    intros H Hl. clearbody fetched.
    unfold getChildren_repo, read, perform, mbind, mret, Async_bind, Async_ret in *.
    rewrite Ec in *. cbv beta iota in *. rewrite Hl in *.
    destruct fetched as [tags|]; [|discriminate].
    cbv beta iota in *.
    set (s' := set_cachedTags (<[repoId:=tags]> (cachedTags (emit l s))) (emit l s)) in *.
    assert (Hlookup : cachedTags s' !! repoId = Some tags) by apply lookup_insert_eq.
    match type of H with
    | context [if ?b then _ else _] => destruct b eqn:Eb
    end.
    + simpl in H. injection H as <-. cbn [snd].
      rewrite Hlookup. cbv beta iota. rewrite Eb. split; [reflexivity|eauto].
    + simpl in H. injection H as <-. cbn [snd].
      rewrite Hlookup. cbv beta iota. rewrite Eb. split; [reflexivity|eauto].
Qed.

(** X18: once a repository node has been resolved, resolving it again,
    with no operation in between, sends no request and changes nothing:
    the tags come from the cache and the children are the same. *)
Theorem repository_expanded_again
        (e : TreeItemWithContext.t) (projectId repoId : Z) (s : State)
        (items : list TreeItemWithContext.t) :
  truthy_opt (secrets_gitlabToken s) = true ->
  repo_node e projectId repoId ->
  fst (children (Some e) s) = Fulfilled items ->
  children (Some e) (snd (children (Some e) s))
  = (Fulfilled items, snd (children (Some e) s)) /\
  is_Some (cachedTags (snd (children (Some e) s)) !! repoId).
Proof.
  intros Htok Hnode H.
  destruct (getChildren_repo_node server localeCompare toLocaleString
                                  e projectId repoId s Htok Hnode)
    as (token & Hs & E).
  assert (Htok1 : truthy_opt (secrets_gitlabToken (snd (children (Some e) s))) = true).
  { destruct (getChildren_frame_holds server localeCompare toLocaleString (Some e) s)
      as (_ & _ & _ & -> & _). exact Htok. }
  destruct (getChildren_repo_node server localeCompare toLocaleString
                                  e projectId repoId _ Htok1 Hnode)
    as (token1 & Hs1 & E1).
  assert (token1 = token).
  { destruct (getChildren_frame_holds server localeCompare toLocaleString (Some e) s)
      as (_ & _ & _ & Hsec & _). congruence. }
  subst token1. rewrite E1. rewrite E in *.
  apply getChildren_repo_again, H.
Qed.
End Expansions.

Lemma repository_expanded_again_witness :
  exists items,
    getChildren Sample.registry Sample.localeCompare Sample.toLocaleString
                (Some Sample.repo7)
                (snd (getChildren Sample.registry Sample.localeCompare
                                  Sample.toLocaleString (Some Sample.repo7)
                                  Groups.browsing))
    = (Fulfilled items,
       snd (getChildren Sample.registry Sample.localeCompare Sample.toLocaleString
                        (Some Sample.repo7) Groups.browsing)) /\
    List.length items = 4%nat.
Proof.
  eexists. split.
  - apply (repository_expanded_again Sample.registry Sample.localeCompare
                                     Sample.toLocaleString Sample.repo7 1 7
                                     Groups.browsing).
    + reflexivity.
    + repeat split; try reflexivity; discriminate.
    + reflexivity.
  - reflexivity.
Defined.

(** ** The provider over time *)

Lemma normalised_stored (query : string) :
  normalised (JsString.trim (JsString.toLowerCase query)).
Proof. apply normalised_fixed. Qed.

Lemma consistent_setFilterTagsQuery (repoId : Z) (query : string) (s : State) :
  consistent s -> consistent (setFilterTagsQuery repoId query s).
Proof.
  intros (Hp & Hq & Hf). unfold consistent, setFilterTagsQuery.
  destruct (JsString.truthy query); simpl; (split; [exact Hp|]); (split; [exact Hq|]).
  - intros r q H. apply lookup_insert_Some in H as [[_ <-]|[_ H]].
    + apply normalised_stored.
    + apply (Hf r q H).
  - intros r q H. apply lookup_delete_Some in H as [_ H]. apply (Hf r q H).
Qed.

Lemma consistent_clearFilterForRepo (repoId : Z) (s : State) :
  consistent s -> consistent (clearFilterForRepo repoId s).
Proof.
  intros (Hp & Hq & Hf). unfold consistent, clearFilterForRepo. simpl.
  split; [exact Hp|]. split; [exact Hq|].
  intros r q H. apply lookup_delete_Some in H as [_ H]. apply (Hf r q H).
Qed.

Lemma consistent_refresh (s : State) : consistent s -> consistent (refresh s).
Proof.
  intros (_ & Hq & _). unfold consistent, refresh. simpl.
  split; [reflexivity|]. split; [exact Hq|].
  intros r q H. rewrite lookup_empty in H. discriminate.
Qed.

Section Invariant.
Variable server : Server.
Variable localeCompare : string -> string -> Z.
Variable toLocaleString : jsnum -> string.

Lemma consistent_getChildren (element : option TreeItemWithContext.t) (s : State) :
  consistent s ->
  consistent (snd (getChildren server localeCompare toLocaleString element s)).
Proof.
  intros (Hp & Hq & Hf).
  destruct (getChildren_frame_holds server localeCompare toLocaleString element s)
    as (Eq & Ef & _ & _ & _ & _ & _ & Hprojects).
  unfold consistent. rewrite Eq, Ef. split; [|split; assumption].
  destruct Hprojects as [[-> ->]|(_ & _ & ->)]; [exact Hp|reflexivity].
Qed.

Lemma handle_consistent (event : Event) (s : State) :
  consistent s ->
  consistent (handle server localeCompare toLocaleString event s) /\
  settings (handle server localeCompare toLocaleString event s) = settings s.
Proof.
  intros H. destruct event; simpl.
  - split; [apply consistent_getChildren, H|].
    apply (getChildren_frame_holds server localeCompare toLocaleString element s).
  - unfold onDidCollapseElement.
    destruct (bool_decide _ && truthy_id _); [|auto].
    split; [|reflexivity].
    apply (consistent_clearFilterForRepo
             (default 0 (TreeItemWithContext.repoId element))) in H.
    exact H.
  - split; [apply consistent_refresh, H|reflexivity].
  - unfold command_setToken. destruct (truthy_opt input); [|auto].
    split; [|reflexivity]. apply consistent_refresh. exact H.
  - split; [|reflexivity]. destruct H as (Hp & _ & Hf).
    split; [exact Hp|]. split; [apply normalised_stored|exact Hf].
  - split; [|reflexivity]. destruct H as (Hp & _ & Hf).
    split; [exact Hp|]. split; [apply normalised_stored|exact Hf].
  - split; [|reflexivity]. destruct H as (Hp & _ & _).
    split; [exact Hp|]. split; [reflexivity|].
    intros r q Hr. simpl in Hr. rewrite lookup_empty in Hr. discriminate.
  - destruct (truthy_id (TreeItemWithContext.repoId item)); [|auto].
    split; [apply consistent_setFilterTagsQuery, H|].
    unfold setFilterTagsQuery. destruct (JsString.truthy query); reflexivity.
  - destruct (truthy_id (TreeItemWithContext.repoId item)); [|auto].
    split; [apply consistent_setFilterTagsQuery, H|].
    unfold filterTagsInline_onDidAccept, setFilterTagsQuery.
    destruct (JsString.truthy _); reflexivity.
  - unfold command_clearTagFilter.
    destruct (truthy_id (TreeItemWithContext.repoId item)); [|auto].
    split; [apply consistent_clearFilterForRepo, H|reflexivity].
  - unfold command_showAllTags.
    destruct (truthy_id (TreeItemWithContext.repoId item)); [|auto].
    split; [exact H|reflexivity].
Qed.

(** X19: from its construction on and whatever the events that are
    handled, one after the other, the provider keeps in memory the very
    project list that is stored in the global state (the empty one when
    nothing is stored), so that a provider built anew finds the projects
    shown last; the search and every tag filter stay in lower case and
    trimmed; and the settings are never written. *)
Theorem provider_stays_consistent
        (token : option string) (stored : option (list GitLabProject.t))
        (user_settings : gmap string Z) (events : list Event) :
  let s := run server localeCompare toLocaleString events
               (new_GitLabRegistryProvider token stored user_settings) in
  consistent s /\
  settings s = user_settings /\
  cachedProjects
    (new_GitLabRegistryProvider (secrets_gitlabToken s) (globalState_cachedProjects s)
                                (settings s))
  = cachedProjects s.
Proof.
  cbv zeta.
  assert (H0 : consistent (new_GitLabRegistryProvider token stored user_settings) /\
               settings (new_GitLabRegistryProvider token stored user_settings)
               = user_settings).
  { unfold new_GitLabRegistryProvider, loadCachedProjects, consistent. simpl.
    destruct stored; simpl; repeat split; intros r q H;
      rewrite lookup_empty in H; discriminate. }
  revert H0. generalize (new_GitLabRegistryProvider token stored user_settings).
  induction events as [|event events IH]; intros s [Hc Hs]; simpl.
  - split; [exact Hc|]. split; [exact Hs|].
    destruct Hc as (Hp & _). rewrite Hp.
    unfold new_GitLabRegistryProvider, loadCachedProjects. simpl.
    destruct (globalState_cachedProjects s); reflexivity.
  - apply IH. destruct (handle_consistent event s Hc) as [Hc' Hs'].
    split; [exact Hc'|]. rewrite Hs'. exact Hs.
Qed.
End Invariant.

(** ** Requests and the token *)

Lemma sends_with_ret token {A} (a : A) : sends_with token (mret a).
Proof. exists (Fulfilled a), []. split; [apply network_only_ret|constructor]. Qed.

Lemma sends_with_bind token {A B} (m : Async A) (f : A -> Async B) :
  sends_with token m -> (forall a, sends_with token (f a)) -> sends_with token (m ≫= f).
Proof.
  intros ([a|] & l & Hm & Hl) Hf.
  - destruct (Hf a) as (r & l' & Hfa & Hl'). exists r, (l ++ l').
    split; [eapply network_only_bind; eassumption|].
    apply Forall_app. split; assumption.
  - exists Rejected, l. split; [apply network_only_bind_rejected, Hm|exact Hl].
Qed.

Lemma sends_with_fetch token {A} request (answer : Fetched A) :
  sends_with token (fetch token request answer).
Proof.
  eexists. eexists. split; [apply network_only_fetch|].
  constructor; [reflexivity|constructor].
Qed.

Lemma sends_with_message token (message : string) :
  sends_with token (perform (effect (ShowErrorMessage message))).
Proof.
  exists (Fulfilled tt), [ShowErrorMessage message].
  split; [intros s; reflexivity|]. constructor; [exact I|constructor].
Qed.

Lemma sends_with_Promise_all token {A} (tasks : list (Async A)) :
  Forall (sends_with token) tasks -> sends_with token (Promise_all tasks).
Proof.
  induction 1 as [|task tasks (r & l & Hl & Hw) _ (rs & ls & IH & Hws)].
  - apply (sends_with_ret token []).
  - eexists. exists (l ++ ls). split.
    + intros s. simpl. rewrite Hl, IH, emit_app. reflexivity.
    + apply Forall_app. split; assumption.
Qed.

(** A computation that begins with a request. *)
Lemma fetch_first token {A B} request (answer : Fetched A) (f : option A -> Async B) :
  (forall a, oblivious (f a)) ->
  exists r l,
    network_only (fetch token request answer ≫= f) r (Fetch token request :: l).
Proof.
  intros Hf. pose proof (network_only_fetch token request answer) as Hm.
  destruct answer as [| |body].
  - exists Rejected, []. apply network_only_bind_rejected, Hm.
  - destruct (Hf None) as (r & l & Hl). exists r, l.
    apply (network_only_bind _ f None [Fetch token request] r l Hm Hl).
  - destruct (Hf (Some body)) as (r & l & Hl). exists r, l.
    apply (network_only_bind _ f (Some body) [Fetch token request] r l Hm Hl).
Qed.

Section Token.
Variable server : Server.
Variable localeCompare : string -> string -> Z.
Variable toLocaleString : jsnum -> string.

Local Abbreviation children := (getChildren server localeCompare toLocaleString).

Lemma projectCheck_sends token project :
  sends_with token (projectCheck server token project).
Proof.
  unfold projectCheck.
  destruct (negb (GitLabProject.container_registry_enabled project));
    [apply sends_with_ret|].
  apply sends_with_bind; [apply sends_with_fetch|].
  intros [repos|]; [|apply sends_with_ret].
  destruct (0 <? List.length repos)%nat; apply sends_with_ret.
Qed.

Lemma fetchProjects_from_sends token pages :
  forall page projects,
    sends_with token (fetchProjects_from server token page pages projects).
Proof.
  induction pages as [|answer pages IH]; intros page projects; simpl.
  - apply sends_with_bind; [apply sends_with_fetch|]. intros _. apply sends_with_ret.
  - apply sends_with_bind; [apply sends_with_fetch|].
    intros [pageProjects|].
    + destruct (List.length pageProjects =? 0)%nat; [apply sends_with_ret|].
      apply sends_with_bind; [|intros checks; apply IH].
      apply sends_with_Promise_all, Forall_map, Forall_forall.
      intros project _. apply projectCheck_sends.
    + apply sends_with_bind; [apply sends_with_message|].
      intros _. apply sends_with_ret.
Qed.

Lemma fetchRegistryTags_from_sends token projectId repoId pages :
  forall page allTags,
    sends_with token
               (fetchRegistryTags_from token projectId repoId page pages allTags).
Proof.
  induction pages as [|answer pages IH]; intros page allTags; simpl.
  - apply sends_with_bind; [apply sends_with_fetch|]. intros _. apply sends_with_ret.
  - apply sends_with_bind; [apply sends_with_fetch|].
    intros [pageTags|]; [|apply sends_with_ret].
    destruct (List.length pageTags =? 0)%nat; [apply sends_with_ret|apply IH].
Qed.

Lemma fetchRegistryTags_sends token projectId repoId :
  sends_with token (fetchRegistryTags server token projectId repoId).
Proof.
  unfold fetchRegistryTags.
  apply sends_with_bind; [apply fetchRegistryTags_from_sends|]. intros allTags.
  apply sends_with_bind; [|intros enrichedTags; apply sends_with_ret].
  apply sends_with_Promise_all, Forall_map, Forall_forall. intros tag _.
  unfold enrichTag. apply sends_with_bind; [apply sends_with_fetch|].
  intros [detail|]; apply sends_with_ret.
Qed.

(** X20: whatever node is resolved, every request that [getChildren]
    sends carries the token that is stored when it starts, and that
    token is not empty; whatever else it does to the outside is an error
    message, an error on the console or the update of the stored project
    list: it fires no change event and runs no command. *)
Theorem requests_carry_the_stored_token
        (element : option TreeItemWithContext.t) (s : State) :
  exists l : list Effect,
    log (snd (children element s)) = log s ++ l /\
    Forall (getChildren_effect s) l.
Proof.
  assert (Hnone : exists l : list Effect,
             log s = log s ++ l /\ Forall (getChildren_effect s) l).
  { exists []. rewrite app_nil_r. split; [reflexivity|constructor]. }
  unfold getChildren, read, mbind, Async_bind.
  destruct (secrets_gitlabToken s) as [token|] eqn:Etok; [|exact Hnone].
  destruct (JsString.truthy token) eqn:Et; [|exact Hnone].
  cbv beta iota delta [negb].
  assert (Hwith : forall l, Forall (with_token token) l ->
                            Forall (getChildren_effect s) l).
  { intros l Hl. eapply Forall_impl; [exact Hl|].
    intros [t req| | | | |]; simpl; try tauto.
    intros ->. auto. }
  destruct element as [e|].
  - destruct (bool_decide (TreeItemWithContext.context e = Ctx.folder)).
    { unfold getChildren_folder.
      destruct (TreeItemWithContext.fullPath e); [exact Hnone|].
      eexists [_]. split; [reflexivity|]. constructor; [exact I|constructor]. }
    destruct (bool_decide (TreeItemWithContext.context e = Ctx.project)
              && truthy_id (TreeItemWithContext.projectId e)).
    { exists [Fetch token
                    (GET_repositories (default 0 (TreeItemWithContext.projectId e)))].
      split.
      - unfold getChildren_project, fetchRegistryRepos, fetch, mbind, mret,
          Async_bind, Async_ret.
        destruct (repositories server token _); reflexivity.
      - apply Hwith. constructor; [reflexivity|constructor]. }
    destruct (bool_decide (TreeItemWithContext.context e = Ctx.repo)
              && truthy_id (TreeItemWithContext.projectId e)
              && truthy_id (TreeItemWithContext.repoId e)); [|exact Hnone].
    set (projectId := default 0 (TreeItemWithContext.projectId e)).
    set (repoId := default 0 (TreeItemWithContext.repoId e)).
    unfold getChildren_repo, read, perform, mbind, mret, Async_bind, Async_ret.
    destruct (cachedTags s !! repoId) as [cached|] eqn:Ec.
    { cbv beta iota.
      match goal with |- context [if ?b then _ else _] => destruct b end;
        exact Hnone. }
    destruct (fetchRegistryTags_sends token projectId repoId) as (r & l & Hl & Hw).
    rewrite Hl. exists l. split; [|apply Hwith, Hw].
    destruct r as [tags|]; [|reflexivity].
    cbv beta iota.
    match goal with |- context [if ?b then _ else _] => destruct b end; reflexivity.
  - change (exists l : list Effect,
               log (snd (getChildren_root server localeCompare token s)) = log s ++ l /\
               Forall (getChildren_effect s) l).
    destruct (cachedProjects s) as [|p ps] eqn:Ep.
    + destruct (fetchProjects_from_sends token (projects server token) 1 [])
        as (r & l & Hl & Hw).
      rewrite (getChildren_root_fetched server localeCompare token _ l s Hl Ep).
      destruct r as [qs|]; [|exists l; split; [reflexivity|apply Hwith, Hw]].
      exists (l ++ [GlobalStateUpdate qs]). split.
      * unfold saveCachedProjects, effect, emit. simpl. rewrite app_assoc. reflexivity.
      * apply Forall_app. split; [apply Hwith, Hw|].
        constructor; [exact I|constructor].
    + rewrite getChildren_root_cached by congruence. exact Hnone.
Qed.
End Token.

(** ** A new token *)

Section NewToken.
Variable server : Server.
Variable localeCompare : string -> string -> Z.
Variable toLocaleString : jsnum -> string.

Local Abbreviation children := (getChildren server localeCompare toLocaleString).

Lemma fetchProjects_first_request token :
  exists r l,
    network_only (fetchProjects server token) r (Fetch token (GET_projects 1) :: l).
Proof.
  unfold fetchProjects.
  destruct (projects server token) as [|answer pages]; simpl; apply fetch_first.
  - intros _. apply oblivious_ret.
  - intros [pageProjects|].
    + destruct (List.length pageProjects =? 0)%nat; [apply oblivious_ret|].
      apply oblivious_bind; [|intros checks; apply fetchProjects_from_oblivious].
      apply oblivious_Promise_all, Forall_map, Forall_forall.
      intros project _. apply projectCheck_oblivious.
    + apply oblivious_bind; [apply oblivious_effect|]. intros _. apply oblivious_ret.
Qed.

(** X21: [setToken] does nothing when the input box is dismissed or left
    empty.  A token that is entered is stored and the provider is
    refreshed: the project list, the stored list and the tag cache are
    emptied, the search is kept, and the next time the root is resolved
    the projects are fetched again, the first request being that for the
    first page, with the new token. *)
Theorem new_token_is_used (input : option string) (s : State) :
  (truthy_opt input = false -> command_setToken input s = s) /\
  (forall token : string,
      input = Some token -> JsString.truthy token = true ->
      let s' := command_setToken input s in
      secrets_gitlabToken s' = Some token /\
      cachedProjects s' = [] /\
      globalState_cachedProjects s' = Some [] /\
      cachedTags s' = ∅ /\
      searchQuery s' = searchQuery s /\
      exists l,
        log (snd (children None s'))
        = log s' ++ Fetch token (GET_projects 1) :: l).
Proof.
  split.
  - intros H. unfold command_setToken. rewrite H. reflexivity.
  - intros token -> Ht s'. subst s'. unfold command_setToken. simpl truthy_opt.
    rewrite Ht. repeat (split; [reflexivity|]).
    set (s' := refresh _).
    rewrite (getChildren_token server localeCompare toLocaleString token s')
      by (try reflexivity; exact Ht).
    destruct (fetchProjects_first_request token) as (r & l & Hl).
    rewrite (getChildren_root_fetched server localeCompare token r _ s' Hl)
      by reflexivity.
    destruct r as [ps|].
    + exists (l ++ [GlobalStateUpdate ps]).
      unfold saveCachedProjects, effect, emit. simpl. rewrite <- !app_assoc.
      reflexivity.
    + exists l. reflexivity.
Qed.
End NewToken.

Lemma new_token_is_used_witness :
  command_setToken (Some "") Sample.searching = Sample.searching /\
  secrets_gitlabToken (command_setToken (Some "glpat-other") Sample.searching)
  = Some "glpat-other".
Proof.
  destruct (new_token_is_used Sample.registry Sample.localeCompare Sample.toLocaleString
                              (Some "") Sample.searching) as [H _].
  destruct (new_token_is_used Sample.registry Sample.localeCompare Sample.toLocaleString
                              (Some "glpat-other") Sample.searching) as [_ H'].
  split.
  - apply H. reflexivity.
  - apply (H' "glpat-other"); reflexivity.
Defined.

(** ** [formatBytes]: the unit follows the magnitude *)

Lemma toFixed2_comp (x y : Q) : (x == y)%Q -> JsNumber.toFixed2 x = JsNumber.toFixed2 y.
Proof.
  intros H. unfold JsNumber.toFixed2.
  assert (Hs : Qle_bool 0 x = Qle_bool 0 y).
  { apply Bool.eq_iff_eq_true. rewrite !Qle_bool_iff, H. reflexivity. }
  assert (Hn : Qfloor (Qabs x * 100 + (1 # 2)) = Qfloor (Qabs y * 100 + (1 # 2))).
  { apply Qfloor_comp. rewrite H. reflexivity. }
  assert (Hbig : Qle_bool (inject_Z (10 ^ 21)) (Qabs x)
                 = Qle_bool (inject_Z (10 ^ 21)) (Qabs y)).
  { apply Bool.eq_iff_eq_true. rewrite !Qle_bool_iff, H. reflexivity. }
  assert (Hf : Qfloor (Qabs x) = Qfloor (Qabs y)).
  { apply Qfloor_comp. rewrite H. reflexivity. }
  rewrite Hs, Hn, Hbig, Hf. reflexivity.
Qed.

Lemma pow_1024_pos (j : nat) : 0 < 1024 ^ Z.of_nat j.
Proof. apply Z.pow_pos_nonneg; lia. Qed.

(** The loop divides [j] times when the size is at least [1024^j] and,
    unless the last unit is reached, below [1024^(j+1)]. *)
Lemma formatBytes_loop_exact (j : nat) :
  forall (fuel : nat) (size : Q) (i : nat),
    (i + j <= 4)%nat -> (j <= fuel)%nat ->
    (inject_Z (1024 ^ Z.of_nat j) <= size)%Q ->
    ((i + j < 4)%nat -> (size < inject_Z (1024 ^ Z.of_nat (S j)))%Q) ->
    (fst (formatBytes_loop fuel size i) == size / inject_Z (1024 ^ Z.of_nat j))%Q /\
    snd (formatBytes_loop fuel size i) = (i + j)%nat.
Proof.
  induction j as [|j IH]; intros fuel size i Hi Hf Hlo Hhi.
  - assert (Hstop : formatBytes_loop fuel size i = (size, i)).
    { destruct fuel as [|fuel]; [reflexivity|]. simpl.
      destruct (i <? 4)%nat eqn:E; [|rewrite andb_false_r; reflexivity].
      apply Nat.ltb_lt in E.
      assert (Hlt : (size < 1024)%Q) by (apply Hhi; lia).
      destruct (Qle_bool 1024 size) eqn:E'; [|reflexivity].
      apply Qle_bool_iff in E'. exfalso. apply (Qlt_not_le _ _ Hlt E'). }
    rewrite Hstop. simpl. split; [|lia].
    change (inject_Z (1024 ^ Z.of_nat 0)) with 1%Q. field.
  - destruct fuel as [|fuel]; [lia|]. simpl formatBytes_loop.
    assert (Hlt : (i <? 4)%nat = true) by (apply Nat.ltb_lt; lia).
    pose proof (pow_1024_pos j) as Hpos.
    assert (Hpow : (inject_Z (1024 ^ Z.of_nat (S j))
                    == 1024 * inject_Z (1024 ^ Z.of_nat j))%Q).
    { rewrite Nat2Z.inj_succ, Z.pow_succ_r by lia. rewrite inject_Z_mult. reflexivity. }
    assert (Hp : (1 <= inject_Z (1024 ^ Z.of_nat j))%Q).
    { change 1%Q with (inject_Z 1). rewrite <- Zle_Qle. lia. }
    assert (H1024 : Qle_bool 1024 size = true).
    { apply Qle_bool_iff. apply Qle_trans with (2 := Hlo). rewrite Hpow.
      rewrite <- (Qmult_1_r 1024) at 1.
      apply Qmult_le_l; [reflexivity|exact Hp]. }
    change (List.length units - 1)%nat with 4%nat.
    rewrite H1024, Hlt. simpl andb. cbv iota.
    destruct (IH fuel (size / 1024)%Q (S i)) as [H1 H2].
    + lia.
    + lia.
    + apply Qle_shift_div_l; [reflexivity|].
      rewrite Qmult_comm, <- Hpow. exact Hlo.
    + intros Hlt'. apply Qlt_shift_div_r; [reflexivity|].
      assert (Hpow' : (inject_Z (1024 ^ Z.of_nat (S (S j)))
                       == inject_Z (1024 ^ Z.of_nat (S j)) * 1024)%Q).
      { rewrite (Nat2Z.inj_succ (S j)), Z.pow_succ_r by lia.
        rewrite inject_Z_mult. apply Qmult_comm. }
      rewrite <- Hpow'. apply Hhi. lia.
    + split; [|lia]. rewrite H1, Hpow.
      assert (Hnz : ~ (inject_Z (1024 ^ Z.of_nat j) == 0)%Q).
      { intros H0. rewrite H0 in Hp. apply (Qlt_not_le 0 1); [reflexivity|exact Hp]. }
      field. exact Hnz.
Qed.

(** X22: [formatBytes] scales by the magnitude of the byte count: a
    count of at least 1024^k bytes, and of less than 1024^(k+1) unless k
    is 4, is shown as the count divided by 1024^k, with two decimals,
    and the k-th unit.  A negative count is never divided: it is shown
    in B. *)
Theorem formatBytes_scales_by_magnitude (B : Z) :
  (forall k : nat,
      (k <= 4)%nat ->
      1024 ^ Z.of_nat k <= B ->
      ((k < 4)%nat -> B < 1024 ^ Z.of_nat (S k)) ->
      formatBytes (Some B)
      = JsNumber.toFixed2 (inject_Z B / inject_Z (1024 ^ Z.of_nat k))
        +:+ " " +:+ nth k units "undefined") /\
  (B < 0 -> formatBytes (Some B) = JsNumber.toFixed2 (inject_Z B) +:+ " B").
Proof.
  split.
  - intros k Hk Hlo Hhi. pose proof (pow_1024_pos k) as Hpos.
    rewrite formatBytes_positive by lia.
    destruct (formatBytes_loop_exact k 5 (inject_Z B) 0) as [H1 H2].
    + lia.
    + lia.
    + rewrite <- Zle_Qle. exact Hlo.
    + intros Hlt. rewrite <- Zlt_Qlt. apply Hhi. exact Hlt.
    + rewrite H2, (toFixed2_comp _ _ H1). reflexivity.
  - intros Hneg. destruct B as [|p|p]; try lia. reflexivity.
Qed.

Lemma formatBytes_scales_by_magnitude_witness :
  formatBytes (Some 5368709120)
  = JsNumber.toFixed2 (inject_Z 5368709120 / inject_Z (1024 ^ Z.of_nat 3)) +:+ " GB" /\
  formatBytes (Some (-1)) = "-1.00 B".
Proof.
  destruct (formatBytes_scales_by_magnitude 5368709120) as [H _].
  destruct (formatBytes_scales_by_magnitude (-1)) as [_ H'].
  split.
  - apply (H 3%nat); [lia|vm_compute; discriminate|intros _; reflexivity].
  - apply H'. lia.
Defined.

(** ** [fetchRegistryTags]: order and requests *)

Section TagFetching.
Variable server : Server.

Lemma enriched_name token projectId repoId (tag : GitLabTag.t) :
  GitLabTag.name (enriched_or_name_only server token projectId repoId tag)
  = GitLabTag.name tag.
Proof.
  unfold enriched_or_name_only.
  destruct (tag_detail server token projectId repoId (GitLabTag.name tag)); reflexivity.
Qed.

(** X23: when the listing gets through and the detail of every tag is
    answered with success and carries a valid timestamp,
    [fetchRegistryTags] returns the listed tags, by name, each with the
    time of its detail, newest first. *)
Theorem dated_tags_come_newest_first
        (token : string) (projectId repoId : Z) (s : State)
        (allTags : list GitLabTag.t) :
  listing (tags server token projectId repoId) = Fulfilled allTags ->
  Forall (fun tag =>
            exists detail,
              tag_detail server token projectId repoId (GitLabTag.name tag)
              = HttpOk detail /\ dated detail) allTags ->
  exists result,
    fst (fetchRegistryTags server token projectId repoId s) = Fulfilled result /\
    StronglySorted (fun a b => time_of b <= time_of a) result /\
    Permutation (List.map GitLabTag.name result) (List.map GitLabTag.name allTags) /\
    Forall dated result.
Proof.
  intros Hlist Hdetails.
  destruct (fetchRegistryTags_network_only server token projectId repoId) as [l Hl].
  rewrite Hlist in Hl.
  rewrite (all_settled_enriched server token projectId repoId allTags) in Hl.
  2:{ eapply Forall_impl; [exact Hdetails|]. simpl. intros tag (detail & -> & _).
      discriminate. }
  set (enrichedTags := List.map (enriched_or_name_only server token projectId repoId)
                                allTags) in *.
  assert (Hdated : Forall dated enrichedTags).
  { subst enrichedTags. apply Forall_map.
    eapply Forall_impl; [exact Hdetails|]. simpl. intros tag (detail & E & Hd).
    unfold enriched_or_name_only. rewrite E. exact Hd. }
  destruct (dated_tags_sorted_descending enrichedTags Hdated) as [Hsorted Hperm].
  eexists. rewrite Hl. split; [reflexivity|]. split; [exact Hsorted|]. split.
  - rewrite Hperm. subst enrichedTags. rewrite map_map.
    erewrite map_ext; [reflexivity|]. intros tag. apply enriched_name.
  - rewrite Hperm. exact Hdated.
Qed.
End TagFetching.

Lemma dated_tags_come_newest_first_witness :
  exists result,
    fst (fetchRegistryTags
           Groups.oldest_first
           "glpat-token" 1 7 Sample.fresh) = Fulfilled result /\
    List.map GitLabTag.name result = ["v2"; "v1"].
Proof.
  destruct (dated_tags_come_newest_first
              Groups.oldest_first
              "glpat-token" 1 7 Sample.fresh [Sample.listed "v1"; Sample.listed "v2"])
    as (result & H & _).
  - reflexivity.
  - repeat constructor.
    + exists Sample.older. split; [reflexivity|]. vm_compute. discriminate.
    + exists Sample.newer. split; [reflexivity|]. vm_compute. discriminate.
  - exists result. split; [exact H|].
    vm_compute in H. injection H as <-. reflexivity.
Defined.

Section TagRequests.
Variable server : Server.

Lemma tag_page_requests_S token projectId repoId page n :
  tag_page_requests token projectId repoId page (S n)
  = Fetch token (GET_tags projectId repoId page)
    :: tag_page_requests token projectId repoId (page + 1) n.
Proof.
  unfold tag_page_requests. simpl. rewrite Z.add_0_r. f_equal.
  rewrite <- seq_shift, map_map. apply map_ext. intros i.
  do 2 f_equal. lia.
Qed.

Lemma fetchRegistryTags_from_requests token projectId repoId pages :
  forall page allTags,
    network_only (fetchRegistryTags_from token projectId repoId page pages allTags)
                 (match listing pages with
                  | Fulfilled more => Fulfilled (allTags ++ more)
                  | Rejected => Rejected
                  end)
                 (tag_page_requests token projectId repoId page (S (full_pages pages))).
Proof.
  induction pages as [|answer pages IH]; intros page allTags;
    rewrite tag_page_requests_S; simpl.
  - rewrite app_nil_r.
    apply (network_only_bind _ _ (Some []) [_] _ []);
      [apply (network_only_fetch token _ (HttpOk []))|apply network_only_ret].
  - destruct answer as [| |[|tag pageTags]]; simpl.
    + apply network_only_bind_rejected.
      apply (network_only_fetch token _ (@NetworkFailure (list GitLabTag.t))).
    + rewrite app_nil_r.
      apply (network_only_bind _ _ None [_] _ []);
        [apply (network_only_fetch token _ (@HttpError (list GitLabTag.t)))
        |apply network_only_ret].
    + rewrite app_nil_r.
      apply (network_only_bind _ _ (Some []) [_] _ []);
        [apply (network_only_fetch token _ (HttpOk []))|apply network_only_ret].
    + specialize (IH (page + 1) (allTags ++ tag :: pageTags)).
      destruct (listing pages) as [more|].
      * rewrite <- app_assoc in IH.
        apply (network_only_bind _ _ (Some (tag :: pageTags)) [_] _ _);
          [apply (network_only_fetch token _ (HttpOk (tag :: pageTags)))|exact IH].
      * apply (network_only_bind _ _ (Some (tag :: pageTags)) [_] _ _);
          [apply (network_only_fetch token _ (HttpOk (tag :: pageTags)))|exact IH].
Qed.

Lemma enrichTag_request token projectId repoId tag :
  network_only (enrichTag server token projectId repoId tag)
               (enriched server token projectId repoId tag)
               [Fetch token (GET_tag projectId repoId (GitLabTag.name tag))].
Proof.
  unfold enrichTag, enriched.
  destruct (tag_detail server token projectId repoId (GitLabTag.name tag))
    as [| |detail].
  - apply network_only_bind_rejected.
    apply (network_only_fetch token _ (@NetworkFailure GitLabTag.t)).
  - apply (network_only_bind _ _ None [_] _ []);
      [apply (network_only_fetch token _ (@HttpError GitLabTag.t))
      |apply network_only_ret].
  - apply (network_only_bind _ _ (Some detail) [_] _ []);
      [apply (network_only_fetch token _ (HttpOk detail))|apply network_only_ret].
Qed.

Lemma enrichTags_requests token projectId repoId (allTags : list GitLabTag.t) :
  network_only
    (Promise_all (List.map (enrichTag server token projectId repoId) allTags))
    (all_settled (List.map (enriched server token projectId repoId) allTags))
    (List.map (fun tag => Fetch token (GET_tag projectId repoId (GitLabTag.name tag)))
              allTags).
Proof.
  induction allTags as [|tag allTags IH]; intros s; simpl.
  - rewrite emit_nil. reflexivity.
  - rewrite (enrichTag_request token projectId repoId tag s), IH, emit_app.
    destruct (enriched server token projectId repoId tag),
      (all_settled (List.map (enriched server token projectId repoId) allTags));
      reflexivity.
Qed.

(** X24: what one call of [fetchRegistryTags] asks of the registry: the
    pages of the tags from the first one on, in order, up to and
    including the first page that is empty, not [ok] or not answered,
    and no page after it; then, when the listing got through, the detail
    of each listed tag, once, in the order of the listing, whether or not
    the details are answered; and nothing else. *)
Theorem fetchRegistryTags_requests (token : string) (projectId repoId : Z) (s : State) :
  log (snd (fetchRegistryTags server token projectId repoId s))
  = log s
    ++ tag_page_requests token projectId repoId 1
                         (S (full_pages (tags server token projectId repoId)))
    ++ match listing (tags server token projectId repoId) with
       | Fulfilled allTags =>
           List.map (fun tag =>
                       Fetch token (GET_tag projectId repoId (GitLabTag.name tag)))
                    allTags
       | Rejected => []
       end.
Proof.
  pose proof (fetchRegistryTags_from_requests
                token projectId repoId (tags server token projectId repoId) 1 [])
    as Hpages.
  destruct (listing (tags server token projectId repoId)) as [allTags|].
  - change ([] ++ allTags) with allTags in Hpages.
    pose proof (enrichTags_requests token projectId repoId allTags) as Hdetails.
    set (requests := List.map (fun tag => Fetch token _) allTags) in *.
    assert (H : exists r,
               network_only (fetchRegistryTags server token projectId repoId) r
                            (tag_page_requests
                               token projectId repoId 1
                               (S (full_pages (tags server token projectId repoId)))
                             ++ requests)).
    { unfold fetchRegistryTags.
      destruct (all_settled (List.map (enriched server token projectId repoId) allTags))
        as [enrichedTags|].
      - eexists. eapply network_only_bind; [exact Hpages|].
        rewrite <- (app_nil_r requests).
        eapply network_only_bind; [exact Hdetails|apply network_only_ret].
      - eexists. eapply network_only_bind; [exact Hpages|].
        apply network_only_bind_rejected, Hdetails. }
    destruct H as [r H]. rewrite H. reflexivity.
  - unfold fetchRegistryTags.
    rewrite (network_only_bind_rejected _ _ _ Hpages). simpl.
    rewrite app_nil_r. reflexivity.
Qed.
End TagRequests.

(** ** The nodes that carry a command *)

(** X25: under a repository node, the filter node opens the tag filter
    when it is chosen and has the context value [filterWithClear], the
    one the clear button is contributed for, exactly when a filter is
    set; it carries the id of the repository, so that the clear button
    resets the filter of that repository; and the show-more node carries
    it too, so that its command puts that repository in show-all
    state. *)
Theorem nodes_carry_what_their_commands_need
        (e : TreeItemWithContext.t) (projectId repoId : Z) (s : State) :
  repo_node e projectId repoId ->
  (forall q,
      TreeItemWithContext.contextValue (filterItem e q)
      = if JsString.truthy q then "filterWithClear" else "filter") /\
  (forall q,
      TreeItemWithContext.command (filterItem e q)
      = Some {| command_id := "gitlabRegistryExplorer.filterTagsInline";
                command_title := "Filter Tags" |}) /\
  (forall q,
      getFilterTagsQuery repoId (command_clearTagFilter (filterItem e q) s) = "") /\
  (forall n,
      TreeItemWithContext.command (showAllItem e n)
      = Some {| command_id := "gitlabRegistryExplorer.showAllTags";
                command_title := "Show All Tags" |}) /\
  (forall n, repoId ∈ showAllTagsForRepo (command_showAllTags (showAllItem e n) s)).
Proof.
  intros (_ & _ & Hr & _ & Hne).
  apply Z.eqb_neq in Hne.
  split; [intros [|c q]; reflexivity|].
  split; [reflexivity|]. split; [|split; [reflexivity|]].
  - intros q. unfold command_clearTagFilter, filterItem. simpl.
    rewrite Hr. simpl. rewrite Hne. simpl.
    unfold getFilterTagsQuery, clearFilterForRepo. simpl.
    rewrite lookup_delete_eq. reflexivity.
  - intros n. unfold command_showAllTags, showAllItem. simpl.
    rewrite Hr. simpl. rewrite Hne. simpl.
    apply elem_of_union_l, elem_of_singleton. reflexivity.
Qed.

Lemma nodes_carry_what_their_commands_need_witness :
  getFilterTagsQuery 7 (command_clearTagFilter (filterItem Sample.repo7 "t1")
                                               Sample.searching) = "" /\
  7 ∈ showAllTagsForRepo (command_showAllTags (showAllItem Sample.repo7 10)
                                              Sample.with_thirty).
Proof.
  split.
  - apply (nodes_carry_what_their_commands_need Sample.repo7 1 7 Sample.searching).
    repeat split; try reflexivity; discriminate.
  - apply (nodes_carry_what_their_commands_need Sample.repo7 1 7 Sample.with_thirty).
    repeat split; try reflexivity; discriminate.
Defined.

(** ** The root that is resolved again *)

Section RootAgain.
Variable server : Server.
Variable localeCompare : string -> string -> Z.
Variable toLocaleString : jsnum -> string.

Local Abbreviation children := (getChildren server localeCompare toLocaleString).

(** X26: once the root has been resolved with a stored token, resolving
    it again with nothing in between sends no request, changes nothing
    and gives the same nodes, provided the project list is not empty
    then.  An empty list of projects is not remembered: the root shows
    the placeholder, and resolving it again fetches the projects again,
    from the first page on. *)
Theorem root_resolved_again (token : string) (s : State)
        (items : list TreeItemWithContext.t) :
  secrets_gitlabToken s = Some token -> JsString.truthy token = true ->
  fst (children None s) = Fulfilled items ->
  (cachedProjects (snd (children None s)) <> [] ->
   children None (snd (children None s)) = (Fulfilled items, snd (children None s))) /\
  (cachedProjects (snd (children None s)) = [] ->
   items = [no_projects_item] /\
   exists l,
     log (snd (children None (snd (children None s))))
     = log (snd (children None s)) ++ Fetch token (GET_projects 1) :: l).
Proof.
  intros Hs Ht.
  rewrite (getChildren_token server localeCompare toLocaleString token s Hs Ht).
  destruct (fetchProjects_first_request server token) as (r & l & Hl).
  assert (Hagain : forall s1,
             secrets_gitlabToken s1 = Some token ->
             (cachedProjects s1 <> [] ->
              children None s1 = (Fulfilled (root_items localeCompare s1), s1)) /\
             (cachedProjects s1 = [] ->
              exists l', log (snd (children None s1))
                         = log s1 ++ Fetch token (GET_projects 1) :: l')).
  { intros s1 Hs1.
    rewrite (getChildren_token server localeCompare toLocaleString token s1 Hs1 Ht).
    split.
    - apply getChildren_root_cached.
    - intros He.
      rewrite (getChildren_root_fetched server localeCompare token r _ s1 Hl He).
      destruct r as [ps|].
      + exists (l ++ [GlobalStateUpdate ps]).
        unfold saveCachedProjects, effect, emit. simpl. rewrite <- !app_assoc.
        reflexivity.
      + exists l. reflexivity. }
  destruct (cachedProjects s) as [|p ps] eqn:Ep.
  - rewrite (getChildren_root_fetched server localeCompare token r _ s Hl Ep).
    destruct r as [qs|]; [|discriminate].
    cbv zeta. simpl fst. simpl snd. intros H. injection H as <-.
    set (s1 := saveCachedProjects _).
    destruct (Hagain s1 Hs) as [H1 H2].
    split; [exact H1|]. intros He. split; [|exact (H2 He)].
    apply root_items_empty, He.
  - rewrite getChildren_root_cached by congruence.
    simpl. intros H. injection H as <-.
    destruct (Hagain s Hs) as [H1 H2].
    split; [exact H1|]. intros He. split; [|exact (H2 He)].
    apply root_items_empty, He.
Qed.
End RootAgain.

Lemma root_resolved_again_witness :
  getChildren Sample.registry Sample.localeCompare Sample.toLocaleString None
              (snd (getChildren Sample.registry Sample.localeCompare
                                Sample.toLocaleString None Sample.fresh))
  = (Fulfilled [root_folder_item "g"],
     snd (getChildren Sample.registry Sample.localeCompare Sample.toLocaleString None
                      Sample.fresh)).
Proof.
  destruct (root_resolved_again Sample.registry Sample.localeCompare Sample.toLocaleString
                                "glpat-token" Sample.fresh [root_folder_item "g"])
    as [H _].
  - reflexivity.
  - reflexivity.
  - reflexivity.
  - apply H. discriminate.
Defined.
